(** * forex-live-trader: a shallow embedding of the trading core

    The development follows the layout of the repository:

    - [Py]             the few Python built-ins the code relies on
                       ([round], [str.upper], [in] on strings, [dict.get]);
    - [Config]         [app/config.py];
    - [ForexUtils]     [app/utils/forex_utils.py];
    - [SessionUtils]   [app/utils/session_utils.py], with the calendar of
                       [datetime] and the two time zones it asks [pytz] for;
    - [Schema]         the tables of [alembic/versions];
    - [RiskEngine]     [app/services/risk_engine.py];
    - [TradeExecutor]  [app/services/trade_executor.py];
    - [ImportBaseline] [scripts/import_baseline.py];
    - [PriceStream]    [app/services/price_stream.py];
    - [Scheduler]      [app/services/scheduler.py].

    They are followed by the vocabulary of the statements
    ([RollingWindowSpec], [AccountSpec], [AlertSpec], [RiskSpec]), by the
    concrete states of the examples ([Scenarios]) and by the properties.

    Numbers.  Python [float] and [Decimal] values are modelled as exact
    rationals [Q], and equalities between them are stated with [==];
    integer columns are [Z].

    Effects.  A function that reads or writes the database takes the
    database state and returns the new one.  The current time, fresh
    UUIDs, the answers of the predictor and of the quote server are
    arguments of the functions that consume them.  An awaited call is
    modelled by its result; what is handed to a callback is returned.

    Database.  A table holds the values the statements write into it.
    The [DECIMAL(12, 2)] and [DECIMAL(5, 2)] columns of [account] hold
    whole numbers of hundredths, and the rows COPYed by the baseline
    import are stored at the scale of their [DECIMAL(6, 1)] columns: a
    value assigned to such a column is rounded as PostgreSQL rounds a
    [numeric], ties away from zero.  The other statements are modelled
    with the values they are given.  The CHECK constraints of the DDL
    and the error PostgreSQL raises for a value that exceeds the
    precision of its column are not part of the model. *)

From Stdlib Require Import ZArith QArith Qround Lqa Lia.
From Stdlib Require Import String Ascii List.
From stdpp Require Import base option gmap strings list.

Local Open Scope Z_scope.

(* ===================================================================== *)
(** ** Python built-ins *)
(* ===================================================================== *)

Module Py.

(** [str.upper] and [str.lower] on ASCII letters. *)
Definition upper_ascii (c : ascii) : ascii :=
  let n := nat_of_ascii c in
  if ((97 <=? n) && (n <=? 122))%nat then ascii_of_nat (n - 32) else c.

Definition lower_ascii (c : ascii) : ascii :=
  let n := nat_of_ascii c in
  if ((65 <=? n) && (n <=? 90))%nat then ascii_of_nat (n + 32) else c.

Fixpoint upper (s : string) : string :=
  match s with
  | EmptyString => EmptyString
  | String c s' => String (upper_ascii c) (upper s')
  end.

Fixpoint lower (s : string) : string :=
  match s with
  | EmptyString => EmptyString
  | String c s' => String (lower_ascii c) (lower s')
  end.

(** [sub in s] for strings. *)
Fixpoint contains (sub s : string) : bool :=
  String.prefix sub s ||
  match s with
  | EmptyString => false
  | String _ s' => contains sub s'
  end.

(** [s[-n:]] *)
Definition suffix_from_end (n : nat) (s : string) : string :=
  String.substring (String.length s - n) n s.

(** [d.get(k, default)] *)
Definition dict_get {V : Type} (d : gmap string V) (k : string) (default : V) : V :=
  match d !! k with
  | Some v => v
  | None => default
  end.

(** Rounding to the nearest integer, ties to even: the rule of [round]. *)
Definition round_half_even (x : Q) : Z :=
  let f := Qfloor x in
  match (x - inject_Z f ?= 1 # 2)%Q with
  | Lt => f
  | Gt => f + 1
  | Eq => if Z.even f then f else f + 1
  end.

(** [round(x, ndigits)] *)
Definition round (x : Q) (ndigits : nat) : Q :=
  let p := inject_Z (10 ^ Z.of_nat ndigits) in
  (inject_Z (round_half_even (x * p)) / p)%Q.

Definition Qmax (a b : Q) : Q := if Qle_bool a b then b else a.
Definition Qmin (a b : Q) : Q := if Qle_bool a b then a else b.

Definition Qgeb (a b : Q) : bool := Qle_bool b a.
Definition Qltb (a b : Q) : bool := negb (Qle_bool b a).
Definition Qgtb (a b : Q) : bool := negb (Qle_bool a b).

End Py.

(* ===================================================================== *)
(** ** app/config.py *)
(* ===================================================================== *)

Module Config.

Local Open Scope Q_scope.

(** The trading part of [Settings]; every field is read from the
    environment and falls back to the default of [default_settings]. *)
Record Settings := {
  starting_balance : Q;
  risk_percent : Q;
  max_lot_size : Q;
  min_lot_size : Q;
  commission_per_lot : Q;
  default_spread_pips : Q;
  rolling_window_months : Z;
  tp_percentile : string;
  sl_percentile : string;
  ohlc_prewarm_seconds : Z;
  chart_prewarm_seconds : Z
}.

Definition default_settings : Settings := {|
  starting_balance := 10000;
  risk_percent := 1.55;
  max_lot_size := 5.0;
  min_lot_size := 0.01;
  commission_per_lot := 3.50;
  default_spread_pips := 0.3;
  rolling_window_months := 6;
  tp_percentile := "P75";
  sl_percentile := "P50";
  ohlc_prewarm_seconds := 120;
  chart_prewarm_seconds := 60
|}.

Definition TRADING_PAIRS : list string :=
  [ "EURUSD"; "GBPUSD"; "USDJPY"; "AUDUSD"; "USDCAD"; "NZDUSD";
    "EURGBP"; "EURJPY"; "GBPJPY"; "EURAUD"; "EURCAD"; "EURNZD";
    "GBPAUD"; "GBPCAD"; "GBPNZD"; "AUDJPY"; "CADJPY";
    "XAUUSD"; "XAGUSD" ]%string.

Definition ECN_SPREADS : gmap string Q :=
  list_to_map
    [ ("EURUSD", 0.1); ("GBPUSD", 0.3); ("USDJPY", 0.2); ("AUDUSD", 0.3);
      ("USDCAD", 0.4); ("NZDUSD", 0.5); ("EURGBP", 0.4); ("EURJPY", 0.5);
      ("GBPJPY", 0.8); ("EURAUD", 0.6); ("EURCAD", 0.6); ("EURNZD", 0.8);
      ("GBPAUD", 0.9); ("GBPCAD", 0.8); ("GBPNZD", 1.0); ("AUDJPY", 0.5);
      ("CADJPY", 0.5); ("XAUUSD", 0.15); ("XAGUSD", 0.02) ]%string.

Definition SLIPPAGE : gmap string Q :=
  list_to_map [ ("entry", 0.2); ("exit_tp", 0.1); ("exit_sl", 0.5) ]%string.

End Config.

(* ===================================================================== *)
(** ** app/utils/forex_utils.py *)
(* ===================================================================== *)

Module ForexUtils.

Local Open Scope Q_scope.

Definition get_pip_value (pair : string) : Q :=
  let pair_upper := Py.upper pair in
  if Py.contains "XAU" pair_upper then 1.00
  else if Py.contains "XAG" pair_upper then 0.01
  else if Py.contains "JPY" pair_upper then 0.01
  else 0.0001.

Definition DEFAULT_USD_RATES : gmap string Q :=
  list_to_map
    [ ("USDJPY", 157.0); ("USDCAD", 1.44); ("USDCHF", 0.90);
      ("GBPUSD", 1.26); ("AUDUSD", 0.62); ("NZDUSD", 0.58);
      ("EURUSD", 1.08) ]%string.

(** [get_pip_value_in_usd(pair)]; the optional [current_price] is never
    read by the body. *)
Definition get_pip_value_in_usd (pair : string) : Q :=
  let pair_upper := Py.upper pair in
  if Py.contains "XAU" pair_upper then 100.00
  else if Py.contains "XAG" pair_upper then 50.00
  else
    let quote_currency := Py.suffix_from_end 3 pair_upper in
    if String.eqb quote_currency "USD" then 10.00
    else if String.eqb quote_currency "JPY" then
      Py.round (10.00 * (100 / Py.dict_get DEFAULT_USD_RATES "USDJPY" 157.0)) 2
    else if String.eqb quote_currency "CAD" then
      Py.round (10.00 / Py.dict_get DEFAULT_USD_RATES "USDCAD" 1.44) 2
    else if String.eqb quote_currency "CHF" then
      Py.round (10.00 / Py.dict_get DEFAULT_USD_RATES "USDCHF" 0.90) 2
    else if String.eqb quote_currency "GBP" then
      Py.round (10.00 * Py.dict_get DEFAULT_USD_RATES "GBPUSD" 1.26) 2
    else if String.eqb quote_currency "AUD" then
      Py.round (10.00 * Py.dict_get DEFAULT_USD_RATES "AUDUSD" 0.62) 2
    else if String.eqb quote_currency "NZD" then
      Py.round (10.00 * Py.dict_get DEFAULT_USD_RATES "NZDUSD" 0.58) 2
    else if String.eqb quote_currency "EUR" then
      Py.round (10.00 * Py.dict_get DEFAULT_USD_RATES "EURUSD" 1.08) 2
    else 10.00.

End ForexUtils.

(* ===================================================================== *)
(** ** app/utils/session_utils.py *)
(* ===================================================================== *)

Module SessionUtils.

(** *** [datetime]: the proleptic Gregorian calendar of Python *)

Record datetime := {
  year : Z; month : Z; day : Z;
  hour : Z; minute : Z; second : Z; microsecond : Z
}.

Definition mk_date (y m d : Z) : datetime :=
  {| year := y; month := m; day := d;
     hour := 0; minute := 0; second := 0; microsecond := 0 |}.

Definition is_leap (y : Z) : bool :=
  (y mod 4 =? 0) && (negb (y mod 100 =? 0) || (y mod 400 =? 0)).

Definition days_in_month (y m : Z) : Z :=
  if m =? 2 then (if is_leap y then 29 else 28)
  else if (m =? 4) || (m =? 6) || (m =? 9) || (m =? 11) then 30
  else 31.

Definition days_before_month_common (m : Z) : Z :=
  nth (Z.to_nat m) [0; 0; 31; 59; 90; 120; 151; 181; 212; 243; 273; 304; 334] 0.

Definition days_before_year (y : Z) : Z :=
  let y' := y - 1 in y' * 365 + y' / 4 - y' / 100 + y' / 400.

Definition days_before_month (y m : Z) : Z :=
  days_before_month_common m + (if (2 <? m) && is_leap y then 1 else 0).

(** [date.toordinal()]: 0001-01-01 is day 1. *)
Definition toordinal (d : datetime) : Z :=
  days_before_year (year d) + days_before_month (year d) (month d) + day d.

(** [date.weekday()]: Monday is 0, Sunday is 6. *)
Definition weekday (d : datetime) : Z := (toordinal d + 6) mod 7.

(** [date.fromordinal(n)] *)
Definition fromordinal (n0 : Z) : Z * Z * Z :=
  let n := n0 - 1 in
  let n400 := n / 146097 in let n := n mod 146097 in
  let n100 := n / 36524 in let n := n mod 36524 in
  let n4 := n / 1461 in let n := n mod 1461 in
  let n1 := n / 365 in let n := n mod 365 in
  let y := n400 * 400 + 1 + n100 * 100 + n4 * 4 + n1 in
  if (n1 =? 4) || (n100 =? 4) then (y - 1, 12, 31)
  else
    let leapyear := (n1 =? 3) && (negb (n4 =? 24) || (n100 =? 3)) in
    let m := Z.shiftr (n + 50) 5 in
    let preceding :=
      days_before_month_common m + (if (2 <? m) && leapyear then 1 else 0) in
    if n <? preceding then
      let m' := m - 1 in
      let dim := if m' =? 2 then (if leapyear then 29 else 28)
                 else days_in_month y m' in
      (y, m', n - (preceding - dim) + 1)
    else (y, m, n - preceding + 1).

(** [dt + timedelta(days=k)] *)
Definition add_days (d : datetime) (k : Z) : datetime :=
  let '(y, m, dd) := fromordinal (toordinal d + k) in
  {| year := y; month := m; day := dd;
     hour := hour d; minute := minute d; second := second d;
     microsecond := microsecond d |}.

(** [dt.replace(hour=0, minute=0, second=0, microsecond=0)] *)
Definition midnight (d : datetime) : datetime :=
  mk_date (year d) (month d) (day d).

Definition replace_hm (d : datetime) (h mi : Z) : datetime :=
  {| year := year d; month := month d; day := day d;
     hour := h; minute := mi; second := second d;
     microsecond := microsecond d |}.

(** Microseconds since the start of day 0 of the calendar; two UTC
    datetimes are ordered as their instants are. *)
Definition to_micros (d : datetime) : Z :=
  (((toordinal d * 24 + hour d) * 60 + minute d) * 60 + second d) * 1000000
  + microsecond d.

Fixpoint lex_compare (a b : list Z) : comparison :=
  match a, b with
  | x :: a', y :: b' =>
      match x ?= y with
      | Eq => lex_compare a' b'
      | c => c
      end
  | [], [] => Eq
  | [], _ :: _ => Lt
  | _ :: _, [] => Gt
  end.

Definition dt_gtb (a b : datetime) : bool := to_micros b <? to_micros a.
Definition dt_ltb (a b : datetime) : bool := to_micros a <? to_micros b.
Definition dt_leb (a b : datetime) : bool := to_micros a <=? to_micros b.
Definition dt_geb (a b : datetime) : bool := to_micros b <=? to_micros a.

#[global] Instance datetime_eq_dec : EqDecision datetime.
Proof. solve_decision. Defined.

(** *** The two [pytz] zones the module asks for

    [pytz] is not part of the repository; the model below is the rule
    set of the tz database in force since 2007: America/New_York is on
    daylight time (UTC-4) from the second Sunday of March, 02:00 local,
    to the first Sunday of November, 02:00 local, and on UTC-5
    otherwise; Europe/London is on summer time (UTC+1) from the last
    Sunday of March to the last Sunday of October, both at 01:00 UTC.
    [localize] is called with the default [is_dst=False], so a wall
    time that is skipped or repeated is read as standard time.

    These are the offsets of [pytz] for the years 2007 to 2037 only:
    before 2007 the zones followed other rules, and the tables of [pytz]
    hold no transition after 2037.  Statements that depend on the value
    of an offset are made for dates of these years. *)

Inductive Zone := Europe_London | America_New_York.

Definition first_sunday_on_or_after (y m d : Z) : Z :=
  d + (6 - weekday (mk_date y m d)) mod 7.

Definition last_sunday (y m : Z) : Z :=
  let dim := days_in_month y m in
  dim - (weekday (mk_date y m dim) + 1) mod 7.

(** Position of a wall-clock time inside its year. *)
Definition wall (m d h mi : Z) : list Z := [m; d; h; mi].

Definition wall_leb (a b : list Z) : bool :=
  match lex_compare a b with Gt => false | _ => true end.
Definition wall_ltb (a b : list Z) : bool :=
  match lex_compare a b with Lt => true | _ => false end.

Definition is_dst (z : Zone) (y m d h mi : Z) : bool :=
  match z with
  | America_New_York =>
      wall_leb (wall 3 (first_sunday_on_or_after y 3 8) 3 0) (wall m d h mi)
      && wall_ltb (wall m d h mi) (wall 11 (first_sunday_on_or_after y 11 1) 1 0)
  | Europe_London =>
      wall_leb (wall 3 (last_sunday y 3) 2 0) (wall m d h mi)
      && wall_ltb (wall m d h mi) (wall 10 (last_sunday y 10) 1 0)
  end.

(** Offset from UTC in minutes of the wall time [h:mi] on [y-m-d]. *)
Definition utcoffset (z : Zone) (y m d h mi : Z) : Z :=
  match z with
  | America_New_York => if is_dst z y m d h mi then -240 else -300
  | Europe_London => if is_dst z y m d h mi then 60 else 0
  end.

(** [tz.localize(datetime(y, m, d, h, mi)).astimezone(pytz.UTC)], of
    which the callers read [.hour] and [.minute]. *)
Definition localize_to_utc_hm (z : Zone) (y m d h mi : Z) : Z * Z :=
  let total := h * 60 + mi - utcoffset z y m d h mi in
  ((total / 60) mod 24, total mod 60).

Record SessionInfo := { si_hour : Z; si_minute : Z; si_name : string }.

Definition get_session_times_for_date (date_dt : datetime) : gmap string SessionInfo :=
  let base_date := midnight date_dt in
  let y := year base_date in
  let m := month base_date in
  let d := day base_date in
  let asian_open_hour := 1 in
  let asian_open_minute := 0 in
  let asian_close_hour := 9 in
  let asian_close_minute := 0 in
  let london_open := localize_to_utc_hm Europe_London y m d 8 0 in
  let london_close := localize_to_utc_hm Europe_London y m d 13 0 in
  let ny_open := localize_to_utc_hm America_New_York y m d 9 30 in
  let ny_close := localize_to_utc_hm America_New_York y m d 13 30 in
  list_to_map
    [ ("Asian_Open",
        {| si_hour := asian_open_hour; si_minute := asian_open_minute;
           si_name := "Asian Open" |});
      ("Asian_Close",
        {| si_hour := asian_close_hour; si_minute := asian_close_minute;
           si_name := "Asian Close" |});
      ("London_Open",
        {| si_hour := fst london_open; si_minute := snd london_open;
           si_name := "London Open" |});
      ("London_Close",
        {| si_hour := fst london_close; si_minute := snd london_close;
           si_name := "London Close" |});
      ("NY_Open",
        {| si_hour := fst ny_open; si_minute := snd ny_open;
           si_name := "NY Open" |});
      ("NY_Close",
        {| si_hour := fst ny_close; si_minute := snd ny_close;
           si_name := "NY Close" |}) ]%string.

End SessionUtils.

(* ===================================================================== *)
(** ** The PostgreSQL schema of the alembic migrations *)
(* ===================================================================== *)

Module Schema.

Import SessionUtils.

(** [CHECK (outcome IN ('WIN', 'LOSS', 'BREAKEVEN', 'TIMEOUT'))] *)
Inductive Outcome := WIN | LOSS | BREAKEVEN | TIMEOUT.

(** A row of [trades], keyed by its unique [trade_id]; the outcome
    columns are NULL until the trade is closed. *)
Record Trade := {
  t_trade_id : string;
  t_pair : string;
  t_session_name : string;
  t_session_datetime : datetime;
  t_prediction : string;
  t_conviction : Z;
  t_full_analysis : option string;
  t_entry_price : Q;
  t_spread_pips : Q;
  t_stop_loss : Q;
  t_take_profit : Q;
  t_sl_pips : Q;
  t_tp_pips : Q;
  t_lot_size : Q;
  t_risk_pct : Q;
  t_mfe_percentile : string;
  t_mae_percentile : string;
  t_created_at : datetime;
  t_exit_price : option Q;
  t_outcome : option Outcome;
  t_pnl_pips : option Q;
  t_pnl_dollars : option Q;
  t_commission : option Q;
  t_verified_at : option datetime
}.

(** *** [DECIMAL] columns

    PostgreSQL rounds a value assigned to a [DECIMAL(p, s)] column to
    [s] decimals, ties away from zero. *)
Definition round_half_away (x : Q) : Z :=
  if Qle_bool 0 x then Qfloor (x + (1 # 2)) else - Qfloor ((1 # 2) - x).

(** The number of units of [10 ^ -s] stored for [x], and the value of a
    stored number of units. *)
Definition to_decimal (s : nat) (x : Q) : Z :=
  round_half_away (x * inject_Z (10 ^ Z.of_nat s)).

Definition of_decimal (s : nat) (n : Z) : Q :=
  (inject_Z n / inject_Z (10 ^ Z.of_nat s))%Q.

(** What a [DECIMAL(p, s)] column reads back after [x] was assigned. *)
Definition DECIMAL (s : nat) (x : Q) : Q := of_decimal s (to_decimal s x).

(** The row of [account] that [ORDER BY id LIMIT 1] selects.  The four
    [DECIMAL(_, 2)] columns are kept in hundredths. *)
Record Account := {
  a_id : Z;
  balance_hundredths : Z;
  initial_balance_hundredths : Z;
  total_trades : Z;
  winning_trades : Z;
  losing_trades : Z;
  peak_balance_hundredths : Z;
  max_drawdown_pct_hundredths : Z;
  last_updated : datetime
}.

(** The columns as [SELECT] returns them. *)
Definition balance (a : Account) : Q := of_decimal 2 (balance_hundredths a).
Definition initial_balance (a : Account) : Q :=
  of_decimal 2 (initial_balance_hundredths a).
Definition peak_balance (a : Account) : Q :=
  of_decimal 2 (peak_balance_hundredths a).
Definition max_drawdown_pct (a : Account) : Q :=
  of_decimal 2 (max_drawdown_pct_hundredths a).

(** A row of [rolling_window] after migration 002. *)
Record RollingRow := {
  rw_pair : string;
  rw_session_name : string;
  rw_session_datetime : datetime;
  rw_prediction : string;
  rw_correct : bool;
  rw_mfe_pips : Q;
  rw_mae_pips : Q;
  rw_model : string;
  rw_mfe_first : option bool;
  rw_time_to_mfe_minutes : option Z;
  rw_time_to_mae_minutes : option Z;
  rw_in_window : bool
}.

(** A row of the materialized view [percentile_targets]. *)
Record PercentileRow := {
  pr_pair : string;
  pr_session_name : string;
  pr_model : string;
  pr_sample_count : Z;
  pr_mfe_p25 : Q; pr_mfe_p50 : Q; pr_mfe_p75 : Q;
  pr_mae_p25 : Q; pr_mae_p50 : Q; pr_mae_p75 : Q;
  pr_accuracy_pct : Q;
  pr_updated_at : datetime
}.

Record Database := {
  trades : gmap string Trade;
  account : option Account;
  rolling_window : list RollingRow;
  percentile_targets : list PercentileRow
}.

Definition set_trades (db : Database) (ts : gmap string Trade) : Database :=
  {| trades := ts; account := account db;
     rolling_window := rolling_window db;
     percentile_targets := percentile_targets db |}.

Definition set_account (db : Database) (a : option Account) : Database :=
  {| trades := trades db; account := a;
     rolling_window := rolling_window db;
     percentile_targets := percentile_targets db |}.

Definition set_rolling_window (db : Database) (rw : list RollingRow) : Database :=
  {| trades := trades db; account := account db;
     rolling_window := rw;
     percentile_targets := percentile_targets db |}.

Definition set_percentile_targets (db : Database) (pt : list PercentileRow) : Database :=
  {| trades := trades db; account := account db;
     rolling_window := rolling_window db;
     percentile_targets := pt |}.

Definition empty_db : Database :=
  {| trades := ∅; account := None; rolling_window := []; percentile_targets := [] |}.

End Schema.

(* ===================================================================== *)
(** ** app/services/risk_engine.py *)
(* ===================================================================== *)

Module RiskEngine.

Import Schema.
Local Open Scope Q_scope.

Record PercentileTargets := {
  pt_pair : string;
  pt_session_name : string;
  sample_count : Z;
  accuracy_pct : Q;
  mfe_p25 : Q; mfe_p50 : Q; mfe_p75 : Q;
  mae_p25 : Q; mae_p50 : Q; mae_p75 : Q
}.

Record RiskParameters := {
  pair : string;
  session_name : string;
  direction : string;
  entry_price : Q;
  take_profit : Q;
  stop_loss : Q;
  tp_pips : Q;
  sl_pips : Q;
  lot_size : Q;
  risk_dollars : Q;
  spread_pips : Q;
  percentile_source : string
}.

(** [float(v) if v else 0.0] *)
Definition float_or_zero (v : Q) : Q := if Qeq_bool v 0 then 0.0 else v.

(** [fetchrow] of the query [WHERE pair = $1 AND session_name = $2]:
    the first matching row of the view, if any.  The query has no
    [ORDER BY] and does not name a model: when the view holds rows of
    several models for the pair and session, PostgreSQL may return any of
    them, and the model returns the first of the list. *)
Definition get_percentiles (db : Database) (pair session_name : string)
  : option PercentileTargets :=
  match
    List.find (fun r => String.eqb (pr_pair r) pair
                        && String.eqb (pr_session_name r) session_name)
              (percentile_targets db)
  with
  | None => None
  | Some row =>
      Some {| pt_pair := pr_pair row;
              pt_session_name := pr_session_name row;
              sample_count := pr_sample_count row;
              accuracy_pct := float_or_zero (pr_accuracy_pct row);
              mfe_p25 := float_or_zero (pr_mfe_p25 row);
              mfe_p50 := float_or_zero (pr_mfe_p50 row);
              mfe_p75 := float_or_zero (pr_mfe_p75 row);
              mae_p25 := float_or_zero (pr_mae_p25 row);
              mae_p50 := float_or_zero (pr_mae_p50 row);
              mae_p75 := float_or_zero (pr_mae_p75 row) |}
  end.

(** [getattr(targets, f"{stat_type.lower()}_{percentile.lower()}", 0.0)] *)
Definition get_percentile_value (targets : PercentileTargets)
    (stat_type percentile : string) : Q :=
  let attr_name := (Py.lower stat_type ++ "_" ++ Py.lower percentile)%string in
  if String.eqb attr_name "mfe_p25" then mfe_p25 targets
  else if String.eqb attr_name "mfe_p50" then mfe_p50 targets
  else if String.eqb attr_name "mfe_p75" then mfe_p75 targets
  else if String.eqb attr_name "mae_p25" then mae_p25 targets
  else if String.eqb attr_name "mae_p50" then mae_p50 targets
  else if String.eqb attr_name "mae_p75" then mae_p75 targets
  else 0.0.

Section WithSettings.

Variable settings : Config.Settings.

Definition calculate_tp_sl (entry_price : Q) (direction pair : string)
    (targets : PercentileTargets)
    (tp_percentile sl_percentile : option string) : Q * Q * Q * Q :=
  let tp_percentile :=
    match tp_percentile with
    | None => Config.tp_percentile settings
    | Some p => p
    end in
  let sl_percentile :=
    match sl_percentile with
    | None => Config.sl_percentile settings
    | Some p => p
    end in
  let pip_value := ForexUtils.get_pip_value pair in
  let tp_pips := get_percentile_value targets "mfe" tp_percentile in
  let sl_pips := get_percentile_value targets "mae" sl_percentile in
  let tp_pips := Py.Qmax tp_pips 5.0 in
  let sl_pips := Py.Qmax sl_pips 5.0 in
  if String.eqb direction "BULLISH" then
    (entry_price + tp_pips * pip_value, entry_price - sl_pips * pip_value,
     tp_pips, sl_pips)
  else
    (entry_price - tp_pips * pip_value, entry_price + sl_pips * pip_value,
     tp_pips, sl_pips).

Definition calculate_position_size (balance sl_pips : Q) (pair : string)
    (risk_percent : option Q) : Q * Q :=
  let risk_percent :=
    match risk_percent with
    | None => Config.risk_percent settings
    | Some r => r
    end in
  let risk_dollars := balance * (risk_percent / 100) in
  let pip_value_per_lot :=
    if Py.contains "JPY" pair then 9.0
    else if Py.contains "XAU" pair || Py.contains "XAG" pair then 10.0
    else 10.0 in
  let sl_pips := if Qle_bool sl_pips 0 then 10.0 else sl_pips in
  let lot_size := risk_dollars / (sl_pips * pip_value_per_lot) in
  let lot_size := Py.Qmax (Config.min_lot_size settings) lot_size in
  let lot_size := Py.Qmin (Config.max_lot_size settings) lot_size in
  let lot_size := Py.round lot_size 2 in
  (lot_size, risk_dollars).

Definition calculate_risk_parameters (db : Database)
    (pair session_name direction : string) (entry_price balance : Q)
  : option RiskParameters :=
  match get_percentiles db pair session_name with
  | None => None
  | Some targets =>
      if sample_count targets <? 30 then None
      else
        let '(take_profit, stop_loss, tp_pips, sl_pips) :=
          calculate_tp_sl entry_price direction pair targets None None in
        let '(lot_size, risk_dollars) :=
          calculate_position_size balance sl_pips pair None in
        let spread_pips :=
          Py.dict_get Config.ECN_SPREADS pair
                      (Config.default_spread_pips settings) in
        Some {| pair := pair;
                session_name := session_name;
                direction := direction;
                entry_price := entry_price;
                take_profit := take_profit;
                stop_loss := stop_loss;
                tp_pips := tp_pips;
                sl_pips := sl_pips;
                lot_size := lot_size;
                risk_dollars := risk_dollars;
                spread_pips := spread_pips;
                percentile_source :=
                  (Config.tp_percentile settings ++ "/"
                   ++ Config.sl_percentile settings)%string |}
  end.

End WithSettings.

End RiskEngine.

(* ===================================================================== *)
(** ** app/services/trade_executor.py *)
(* ===================================================================== *)

Module TradeExecutor.

Import SessionUtils Schema.
Local Open Scope Q_scope.

Record TradeEntry := {
  te_trade_id : string;
  te_pair : string;
  te_session_name : string;
  te_session_datetime : datetime;
  te_prediction : string;
  te_conviction : Z;
  te_full_analysis : option string;
  te_entry_price : Q;
  te_spread_pips : Q;
  te_stop_loss : Q;
  te_take_profit : Q;
  te_sl_pips : Q;
  te_tp_pips : Q;
  te_lot_size : Q;
  te_risk_pct : Q;
  te_mfe_percentile : string;
  te_mae_percentile : string
}.

Record TradeExit := {
  tx_trade_id : string;
  tx_exit_price : Q;
  tx_outcome : Outcome;
  tx_pnl_pips : Q;
  tx_pnl_dollars : Q;
  tx_commission : Q;
  tx_slippage_pips : Q
}.

Definition calculate_entry_slippage (pair : string) : Q :=
  Py.dict_get Config.SLIPPAGE "entry" 0.2.

Definition calculate_exit_slippage (is_stop : bool) : Q :=
  if is_stop then Py.dict_get Config.SLIPPAGE "exit_sl" 0.5
  else Py.dict_get Config.SLIPPAGE "exit_tp" 0.1.

Section WithSettings.

Variable settings : Config.Settings.

Definition calculate_commission (lot_size : Q) : Q :=
  let commission_per_lot := Config.commission_per_lot settings * 2 in
  lot_size * commission_per_lot.

(** [open_trade]; [trade_id] is the value of [uuid.uuid4()] and [now]
    the value of [datetime.now(timezone.utc)].  The INSERT adds the
    row under its (fresh) [trade_id]; it is modelled where it succeeds,
    that is for a prediction and a conviction that pass the CHECK
    constraints of [trades]. *)
Definition open_trade (db : Database) (risk_params : RiskEngine.RiskParameters)
    (prediction : string) (conviction : Z) (session_datetime : datetime)
    (full_analysis : option string) (trade_id : string) (now : datetime)
  : Database * TradeEntry :=
  let pip_value := ForexUtils.get_pip_value (RiskEngine.pair risk_params) in
  let spread_adjustment := RiskEngine.spread_pips risk_params * pip_value in
  let adjusted_entry :=
    if String.eqb prediction "BULLISH"
    then RiskEngine.entry_price risk_params + spread_adjustment
    else RiskEngine.entry_price risk_params - spread_adjustment in
  let row :=
    {| t_trade_id := trade_id;
       t_pair := RiskEngine.pair risk_params;
       t_session_name := RiskEngine.session_name risk_params;
       t_session_datetime := session_datetime;
       t_prediction := prediction;
       t_conviction := conviction;
       t_full_analysis := full_analysis;
       t_entry_price := adjusted_entry;
       t_spread_pips := RiskEngine.spread_pips risk_params;
       t_stop_loss := RiskEngine.stop_loss risk_params;
       t_take_profit := RiskEngine.take_profit risk_params;
       t_sl_pips := RiskEngine.sl_pips risk_params;
       t_tp_pips := RiskEngine.tp_pips risk_params;
       t_lot_size := RiskEngine.lot_size risk_params;
       t_risk_pct := Config.risk_percent settings;
       t_mfe_percentile := Config.tp_percentile settings;
       t_mae_percentile := Config.sl_percentile settings;
       t_created_at := now;
       t_exit_price := None;
       t_outcome := None;
       t_pnl_pips := None;
       t_pnl_dollars := None;
       t_commission := None;
       t_verified_at := None |} in
  (set_trades db (<[trade_id := row]> (trades db)),
   {| te_trade_id := trade_id;
      te_pair := RiskEngine.pair risk_params;
      te_session_name := RiskEngine.session_name risk_params;
      te_session_datetime := session_datetime;
      te_prediction := prediction;
      te_conviction := conviction;
      te_full_analysis := full_analysis;
      te_entry_price := adjusted_entry;
      te_spread_pips := RiskEngine.spread_pips risk_params;
      te_stop_loss := RiskEngine.stop_loss risk_params;
      te_take_profit := RiskEngine.take_profit risk_params;
      te_sl_pips := RiskEngine.sl_pips risk_params;
      te_tp_pips := RiskEngine.tp_pips risk_params;
      te_lot_size := RiskEngine.lot_size risk_params;
      te_risk_pct := Config.risk_percent settings;
      te_mfe_percentile := Config.tp_percentile settings;
      te_mae_percentile := Config.sl_percentile settings |}).

(** The row that [update_account_balance] inserts when the table is
    empty; [max_drawdown_pct] takes its column default 0.00. *)
Definition initial_account (now : datetime) : Account :=
  {| a_id := 1;
     balance_hundredths := to_decimal 2 (Config.starting_balance settings);
     initial_balance_hundredths :=
       to_decimal 2 (Config.starting_balance settings);
     total_trades := 0;
     winning_trades := 0;
     losing_trades := 0;
     peak_balance_hundredths :=
       to_decimal 2 (Config.starting_balance settings);
     max_drawdown_pct_hundredths := 0;
     last_updated := now |}.

(** [update_account_balance]; the UPDATE assigns the new balance, peak
    and maximal drawdown to their [DECIMAL(_, 2)] columns. *)
Definition update_account_balance (db : Database) (pnl : Q)
    (outcome : Outcome) (now : datetime) : Database :=
  let account :=
    match account db with
    | Some a => a
    | None => initial_account now
    end in
  let current_balance := balance account in
  let new_balance := current_balance + pnl in
  let total_trades' := (total_trades account + 1)%Z in
  let winning_trades' :=
    (winning_trades account
     + (match outcome with WIN => 1 | _ => 0 end))%Z in
  let losing_trades' :=
    (losing_trades account
     + (match outcome with LOSS => 1 | _ => 0 end))%Z in
  let peak_balance' := Py.Qmax (peak_balance account) new_balance in
  let drawdown_pct :=
    if Py.Qgtb peak_balance' 0
    then ((peak_balance' - new_balance) / peak_balance') * 100
    else 0 in
  let max_drawdown := Py.Qmax (max_drawdown_pct account) drawdown_pct in
  set_account db
    (Some {| a_id := a_id account;
             balance_hundredths := to_decimal 2 new_balance;
             initial_balance_hundredths := initial_balance_hundredths account;
             total_trades := total_trades';
             winning_trades := winning_trades';
             losing_trades := losing_trades';
             peak_balance_hundredths := to_decimal 2 peak_balance';
             max_drawdown_pct_hundredths := to_decimal 2 max_drawdown;
             last_updated := now |}).

(** The arithmetic of [close_trade] between the SELECT and the
    UPDATE: slippage, P/L in pips, commission and net P/L in dollars,
    all before rounding. *)
Record ExitFigures := {
  slippage_pips : Q;
  pnl_pips : Q;
  commission : Q;
  net_pnl_dollars : Q
}.

Definition exit_figures (trade : Trade) (exit_price : Q) (is_stop_exit : bool)
  : ExitFigures :=
  let pair := t_pair trade in
  let entry_price := t_entry_price trade in
  let prediction := t_prediction trade in
  let lot_size := t_lot_size trade in
  let slippage_pips := calculate_exit_slippage is_stop_exit in
  let pip_value := ForexUtils.get_pip_value pair in
  let pnl_pips :=
    if String.eqb prediction "BULLISH"
    then (exit_price - entry_price) / pip_value - slippage_pips
    else (entry_price - exit_price) / pip_value - slippage_pips in
  let pip_value_usd := ForexUtils.get_pip_value_in_usd pair in
  let pnl_dollars := pnl_pips * pip_value_usd * lot_size in
  let commission := calculate_commission lot_size in
  {| slippage_pips := slippage_pips;
     pnl_pips := pnl_pips;
     commission := commission;
     net_pnl_dollars := pnl_dollars - commission |}.

Definition close_trade (db : Database) (trade_id : string) (exit_price : Q)
    (outcome : Outcome) (is_stop_exit : bool) (now : datetime)
  : Database * option TradeExit :=
  match trades db !! trade_id with
  | None => (db, None)
  | Some trade =>
      let f := exit_figures trade exit_price is_stop_exit in
      let trade' :=
        {| t_trade_id := t_trade_id trade;
           t_pair := t_pair trade;
           t_session_name := t_session_name trade;
           t_session_datetime := t_session_datetime trade;
           t_prediction := t_prediction trade;
           t_conviction := t_conviction trade;
           t_full_analysis := t_full_analysis trade;
           t_entry_price := t_entry_price trade;
           t_spread_pips := t_spread_pips trade;
           t_stop_loss := t_stop_loss trade;
           t_take_profit := t_take_profit trade;
           t_sl_pips := t_sl_pips trade;
           t_tp_pips := t_tp_pips trade;
           t_lot_size := t_lot_size trade;
           t_risk_pct := t_risk_pct trade;
           t_mfe_percentile := t_mfe_percentile trade;
           t_mae_percentile := t_mae_percentile trade;
           t_created_at := t_created_at trade;
           t_exit_price := Some exit_price;
           t_outcome := Some outcome;
           t_pnl_pips := Some (Py.round (pnl_pips f) 1);
           t_pnl_dollars := Some (Py.round (net_pnl_dollars f) 2);
           t_commission := Some (Py.round (commission f) 2);
           t_verified_at := Some now |} in
      let db1 := set_trades db (<[trade_id := trade']> (trades db)) in
      let db2 := update_account_balance db1 (net_pnl_dollars f) outcome now in
      (db2,
       Some {| tx_trade_id := trade_id;
               tx_exit_price := exit_price;
               tx_outcome := outcome;
               tx_pnl_pips := Py.round (pnl_pips f) 1;
               tx_pnl_dollars := Py.round (net_pnl_dollars f) 2;
               tx_commission := Py.round (commission f) 2;
               tx_slippage_pips := slippage_pips f |})
  end.

End WithSettings.

(** *** The rolling window and its materialized view *)

(** Modelled from the spec: the column [in_window] of [rolling_window]
    is read and written by [cleanup_old_rolling_data] but declared by
    neither migration under [alembic/versions]; the spec gives an
    excursion record the attribute [in_window : bool], false on the
    rows older than 6 months, so a row starts inside the window. *)
Definition in_window_default : bool := true.

(** [ON CONFLICT (pair, session_name, session_datetime, model)] *)
Definition conflicts (a b : RollingRow) : bool :=
  String.eqb (rw_pair a) (rw_pair b)
  && String.eqb (rw_session_name a) (rw_session_name b)
  && bool_decide (rw_session_datetime a = rw_session_datetime b)
  && String.eqb (rw_model a) (rw_model b).

(** [DO UPDATE SET correct = EXCLUDED.correct, ...] on the stored row. *)
Definition do_update (stored excluded : RollingRow) : RollingRow :=
  {| rw_pair := rw_pair stored;
     rw_session_name := rw_session_name stored;
     rw_session_datetime := rw_session_datetime stored;
     rw_prediction := rw_prediction stored;
     rw_correct := rw_correct excluded;
     rw_mfe_pips := rw_mfe_pips excluded;
     rw_mae_pips := rw_mae_pips excluded;
     rw_model := rw_model stored;
     rw_mfe_first := rw_mfe_first excluded;
     rw_time_to_mfe_minutes := rw_time_to_mfe_minutes excluded;
     rw_time_to_mae_minutes := rw_time_to_mae_minutes excluded;
     rw_in_window := rw_in_window stored |}.

Fixpoint upsert (new : RollingRow) (rows : list RollingRow) : list RollingRow :=
  match rows with
  | [] => [new]
  | r :: rows' =>
      if conflicts r new then do_update r new :: rows'
      else r :: upsert new rows'
  end.

Definition add_to_rolling_window (db : Database)
    (pair session_name : string) (session_datetime : datetime)
    (prediction : string) (correct : bool) (mfe_pips mae_pips : Q)
    (model : string) (mfe_first : option bool)
    (time_to_mfe_minutes time_to_mae_minutes : option Z) : Database :=
  let new :=
    {| rw_pair := pair;
       rw_session_name := session_name;
       rw_session_datetime := session_datetime;
       rw_prediction := prediction;
       rw_correct := correct;
       rw_mfe_pips := mfe_pips;
       rw_mae_pips := mae_pips;
       rw_model := model;
       rw_mfe_first := mfe_first;
       rw_time_to_mfe_minutes := time_to_mfe_minutes;
       rw_time_to_mae_minutes := time_to_mae_minutes;
       rw_in_window := in_window_default |} in
  set_rolling_window db (upsert new (rolling_window db)).

(** [ORDER BY] of an aggregate: insertion sort on the values. *)
Fixpoint insert_sorted (x : Q) (l : list Q) : list Q :=
  match l with
  | [] => [x]
  | y :: l' => if Qle_bool x y then x :: l else y :: insert_sorted x l'
  end.

Definition sort_values (l : list Q) : list Q :=
  fold_right insert_sorted [] l.

(** [PERCENTILE_CONT(p) WITHIN GROUP (ORDER BY v)]: linear interpolation
    between the two ranks around [p * (N - 1)]. *)
Definition percentile_cont (p : Q) (values : list Q) : Q :=
  let sorted := sort_values values in
  let rn := p * inject_Z (Z.of_nat (length sorted) - 1) in
  let lo := Qfloor rn in
  let hi := Qceiling rn in
  let v_lo := nth (Z.to_nat lo) sorted 0 in
  let v_hi := nth (Z.to_nat hi) sorted 0 in
  v_lo + (rn - inject_Z lo) * (v_hi - v_lo).

(** [GROUP BY pair, session_name, model] *)
Definition group_key (r : RollingRow) : string * string * string :=
  (rw_pair r, rw_session_name r, rw_model r).

Definition in_group (k : string * string * string) (r : RollingRow) : bool :=
  bool_decide (group_key r = k).

Definition aggregate (now : datetime) (k : string * string * string)
    (group : list RollingRow) : PercentileRow :=
  let mfe := map rw_mfe_pips group in
  let mae := map rw_mae_pips group in
  let n := Z.of_nat (length group) in
  {| pr_pair := k.1.1;
     pr_session_name := k.1.2;
     pr_model := k.2;
     pr_sample_count := n;
     pr_mfe_p25 := percentile_cont 0.25 mfe;
     pr_mfe_p50 := percentile_cont 0.50 mfe;
     pr_mfe_p75 := percentile_cont 0.75 mfe;
     pr_mae_p25 := percentile_cont 0.25 mae;
     pr_mae_p50 := percentile_cont 0.50 mae;
     pr_mae_p75 := percentile_cont 0.75 mae;
     pr_accuracy_pct :=
       inject_Z (Z.of_nat (length (List.filter rw_correct group)))
       / inject_Z n * 100;
     pr_updated_at := now |}.

(** The statements below evaluate [NOW() - INTERVAL '6 months'] inside
    PostgreSQL; its value at the time of the statement is the argument
    [six_months_ago] of the functions that run them. *)

(** [t - INTERVAL 'n months'] as PostgreSQL computes it (session time
    zone UTC): the month goes back [n] months, a day past the end of
    that month becomes its last day, and the time of day is kept. *)
Definition minus_months (t : datetime) (n : Z) : datetime :=
  let months := (year t * 12 + (month t - 1) - n)%Z in
  let y := (months / 12)%Z in
  let m := (months mod 12 + 1)%Z in
  {| year := y; month := m;
     day := Z.min (day t) (days_in_month y m);
     hour := hour t; minute := minute t; second := second t;
     microsecond := microsecond t |}.

(** The value of [NOW() - INTERVAL '6 months'] when [NOW()] is [now]. *)
Definition six_months_before (now : datetime) : datetime := minus_months now 6.

(** [WHERE session_datetime >= NOW() - INTERVAL '6 months'] *)
Definition view_where (six_months_ago : datetime) (r : RollingRow) : bool :=
  dt_geb (rw_session_datetime r) six_months_ago.

(** The query of [CREATE MATERIALIZED VIEW percentile_targets]
    (migration 002), evaluated at [now]. *)
Definition percentile_targets_query (now six_months_ago : datetime)
    (rows : list RollingRow) : list PercentileRow :=
  let selected := List.filter (view_where six_months_ago) rows in
  map (fun k => aggregate now k (List.filter (in_group k) selected))
      (remove_dups (map group_key selected)).

(** [REFRESH MATERIALIZED VIEW CONCURRENTLY percentile_targets] *)
Definition refresh_percentiles (db : Database) (now six_months_ago : datetime)
  : Database :=
  set_percentile_targets db
    (percentile_targets_query now six_months_ago (rolling_window db)).

(** The rows the UPDATE of [cleanup_old_rolling_data] selects. *)
Definition cleanup_where (six_months_ago : datetime) (r : RollingRow) : bool :=
  rw_in_window r && dt_ltb (rw_session_datetime r) six_months_ago.

Definition set_in_window (r : RollingRow) (b : bool) : RollingRow :=
  {| rw_pair := rw_pair r;
     rw_session_name := rw_session_name r;
     rw_session_datetime := rw_session_datetime r;
     rw_prediction := rw_prediction r;
     rw_correct := rw_correct r;
     rw_mfe_pips := rw_mfe_pips r;
     rw_mae_pips := rw_mae_pips r;
     rw_model := rw_model r;
     rw_mfe_first := rw_mfe_first r;
     rw_time_to_mfe_minutes := rw_time_to_mfe_minutes r;
     rw_time_to_mae_minutes := rw_time_to_mae_minutes r;
     rw_in_window := b |}.

(** [cleanup_old_rolling_data]: the table afterwards and the number of
    rows the UPDATE reports. *)
Definition cleanup_old_rolling_data (db : Database) (six_months_ago : datetime)
  : Database * Z :=
  (set_rolling_window db
     (map (fun r => if cleanup_where six_months_ago r
                    then set_in_window r false else r)
          (rolling_window db)),
   Z.of_nat (length (List.filter (cleanup_where six_months_ago)
                                 (rolling_window db)))).


End TradeExecutor.

(* ===================================================================== *)
(** ** scripts/import_baseline.py *)
(* ===================================================================== *)

Module ImportBaseline.

Import SessionUtils Schema.
Local Open Scope Q_scope.

(** One tuple of [records]: the ten columns the COPY names. *)
Record BaselineRecord := {
  br_pair : string;
  br_session_name : string;
  br_session_datetime : datetime;
  br_prediction : string;
  br_correct : bool;
  br_mfe_pips : Q;
  br_mae_pips : Q;
  br_mfe_first : option bool;
  br_time_to_mfe_minutes : option Z;
  br_time_to_mae_minutes : option Z
}.

(** The row COPY stores: the excursions are rounded to their
    [DECIMAL(6, 1)] columns, [model] and [in_window] take their column
    defaults. *)
Definition copied_row (rec : BaselineRecord) : RollingRow :=
  {| rw_pair := br_pair rec;
     rw_session_name := br_session_name rec;
     rw_session_datetime := br_session_datetime rec;
     rw_prediction := br_prediction rec;
     rw_correct := br_correct rec;
     rw_mfe_pips := DECIMAL 1 (br_mfe_pips rec);
     rw_mae_pips := DECIMAL 1 (br_mae_pips rec);
     rw_model := "claude_haiku_45";
     rw_mfe_first := br_mfe_first rec;
     rw_time_to_mfe_minutes := br_time_to_mfe_minutes rec;
     rw_time_to_mae_minutes := br_time_to_mae_minutes rec;
     rw_in_window := TradeExecutor.in_window_default |}.

(** The unique constraint of [rolling_window] holds of the rows. *)
Fixpoint unique_keys (rows : list RollingRow) : bool :=
  match rows with
  | [] => true
  | r :: rows' =>
      negb (existsb (TradeExecutor.conflicts r) rows') && unique_keys rows'
  end.

(** [import_baseline]: DELETE, COPY, REFRESH.  When COPY violates the
    unique constraint it raises after the DELETE was committed: the
    table is left empty and the view is not refreshed ([None] for the
    statistics). *)
Definition import_baseline (db : Database) (records : list BaselineRecord)
    (now six_months_ago : datetime) : Database * option (Z * Z) :=
  let cleared := set_rolling_window db [] in
  let rows := map copied_row records in
  if unique_keys rows then
    let db' :=
      set_percentile_targets (set_rolling_window cleared rows)
        (TradeExecutor.percentile_targets_query now six_months_ago rows) in
    (db', Some (Z.of_nat (length records),
                Z.of_nat (length (percentile_targets db'))))
  else (cleared, None).

End ImportBaseline.

(* ===================================================================== *)
(** ** app/services/price_stream.py *)
(* ===================================================================== *)

Module PriceStream.

Import SessionUtils.
Local Open Scope Q_scope.

Record Quote := {
  q_pair : string;
  bid : Q;
  ask : Q;
  timestamp : datetime
}.

Definition mid (q : Quote) : Q := (bid q + ask q) / 2.

Definition quote_spread_pips (q : Quote) : Q :=
  let diff := ask q - bid q in
  if Py.contains "JPY" (q_pair q) then diff * 100
  else if Py.contains "XAU" (q_pair q) then diff
  else if Py.contains "XAG" (q_pair q) then diff * 100
  else diff * 10000.

(** The two values [trigger_type] takes, ['TP'] and ['SL']. *)
Inductive TriggerType := TP | SL.

Record PriceAlert := {
  trade_id : string;
  pair : string;
  direction : string;
  entry_price : Q;
  take_profit : Q;
  stop_loss : Q;
  triggered : bool;
  trigger_type : option TriggerType;
  trigger_price : option Q;
  trigger_time : option datetime
}.

Inductive WsState := OPEN | CLOSED.

(** The state of the [asyncio.Task] running [_receive_loop]. *)
Inductive TaskState := TaskRunning | TaskCancelled.

(** The attributes of a [PriceStream] object.  [_alerts] is a [dict]
    walked in insertion order, kept here as an association list;
    [on_alert] records whether a callback is installed, the alerts
    handed to it are an output of [_check_alerts]. *)
Record Stream := {
  api_key : string;
  on_alert : bool;
  _ws : option WsState;
  _quotes : gmap string Quote;
  _alerts : list (string * PriceAlert);
  _subscribed_pairs : gset string;
  _running : bool;
  _recv_task : option TaskState;
  _connected : bool
}.

Definition __init__ (api_key : string) (on_alert : bool) : Stream :=
  {| api_key := api_key; on_alert := on_alert; _ws := None;
     _quotes := ∅; _alerts := []; _subscribed_pairs := ∅;
     _running := false; _recv_task := None; _connected := false |}.

Definition is_connected (s : Stream) : bool :=
  match _ws s with
  | Some OPEN => true
  | _ => false
  end.

Definition get_quote (s : Stream) (pair : string) : option Quote :=
  _quotes s !! pair.

Definition get_price (s : Stream) (pair : string) : option Q :=
  mid <$> _quotes s !! pair.

(** What the server answers during [connect]. *)
Inductive Handshake :=
| ConnectRaises          (* websockets.connect raised: no socket is kept *)
| HelloRefused           (* first frame is not status connected *)
| AuthRefused            (* answer to auth is not auth_success *)
| AuthSuccess.

Definition connect (s : Stream) (h : Handshake) : Stream * bool :=
  match h with
  | ConnectRaises => (s, false)
  | HelloRefused | AuthRefused =>
      ({| api_key := api_key s; on_alert := on_alert s; _ws := Some OPEN;
          _quotes := _quotes s; _alerts := _alerts s;
          _subscribed_pairs := _subscribed_pairs s;
          _running := _running s; _recv_task := _recv_task s;
          _connected := _connected s |}, false)
  | AuthSuccess =>
      ({| api_key := api_key s; on_alert := on_alert s; _ws := Some OPEN;
          _quotes := _quotes s; _alerts := _alerts s;
          _subscribed_pairs := _subscribed_pairs s;
          _running := true; _recv_task := Some TaskRunning;
          _connected := true |}, true)
  end.

Definition disconnect (s : Stream) : Stream :=
  {| api_key := api_key s;
     on_alert := on_alert s;
     _ws := None;
     _quotes := ∅;
     _alerts := _alerts s;
     _subscribed_pairs := ∅;
     _running := false;
     _recv_task :=
       match _recv_task s with
       | Some _ => Some TaskCancelled
       | None => None
       end;
     _connected := false |}.

Definition set_subscribed (s : Stream) (ps : gset string) : Stream :=
  {| api_key := api_key s; on_alert := on_alert s; _ws := _ws s;
     _quotes := _quotes s; _alerts := _alerts s;
     _subscribed_pairs := ps;
     _running := _running s; _recv_task := _recv_task s;
     _connected := _connected s |}.

Definition set_alerts (s : Stream) (al : list (string * PriceAlert)) : Stream :=
  {| api_key := api_key s; on_alert := on_alert s; _ws := _ws s;
     _quotes := _quotes s; _alerts := al;
     _subscribed_pairs := _subscribed_pairs s;
     _running := _running s; _recv_task := _recv_task s;
     _connected := _connected s |}.

Definition set_quotes (s : Stream) (qs : gmap string Quote) : Stream :=
  {| api_key := api_key s; on_alert := on_alert s; _ws := _ws s;
     _quotes := qs; _alerts := _alerts s;
     _subscribed_pairs := _subscribed_pairs s;
     _running := _running s; _recv_task := _recv_task s;
     _connected := _connected s |}.

Definition subscribe (s : Stream) (pairs : list string) : Stream :=
  if negb (is_connected s) then s
  else
    set_subscribed s
      (fold_left (fun acc pair =>
                    if bool_decide (pair ∈ acc) then acc else acc ∪ {[pair]})
                 pairs (_subscribed_pairs s)).

Definition unsubscribe (s : Stream) (pairs : list string) : Stream :=
  if negb (is_connected s) then s
  else
    set_subscribed s
      (fold_left (fun acc pair =>
                    if bool_decide (pair ∈ acc) then acc ∖ {[pair]} else acc)
                 pairs (_subscribed_pairs s)).

(** [d[k] = v] on an insertion-ordered dict. *)
Fixpoint dict_set {V : Type} (k : string) (v : V) (d : list (string * V))
  : list (string * V) :=
  match d with
  | [] => [(k, v)]
  | (k', v') :: d' =>
      if String.eqb k' k then (k, v) :: d' else (k', v') :: dict_set k v d'
  end.

Definition dict_del {V : Type} (k : string) (d : list (string * V))
  : list (string * V) :=
  List.filter (fun kv => negb (String.eqb (fst kv) k)) d.

Fixpoint dict_lookup {V : Type} (k : string) (d : list (string * V)) : option V :=
  match d with
  | [] => None
  | (k', v) :: d' => if String.eqb k' k then Some v else dict_lookup k d'
  end.

Definition add_alert (s : Stream) (alert : PriceAlert) : Stream :=
  set_alerts s (dict_set (trade_id alert) alert (_alerts s)).

Definition remove_alert (s : Stream) (trade_id : string) : Stream :=
  set_alerts s (dict_del trade_id (_alerts s)).

Definition get_alert (s : Stream) (trade_id : string) : option PriceAlert :=
  dict_lookup trade_id (_alerts s).

(** The decision inside the loop of [_check_alerts] for an alert that
    passed the guard: which trigger, if any, the price [price] hits. *)
Definition trigger_for (alert : PriceAlert) (price : Q) : option TriggerType :=
  if String.eqb (direction alert) "BULLISH" then
    if Py.Qgeb price (take_profit alert) then Some TP
    else if Qle_bool price (stop_loss alert) then Some SL
    else None
  else
    if Qle_bool price (take_profit alert) then Some TP
    else if Py.Qgeb price (stop_loss alert) then Some SL
    else None.

(** One iteration of the loop of [_check_alerts]: the alert afterwards,
    and whether it was handed to the callback. *)
Definition check_alert (pair : string) (quote : Quote) (alert : PriceAlert)
  : PriceAlert * bool :=
  if negb (String.eqb (PriceStream.pair alert) pair) || triggered alert
  then (alert, false)
  else
    let price := mid quote in
    match trigger_for alert price with
    | None => (alert, false)
    | Some kind =>
        ({| trade_id := trade_id alert;
            pair := PriceStream.pair alert;
            direction := direction alert;
            entry_price := entry_price alert;
            take_profit := take_profit alert;
            stop_loss := stop_loss alert;
            triggered := true;
            trigger_type := Some kind;
            trigger_price := Some price;
            trigger_time := Some (timestamp quote) |}, true)
    end.

(** [_check_alerts] on a stream whose callback does not call back into
    the stream (the global stream of [get_price_stream] has none): the
    stream afterwards and the alerts awaited on [on_alert], in the order
    of the walk.  The loop with a callback that removes alerts is
    [_check_alerts_with] below. *)
Definition _check_alerts (s : Stream) (pair : string) (quote : Quote)
  : Stream * list PriceAlert :=
  let checked :=
    map (fun kv => (fst kv, check_alert pair quote (snd kv))) (_alerts s) in
  (set_alerts s (map (fun kc => (fst kc, fst (snd kc))) checked),
   if on_alert s
   then map (fun kc => fst (snd kc))
            (List.filter (fun kc => snd (snd kc)) checked)
   else []).

(** [_from_polygon_symbol]: [C.EUR/USD] to [EURUSD]. *)
Fixpoint remove_slash (s : string) : string :=
  match s with
  | EmptyString => EmptyString
  | String c s' =>
      if Ascii.eqb c "/" then remove_slash s' else String c (remove_slash s')
  end.

Definition _from_polygon_symbol (symbol : string) : option string :=
  if String.eqb symbol EmptyString || negb (String.prefix "C." symbol) then None
  else Some (remove_slash (String.substring 2 (String.length symbol - 2) symbol)).

Definition _to_polygon_symbol (pair : string) : string :=
  ("C." ++ String.substring 0 3 pair ++ "/"
   ++ String.substring 3 (String.length pair - 3) pair)%string.

(** [datetime.fromtimestamp(t / 1000, tz=timezone.utc)] for an integer
    count [t] of milliseconds since 1970-01-01; [None] when the instant
    lies outside the years 1 to 9999 and the call raises. *)
Definition fromtimestamp_ms (t : Z) : option datetime :=
  if ((-62135596800000 <=? t) && (t <? 253402300800000))%Z then
    let days := (t / 86400000)%Z in
    let ms := (t mod 86400000)%Z in
    let '(y, m, d) := fromordinal (719163 + days) in
    Some {| year := y; month := m; day := d;
            hour := ms / 3600000;
            minute := (ms / 60000) mod 60;
            second := (ms / 1000) mod 60;
            microsecond := (ms mod 1000) * 1000 |}%Z
  else None.

(** A decoded frame: [ev], [p], [b], [a], [t] and [status], with the
    defaults of [msg.get]. *)
Record Message := {
  ev : option string;
  p : string;
  b : Q;
  a : Q;
  t : Z;
  status : option string
}.

(** *** The receive path with a callback that calls back into the stream

    The scheduler builds its stream with [on_alert=self._on_price_alert],
    and that callback ends with [self._price_stream.remove_alert(trade_id)]
    for the alert it was handed when it closed the trade; it calls no
    other method of the stream and does not write to the alert.  Such a
    callback is a function on the state [W] of its owner that also tells
    whether it removed the alert; an exception it raises is caught by
    [_check_alerts] and is part of its result. *)

Section WithCallback.

Context {W : Type}.
Variable callback : W -> PriceAlert -> W * bool.

(** The fields of an alert object are written in place: the entry of
    the registry that holds the object shows them. *)
Definition dict_replace {V : Type} (k : string) (v : V) (d : list (string * V))
  : list (string * V) :=
  map (fun kv => if String.eqb (fst kv) k then (k, v) else kv) d.

(** One iteration of [for trade_id, alert in list(self._alerts.items())]:
    the owner of the callback, the registry and the alerts handed over
    so far. *)
Definition check_entry (installed : bool) (pair : string) (quote : Quote)
    (st : W * list (string * PriceAlert) * list PriceAlert)
    (entry : string * PriceAlert)
  : W * list (string * PriceAlert) * list PriceAlert :=
  let '(w, alerts, handed) := st in
  let '(alert', hit) := check_alert pair quote (snd entry) in
  if hit then
    let alerts := dict_replace (fst entry) alert' alerts in
    if installed then
      let '(w', removed) := callback w alert' in
      (w',
       if removed then dict_del (trade_id alert') alerts else alerts,
       handed ++ [alert'])
    else (w, alerts, handed)
  else st.

(** [_check_alerts]: the walk over the snapshot of the registry taken
    when the loop starts. *)
Definition _check_alerts_with (s : Stream) (w : W) (pair : string)
    (quote : Quote) : Stream * W * list PriceAlert :=
  let '(w', alerts, handed) :=
    fold_left (check_entry (on_alert s) pair quote) (_alerts s)
              (w, _alerts s, []) in
  (set_alerts s alerts, w', handed).

(** [_handle_message]; [None] when [datetime.fromtimestamp] raises,
    which happens before the quote is stored. *)
Definition _handle_message (s : Stream) (w : W) (msg : Message)
  : option (Stream * W * list PriceAlert) :=
  if bool_decide (ev msg = Some "C"%string) then
    match _from_polygon_symbol (p msg) with
    | None => Some (s, w, [])
    | Some pair =>
        if String.eqb pair EmptyString then Some (s, w, [])
        else
          match fromtimestamp_ms (t msg) with
          | None => None
          | Some stamp =>
              let quote :=
                {| q_pair := pair; bid := b msg; ask := a msg;
                   timestamp := stamp |} in
              Some (_check_alerts_with
                      (set_quotes s (<[pair := quote]> (_quotes s)))
                      w pair quote)
          end
    end
  else Some (s, w, []).

(** The [for item in data] of [_receive_loop] for one decoded frame,
    inside its [try]: an item on which [_handle_message] raises ends the
    frame, and the loop logs the error and waits for the next frame. *)
Fixpoint handle_items (s : Stream) (w : W) (items : list Message)
  : Stream * W * list PriceAlert :=
  match items with
  | [] => (s, w, [])
  | item :: rest =>
      match _handle_message s w item with
      | None => (s, w, [])
      | Some (s1, w1, handed) =>
          let '(s2, w2, handed') := handle_items s1 w1 rest in
          (s2, w2, handed ++ handed')
      end
  end.

End WithCallback.

End PriceStream.

(* ===================================================================== *)
(** ** app/services/scheduler.py *)
(* ===================================================================== *)

Module Scheduler.

Import SessionUtils Schema.
Local Open Scope Q_scope.

(** The values of [_active_trades] and [_pending_verifications]. *)
Record TradeInfo := {
  ti_pair : string;
  ti_session_name : string;
  ti_session_datetime : datetime;
  ti_prediction : string;
  ti_entry_price : Q;
  ti_take_profit : Q;
  ti_stop_loss : Q;
  ti_model : string
}.

Record PendingInfo := {
  pi_pair : string;
  pi_session_name : string;
  pi_session_datetime : datetime;
  pi_prediction : string;
  pi_model : string;
  pi_outcome : Outcome;
  pi_trigger_price : option Q;
  pi_trigger_time : option datetime
}.

(** The attributes of a [TradingScheduler]; of a cached DataFrame only
    the column [close] is read by the code modelled here. *)
Record TradingScheduler := {
  _ohlc_cache : gmap string (list Q);
  _chart_cache : gmap string string;
  _current_session : option string;
  _active_trades : gmap string TradeInfo;
  _price_stream : option PriceStream.Stream;
  _pending_verifications : gmap string PendingInfo
}.

(** *** [_run_daily_cleanup] *)

(** The cleanup, then the refresh when at least one row was marked; each
    of the two statements evaluates its own [NOW() - INTERVAL '6 months']. *)
Definition _run_daily_cleanup (db : Database)
    (six_months_ago : datetime) (now' six_months_ago' : datetime)
  : Database :=
  let '(db', deleted) :=
    TradeExecutor.cleanup_old_rolling_data db six_months_ago in
  if (0 <? deleted)%Z
  then TradeExecutor.refresh_percentiles db' now' six_months_ago'
  else db'.

(** *** [_get_next_session] *)

(** The inner loop over the three session names on [check_date].
    [None] is the [KeyError] of [session_times[session_name]];
    [Some None] means the loop ended without returning. *)
Fixpoint first_future_session (now check_date : datetime)
    (session_times : gmap string SessionInfo) (names : list string)
  : option (option (string * datetime)) :=
  match names with
  | [] => Some None
  | session_name :: names' =>
      match session_times !! session_name with
      | None => None
      | Some session_info =>
          let session_dt :=
            {| year := year check_date; month := month check_date;
               day := day check_date;
               hour := si_hour session_info;
               minute := si_minute session_info;
               second := 0; microsecond := 0 |} in
          if dt_gtb session_dt now then Some (Some (session_name, session_dt))
          else first_future_session now check_date session_times names'
      end
  end.

(** The outer loop [for day_offset in range(2)]. *)
Fixpoint scan_days (now today : datetime) (day_offsets : list Z)
  : option (option (string * datetime)) :=
  match day_offsets with
  | [] => Some None
  | day_offset :: rest =>
      let check_date := add_days today day_offset in
      if (weekday check_date =? 5)%Z || (weekday check_date =? 6)%Z
      then scan_days now today rest
      else
        match
          first_future_session now check_date
            (get_session_times_for_date check_date)
            ["Asian_Open"; "London_Open"; "NY_Open"]%string
        with
        | None => None
        | Some (Some r) => Some (Some r)
        | Some None => scan_days now today rest
        end
  end.

(** [_get_next_session], with [now] the value of
    [datetime.now(timezone.utc)]; [None] stands for a raised
    [KeyError]. *)
Definition _get_next_session (now : datetime) : option (string * datetime) :=
  let today := midnight now in
  match scan_days now today [0; 1]%Z with
  | None => None
  | Some (Some r) => Some r
  | Some None =>
      let days_until_monday := ((7 - weekday today) mod 7)%Z in
      let days_until_monday :=
        if (days_until_monday =? 0)%Z then 7%Z else days_until_monday in
      let next_monday := add_days today days_until_monday in
      match get_session_times_for_date next_monday !! "Asian_Open"%string with
      | None => None
      | Some asian =>
          Some ("Asian_Open"%string,
                replace_hm next_monday (si_hour asian) (si_minute asian))
      end
  end.

Section WithSettings.

Variable settings : Config.Settings.

(** *** [_on_price_alert] *)

Definition set_stream (sch : TradingScheduler)
    (ps : option PriceStream.Stream) : TradingScheduler :=
  {| _ohlc_cache := _ohlc_cache sch; _chart_cache := _chart_cache sch;
     _current_session := _current_session sch;
     _active_trades := _active_trades sch;
     _price_stream := ps;
     _pending_verifications := _pending_verifications sch |}.

Definition _on_price_alert (db : Database) (sch : TradingScheduler)
    (alert : PriceStream.PriceAlert) (now : datetime)
  : Database * TradingScheduler :=
  let trade_id := PriceStream.trade_id alert in
  match _active_trades sch !! trade_id with
  | None => (db, sch)
  | Some trade_info =>
      let outcome :=
        match PriceStream.trigger_type alert with
        | Some PriceStream.TP => WIN
        | _ => LOSS
        end in
      let is_stop :=
        match PriceStream.trigger_type alert with
        | Some PriceStream.SL => true
        | _ => false
        end in
      match PriceStream.trigger_price alert with
      | None => (db, sch)   (* the arithmetic of close_trade raises *)
      | Some exit_price =>
          match
            TradeExecutor.close_trade settings db trade_id exit_price
                                      outcome is_stop now
          with
          | (db', None) => (db', sch)
          | (db', Some result) =>
              (db',
               {| _ohlc_cache := _ohlc_cache sch;
                  _chart_cache := _chart_cache sch;
                  _current_session := _current_session sch;
                  _active_trades := delete trade_id (_active_trades sch);
                  _price_stream :=
                    match _price_stream sch with
                    | Some ps => Some (PriceStream.remove_alert ps trade_id)
                    | None => None
                    end;
                  _pending_verifications :=
                    <[trade_id :=
                        {| pi_pair := ti_pair trade_info;
                           pi_session_name := ti_session_name trade_info;
                           pi_session_datetime := ti_session_datetime trade_info;
                           pi_prediction := ti_prediction trade_info;
                           pi_model := ti_model trade_info;
                           pi_outcome := outcome;
                           pi_trigger_price := PriceStream.trigger_price alert;
                           pi_trigger_time := PriceStream.trigger_time alert |}]>
                      (_pending_verifications sch) |})
          end
      end
  end.

(** *** [_execute_session] *)

(** The dict returned by [predict]; a missing key is [None]. *)
Record PredictResult := {
  res_prediction : option string;
  res_conviction : option Z;
  res_full_analysis : option string;
  res_model_key : option string
}.

(** What the world hands to one iteration of the loop over
    [TRADING_PAIRS]: the answer of [predict] ([None] when it raises),
    the UUID drawn by [open_trade] and the clock. *)
Record PairInputs := {
  predicted : option PredictResult;
  fresh_uuid : string;
  clock : datetime
}.

(** [balance] of [get_account_status()]. *)
Definition account_balance (db : Database) : Q :=
  match account db with
  | Some a => balance a
  | None => Config.starting_balance settings
  end.

(** The body of [for pair in TRADING_PAIRS], inside its [try]. *)
Definition execute_pair (session_name : string) (session_dt : datetime)
    (balance : Q) (inputs : PairInputs)
    (db : Database) (sch : TradingScheduler) (pair : string)
  : Database * TradingScheduler :=
  match _chart_cache sch !! pair with
  | None => (db, sch)
  | Some chart_path =>
  match predicted inputs with
  | None => (db, sch)
  | Some result =>
  let prediction := default "NEUTRAL"%string (res_prediction result) in
  let conviction := default 0%Z (res_conviction result) in
  if String.eqb prediction "NEUTRAL" then (db, sch)
  else
    let live_price :=
      match _price_stream sch with
      | Some ps =>
          if PriceStream.is_connected ps then
            match PriceStream.get_quote ps pair with
            | Some quote =>
                Some (if String.eqb prediction "BULLISH"
                      then PriceStream.ask quote else PriceStream.bid quote)
            | None => None
            end
          else None
      | None => None
      end in
    let entry_price :=
      match live_price with
      | Some px => Some px
      | None =>
          match _ohlc_cache sch !! pair with
          | None => None
          | Some closes => last closes
          end
      end in
    match entry_price with
    | None => (db, sch)
    | Some entry_price =>
    match
      RiskEngine.calculate_risk_parameters settings db pair session_name
        prediction entry_price balance
    with
    | None => (db, sch)
    | Some risk_params =>
        let '(db', trade) :=
          TradeExecutor.open_trade settings db risk_params prediction
            conviction session_dt (res_full_analysis result)
            (fresh_uuid inputs) (clock inputs) in
        let tid := TradeExecutor.te_trade_id trade in
        let active :=
          <[tid :=
              {| ti_pair := pair;
                 ti_session_name := session_name;
                 ti_session_datetime := session_dt;
                 ti_prediction := prediction;
                 ti_entry_price := TradeExecutor.te_entry_price trade;
                 ti_take_profit := TradeExecutor.te_take_profit trade;
                 ti_stop_loss := TradeExecutor.te_stop_loss trade;
                 ti_model :=
                   default "claude_haiku_45"%string (res_model_key result) |}]>
            (_active_trades sch) in
        let stream :=
          match _price_stream sch with
          | Some ps =>
              if PriceStream.is_connected ps then
                Some (PriceStream.add_alert ps
                        {| PriceStream.trade_id := tid;
                           PriceStream.pair := pair;
                           PriceStream.direction := prediction;
                           PriceStream.entry_price := TradeExecutor.te_entry_price trade;
                           PriceStream.take_profit := TradeExecutor.te_take_profit trade;
                           PriceStream.stop_loss := TradeExecutor.te_stop_loss trade;
                           PriceStream.triggered := false;
                           PriceStream.trigger_type := None;
                           PriceStream.trigger_price := None;
                           PriceStream.trigger_time := None |})
              else Some ps
          | None => None
          end in
        (db',
         {| _ohlc_cache := _ohlc_cache sch;
            _chart_cache := _chart_cache sch;
            _current_session := _current_session sch;
            _active_trades := active;
            _price_stream := stream;
            _pending_verifications := _pending_verifications sch |})
    end
    end
  end
  end.

(** [_execute_session] up to the final [_schedule_next_session()]:
    the loop over [TRADING_PAIRS], then both caches are cleared. *)
Definition _execute_session (session_name : string) (session_dt : datetime)
    (inputs : string -> PairInputs)
    (db : Database) (sch : TradingScheduler)
  : Database * TradingScheduler :=
  let sch0 :=
    {| _ohlc_cache := _ohlc_cache sch; _chart_cache := _chart_cache sch;
       _current_session := Some session_name;
       _active_trades := _active_trades sch;
       _price_stream := _price_stream sch;
       _pending_verifications := _pending_verifications sch |} in
  let balance := account_balance db in
  let '(db', sch') :=
    fold_left
      (fun w pair =>
         execute_pair session_name session_dt balance (inputs pair)
                      (fst w) (snd w) pair)
      Config.TRADING_PAIRS (db, sch0) in
  (db',
   {| _ohlc_cache := ∅; _chart_cache := ∅;
      _current_session := _current_session sch';
      _active_trades := _active_trades sch';
      _price_stream := _price_stream sch';
      _pending_verifications := _pending_verifications sch' |}).

End WithSettings.

End Scheduler.

(* ===================================================================== *)
(** ** app/utils/forex_utils.py, continued *)
(* ===================================================================== *)

Module ForexUtilsMore.

Local Open Scope Q_scope.

Definition get_pip_multiplier (pair : string) : Z :=
  let pair_upper := Py.upper pair in
  if Py.contains "XAU" pair_upper then 1%Z
  else if Py.contains "XAG" pair_upper then 100%Z
  else if Py.contains "JPY" pair_upper then 100%Z
  else 10000%Z.

Definition price_to_pips (price_diff : Q) (pair : string) : Q :=
  let pip_value := ForexUtils.get_pip_value pair in
  Py.round (price_diff / pip_value) 1.

Definition is_jpy_pair (pair : string) : bool :=
  Py.contains "JPY" (Py.upper pair).

(** The dict returned by [calculate_lot_size]. *)
Record LotSizing := {
  ls_lot_size : Q;
  ls_lot_size_raw : Q;
  ls_risk_dollars : Q;
  ls_pip_value : Q;
  ls_actual_risk_pct : Q;
  ls_capped : bool
}.

(** [calculate_lot_size]; [None] is the [ZeroDivisionError] of a float
    division by [lot_step = 0] or by [account_balance = 0]. *)
Definition calculate_lot_size (account_balance risk_percent stop_loss_pips : Q)
    (pair : string) (min_lot max_lot lot_step : Q) : option LotSizing :=
  let risk_dollars := account_balance * (risk_percent / 100) in
  let pip_value_per_lot := ForexUtils.get_pip_value_in_usd pair in
  if Qle_bool stop_loss_pips 0 || Qle_bool pip_value_per_lot 0 then
    Some {| ls_lot_size := min_lot;
            ls_lot_size_raw := 0;
            ls_risk_dollars := risk_dollars;
            ls_pip_value := pip_value_per_lot;
            ls_actual_risk_pct := 0;
            ls_capped := true |}
  else
    let lot_size_raw := risk_dollars / (stop_loss_pips * pip_value_per_lot) in
    if Qeq_bool lot_step 0 then None
    else
      let lot_size :=
        inject_Z (Py.round_half_even (lot_size_raw / lot_step)) * lot_step in
      let lot_size := Py.round lot_size 2 in
      let '(lot_size, capped) :=
        if Py.Qltb lot_size min_lot then (min_lot, true)
        else if Py.Qgtb lot_size max_lot then (max_lot, true)
        else (lot_size, false) in
      let actual_risk_dollars := lot_size * stop_loss_pips * pip_value_per_lot in
      if Qeq_bool account_balance 0 then None
      else
        let actual_risk_pct := (actual_risk_dollars / account_balance) * 100 in
        Some {| ls_lot_size := lot_size;
                ls_lot_size_raw := Py.round lot_size_raw 4;
                ls_risk_dollars := Py.round risk_dollars 2;
                ls_pip_value := pip_value_per_lot;
                ls_actual_risk_pct := Py.round actual_risk_pct 2;
                ls_capped := capped |}.

(** [s.replace(c, '')] for a one-character [c]. *)
Fixpoint remove_char (c : ascii) (s : string) : string :=
  match s with
  | EmptyString => EmptyString
  | String c' s' =>
      if Ascii.eqb c' c then remove_char c s' else String c' (remove_char c s')
  end.

Definition normalize_pair (pair : string) : string :=
  if String.eqb pair EmptyString then EmptyString
  else remove_char "_" (remove_char "-" (remove_char "/" (Py.upper pair))).

End ForexUtilsMore.

(* ===================================================================== *)
(** ** app/utils/session_utils.py, continued *)
(* ===================================================================== *)

Module SessionUtilsMore.

Import SessionUtils.
Local Open Scope Q_scope.

(** The zones of [duration_map]; Asia/Tokyo is UTC+9 all year (as the
    other offsets, this is the offset of [pytz] for the years 2007 to
    2037; Japan has not changed its clocks since 1951). *)
Inductive DurationZone := Asia_Tokyo | Dst (z : Zone).

Definition zone_utcoffset (z : DurationZone) (y m d h mi : Z) : Z :=
  match z with
  | Asia_Tokyo => 540
  | Dst z' => utcoffset z' y m d h mi
  end.

Definition duration_map (session_name : string)
  : option (DurationZone * Z * Z * Z * Z) :=
  if String.eqb session_name "Asian_Open" then Some (Asia_Tokyo, 1, 0, 9, 0)%Z
  else if String.eqb session_name "London_Open"
       then Some (Dst Europe_London, 8, 0, 13, 0)%Z
  else if String.eqb session_name "NY_Open"
       then Some (Dst America_New_York, 9, 30, 13, 30)%Z
  else None.

(** [get_session_duration_for_date]: the hours between the open and
    the close, both localized on the date and converted to UTC. *)
Definition get_session_duration_for_date (session_name : string)
    (date_dt : datetime) : Q :=
  let base_date := midnight date_dt in
  match duration_map session_name with
  | None => 4.0
  | Some (tz, open_h, open_m, close_h, close_m) =>
      let y := year base_date in
      let m := month base_date in
      let d := day base_date in
      let open_utc := (open_h * 60 + open_m - zone_utcoffset tz y m d open_h open_m)%Z in
      let close_utc := (close_h * 60 + close_m - zone_utcoffset tz y m d close_h close_m)%Z in
      inject_Z ((close_utc - open_utc) * 60) / 3600
  end.

End SessionUtilsMore.

(* ===================================================================== *)
(** ** app/services/trade_executor.py, continued *)
(* ===================================================================== *)

Module TradeExecutorMore.

Import SessionUtils Schema.
Local Open Scope Q_scope.

(** The dict returned by [get_account_status]. *)
Record AccountStatus := {
  st_balance : Q;
  st_initial_balance : Q;
  st_total_trades : Z;
  st_winning_trades : Z;
  st_losing_trades : Z;
  st_win_rate : Q;
  st_peak_balance : Q;
  st_max_drawdown_pct : Q;
  st_pnl : Q;
  st_pnl_pct : Q
}.

Definition get_account_status (settings : Config.Settings) (db : Database)
  : AccountStatus :=
  match account db with
  | None =>
      {| st_balance := Config.starting_balance settings;
         st_initial_balance := Config.starting_balance settings;
         st_total_trades := 0;
         st_winning_trades := 0;
         st_losing_trades := 0;
         st_win_rate := 0.0;
         st_peak_balance := Config.starting_balance settings;
         st_max_drawdown_pct := 0.0;
         st_pnl := 0.0;
         st_pnl_pct := 0.0 |}
  | Some account =>
      let total := total_trades account in
      let wins := winning_trades account in
      let win_rate :=
        if (0 <? total)%Z then inject_Z wins / inject_Z total * 100 else 0.0 in
      let balance := balance account in
      let initial := initial_balance account in
      let pnl := balance - initial in
      let pnl_pct := if Py.Qgtb initial 0 then pnl / initial * 100 else 0.0 in
      {| st_balance := balance;
         st_initial_balance := initial;
         st_total_trades := total;
         st_winning_trades := wins;
         st_losing_trades := losing_trades account;
         st_win_rate := Py.round win_rate 2;
         st_peak_balance := peak_balance account;
         st_max_drawdown_pct := max_drawdown_pct account;
         st_pnl := Py.round pnl 2;
         st_pnl_pct := Py.round pnl_pct 2 |}
  end.

End TradeExecutorMore.
(* ===================================================================== *)
(** ** Sequences of operations and the account invariants *)
(* ===================================================================== *)

Module AccountSpec.

Import SessionUtils Schema.
Local Open Scope Q_scope.

(** The account-level invariants: wins and losses never exceed the
    number of trades, the peak is at least the balance, and the maximal
    drawdown is not negative. *)
Definition account_invariant (a : Account) : Prop :=
  (winning_trades a + losing_trades a <= total_trades a)%Z
  /\ balance a <= peak_balance a
  /\ 0 <= max_drawdown_pct a.

(** A database whose account row, if there is one, satisfies them. *)
Definition account_ok (db : Database) : Prop :=
  match account db with
  | Some a => account_invariant a
  | None => True
  end.

(** [max_drawdown_pct] as [get_account_status] reports it: 0.0 while
    the table is empty. *)
Definition drawdown_of (db : Database) : Q :=
  match account db with
  | Some a => max_drawdown_pct a
  | None => 0
  end.

(** One call of [close_trade], with the clock it reads. *)
Record CloseCall := {
  cc_trade_id : string;
  cc_exit_price : Q;
  cc_outcome : Outcome;
  cc_is_stop_exit : bool;
  cc_now : datetime
}.

Definition close_call (settings : Config.Settings) (db : Database)
    (c : CloseCall) : Database :=
  fst (TradeExecutor.close_trade settings db (cc_trade_id c) (cc_exit_price c)
         (cc_outcome c) (cc_is_stop_exit c) (cc_now c)).

(** A sequence of calls, oldest first. *)
Definition close_all (settings : Config.Settings) (db : Database)
    (calls : list CloseCall) : Database :=
  fold_left (close_call settings) calls db.

End AccountSpec.

(* ===================================================================== *)
(** ** Histories of the rolling window *)
(* ===================================================================== *)

Module RollingWindowSpec.

Import SessionUtils Schema.
Local Open Scope Q_scope.

(** The statements of the repository that write [rolling_window] or
    refresh the view.  Those that evaluate [NOW() - INTERVAL '6 months']
    carry the value PostgreSQL computed for it. *)
Inductive Op :=
| Append (pair session_name : string) (session_datetime : datetime)
         (prediction : string) (correct : bool) (mfe_pips mae_pips : Q)
         (model : string)
| Cleanup (six_months_ago : datetime)
| Refresh (now six_months_ago : datetime)
| Import (records : list ImportBaseline.BaselineRecord)
         (now six_months_ago : datetime).

Definition step (db : Database) (op : Op) : Database :=
  match op with
  | Append pair_ session_name session_datetime prediction correct mfe mae model =>
      TradeExecutor.add_to_rolling_window db pair_ session_name session_datetime
        prediction correct mfe mae model None None None
  | Cleanup six_months_ago =>
      fst (TradeExecutor.cleanup_old_rolling_data db six_months_ago)
  | Refresh now six_months_ago =>
      TradeExecutor.refresh_percentiles db now six_months_ago
  | Import records now six_months_ago =>
      fst (ImportBaseline.import_baseline db records now six_months_ago)
  end.

(** A history, oldest statement first. *)
Definition run (db : Database) (history : list Op) : Database :=
  fold_left step history db.

(** The six-months-ago instants a history evaluated, in order. *)
Definition cutoffs (history : list Op) : list datetime :=
  flat_map (fun op =>
              match op with
              | Append _ _ _ _ _ _ _ _ => []
              | Cleanup c => [c]
              | Refresh _ c => [c]
              | Import _ _ c => [c]
              end) history.

(** The instants of a list never go back. *)
Fixpoint nondecreasing (ts : list datetime) : Prop :=
  match ts with
  | [] => True
  | a :: rest =>
      match rest with
      | [] => True
      | b :: _ => dt_leb a b = true /\ nondecreasing rest
      end
  end.


(** The row is older than the six-months-ago instant. *)
Definition older_than (six_months_ago : datetime) (r : RollingRow) : bool :=
  dt_ltb (rw_session_datetime r) six_months_ago.


(** The view row [row] stands for the group of [r]. *)
Definition row_of_group (row : PercentileRow) (r : RollingRow) : Prop :=
  TradeExecutor.group_key r = (pr_pair row, pr_session_name row, pr_model row).

End RollingWindowSpec.

(* ===================================================================== *)
(** ** Vocabulary of the statements about alerts and lot sizes *)
(* ===================================================================== *)

Module AlertSpec.

Import PriceStream.

(** The alert has been triggered with trigger kind [k]. *)
Definition fired (alert : PriceAlert) (k : TriggerType) : Prop :=
  triggered alert = true /\ trigger_type alert = Some k.

End AlertSpec.

Module RiskSpec.

Local Open Scope Q_scope.

(** A lot size that is a whole number of 0.01-lot steps. *)
Definition on_lot_grid (q : Q) : Prop :=
  exists k : Z, q == inject_Z k / inject_Z (10 ^ Z.of_nat 2).

End RiskSpec.

(* ===================================================================== *)
(** ** Concrete states used by the examples below *)
(* ===================================================================== *)

Module Scenarios.

Import SessionUtils Schema.
Local Open Scope Q_scope.

Definition at_time (y m d h mi : Z) : datetime :=
  replace_hm (mk_date y m d) h mi.

(** The [account] row inserted by migration 001. *)
Definition seeded_account : Account :=
  {| a_id := 1;
     balance_hundredths := to_decimal 2 10000.00;
     initial_balance_hundredths := to_decimal 2 10000.00;
     total_trades := 0;
     winning_trades := 0;
     losing_trades := 0;
     peak_balance_hundredths := to_decimal 2 10000.00;
     max_drawdown_pct_hundredths := to_decimal 2 0.00;
     last_updated := at_time 2025 12 28 0 0 |}.

(** An open position: every outcome column is NULL. *)
Definition open_position (trade_id pair prediction : string)
    (entry tp sl tp_pips sl_pips lot : Q) : Trade :=
  {| t_trade_id := trade_id;
     t_pair := pair;
     t_session_name := "London_Open";
     t_session_datetime := at_time 2025 12 29 8 0;
     t_prediction := prediction;
     t_conviction := 7;
     t_full_analysis := None;
     t_entry_price := entry;
     t_spread_pips := 0.2;
     t_stop_loss := sl;
     t_take_profit := tp;
     t_sl_pips := sl_pips;
     t_tp_pips := tp_pips;
     t_lot_size := lot;
     t_risk_pct := 1.55;
     t_mfe_percentile := "P75";
     t_mae_percentile := "P50";
     t_created_at := at_time 2025 12 29 8 0;
     t_exit_price := None;
     t_outcome := None;
     t_pnl_pips := None;
     t_pnl_dollars := None;
     t_commission := None;
     t_verified_at := None |}.

(** Scenario S4: short USDJPY from 150.00, TP 149.40, SL 150.60. *)
Definition s4_position : Trade :=
  open_position "s4" "USDJPY" "BEARISH" 150.00 149.40 150.60 60 60 1.00.

(** Scenario S6: long EURUSD from 1.1000, TP 1.1050, SL 1.0950. *)
Definition s6_position : Trade :=
  open_position "s6" "EURUSD" "BULLISH" 1.1000 1.1050 1.0950 50 50 1.00.

Definition db_with (t : Trade) : Database :=
  {| trades := {[ t_trade_id t := t ]};
     account := Some seeded_account;
     rolling_window := [];
     percentile_targets := [] |}.

(** Two calls on the S4 position: a timeout close, then a stop exit. *)
Definition s4_timeout : AccountSpec.CloseCall :=
  {| AccountSpec.cc_trade_id := "s4";
     AccountSpec.cc_exit_price := 149.85;
     AccountSpec.cc_outcome := TIMEOUT;
     AccountSpec.cc_is_stop_exit := false;
     AccountSpec.cc_now := at_time 2025 12 29 12 0 |}.

Definition s4_stopped : AccountSpec.CloseCall :=
  {| AccountSpec.cc_trade_id := "s4";
     AccountSpec.cc_exit_price := 150.60;
     AccountSpec.cc_outcome := LOSS;
     AccountSpec.cc_is_stop_exit := true;
     AccountSpec.cc_now := at_time 2025 12 29 12 5 |}.

(** Scenario S2: the alert of a long EURUSD position, TP 1.1050 and
    SL 1.0950, not yet triggered. *)
Definition s2_alert : PriceStream.PriceAlert :=
  {| PriceStream.trade_id := "s2";
     PriceStream.pair := "EURUSD";
     PriceStream.direction := "BULLISH";
     PriceStream.entry_price := 1.1000;
     PriceStream.take_profit := 1.1050;
     PriceStream.stop_loss := 1.0950;
     PriceStream.triggered := false;
     PriceStream.trigger_type := None;
     PriceStream.trigger_price := None;
     PriceStream.trigger_time := None |}.

(** A quote whose bid and ask both equal [px]. *)
Definition quote_at (pair : string) (px : Q) : PriceStream.Quote :=
  {| PriceStream.q_pair := pair;
     PriceStream.bid := px;
     PriceStream.ask := px;
     PriceStream.timestamp := at_time 2025 12 29 9 0 |}.

(** A stream in the Ready state: connected, subscribed to EURUSD, one
    quote received and the S2 alert registered. *)
Definition ready_stream : PriceStream.Stream :=
  {| PriceStream.api_key := "key";
     PriceStream.on_alert := true;
     PriceStream._ws := Some PriceStream.OPEN;
     PriceStream._quotes := {[ "EURUSD"%string := quote_at "EURUSD" 1.1000 ]};
     PriceStream._alerts := [("s2"%string, s2_alert)];
     PriceStream._subscribed_pairs := {[ "EURUSD"%string ]};
     PriceStream._running := true;
     PriceStream._recv_task := Some PriceStream.TaskRunning;
     PriceStream._connected := true |}.

(** A view with one row, for (EURUSD, London_Open), of [n] samples. *)
Definition sample_stats (n : Z) : Database :=
  set_percentile_targets empty_db
    [ {| pr_pair := "EURUSD"; pr_session_name := "London_Open";
         pr_model := "claude_haiku_45"; pr_sample_count := n;
         pr_mfe_p25 := 8.5; pr_mfe_p50 := 14.2; pr_mfe_p75 := 23.1;
         pr_mae_p25 := 4.0; pr_mae_p50 := 9.3; pr_mae_p75 := 17.8;
         pr_accuracy_pct := 56.7;
         pr_updated_at := at_time 2025 12 29 0 0 |} ].

(** The default settings with other lot bounds. *)
Definition with_lot_bounds (min_lot max_lot : Q) : Config.Settings :=
  {| Config.starting_balance := Config.starting_balance Config.default_settings;
     Config.risk_percent := Config.risk_percent Config.default_settings;
     Config.max_lot_size := max_lot;
     Config.min_lot_size := min_lot;
     Config.commission_per_lot :=
       Config.commission_per_lot Config.default_settings;
     Config.default_spread_pips :=
       Config.default_spread_pips Config.default_settings;
     Config.rolling_window_months :=
       Config.rolling_window_months Config.default_settings;
     Config.tp_percentile := Config.tp_percentile Config.default_settings;
     Config.sl_percentile := Config.sl_percentile Config.default_settings;
     Config.ohlc_prewarm_seconds :=
       Config.ohlc_prewarm_seconds Config.default_settings;
     Config.chart_prewarm_seconds :=
       Config.chart_prewarm_seconds Config.default_settings |}.


Definition sample_scheduler : Scheduler.TradingScheduler :=
  {| Scheduler._ohlc_cache := {[ "EURUSD"%string := [1.0990; 1.1000] ]};
     Scheduler._chart_cache :=
       {[ "EURUSD"%string := "charts/EURUSD_London_Open.png"%string ]};
     Scheduler._current_session := Some "London_Open"%string;
     Scheduler._active_trades := ∅;
     Scheduler._price_stream := None;
     Scheduler._pending_verifications := ∅ |}.

(** The scheduler while the S6 position is open, without a stream, and
    the alert of that position as [_check_alerts] hands it over when the
    mid reaches the take-profit 1.1050. *)
Definition s6_scheduler : Scheduler.TradingScheduler :=
  {| Scheduler._ohlc_cache := ∅;
     Scheduler._chart_cache := ∅;
     Scheduler._current_session := Some "London_Open"%string;
     Scheduler._active_trades :=
       {[ "s6"%string :=
            {| Scheduler.ti_pair := "EURUSD";
               Scheduler.ti_session_name := "London_Open";
               Scheduler.ti_session_datetime := at_time 2025 12 29 8 0;
               Scheduler.ti_prediction := "BULLISH";
               Scheduler.ti_entry_price := 1.1000;
               Scheduler.ti_take_profit := 1.1050;
               Scheduler.ti_stop_loss := 1.0950;
               Scheduler.ti_model := "claude_haiku_45" |} ]};
     Scheduler._price_stream := None;
     Scheduler._pending_verifications := ∅ |}.

Definition s6_alert_hit : PriceStream.PriceAlert :=
  {| PriceStream.trade_id := "s6";
     PriceStream.pair := "EURUSD";
     PriceStream.direction := "BULLISH";
     PriceStream.entry_price := 1.1000;
     PriceStream.take_profit := 1.1050;
     PriceStream.stop_loss := 1.0950;
     PriceStream.triggered := true;
     PriceStream.trigger_type := Some PriceStream.TP;
     PriceStream.trigger_price := Some 1.1050;
     PriceStream.trigger_time := Some (at_time 2025 12 29 9 30) |}.

(** The predictor answers BULLISH with conviction 9. *)
Definition bullish_conviction_9 : Scheduler.PairInputs :=
  {| Scheduler.predicted :=
       Some {| Scheduler.res_prediction := Some "BULLISH"%string;
               Scheduler.res_conviction := Some 9%Z;
               Scheduler.res_full_analysis := None;
               Scheduler.res_model_key := None |};
     Scheduler.fresh_uuid := "0b9f6c1e-5c37-4a53-9d55-2f1f0c8f7a10";
     Scheduler.clock := at_time 2025 12 29 8 0 |}.

(** A record of the rolling window for (EURUSD, London_Open). *)
Definition excursion (session_datetime : datetime) (mfe mae : Q)
  : RollingWindowSpec.Op :=
  RollingWindowSpec.Append "EURUSD" "London_Open" session_datetime "BULLISH"
    true mfe mae "claude_haiku_45".

(** Two appends ten months apart, a daily cleanup, one more append. *)
Definition window_history : list RollingWindowSpec.Op :=
  [ excursion (at_time 2025 2 3 8 0) 21.5 7.0;
    excursion (at_time 2025 12 1 8 0) 12.0 9.5;
    RollingWindowSpec.Cleanup (at_time 2025 6 2 0 0);
    excursion (at_time 2025 12 2 8 0) 30.5 4.5 ].


End Scenarios.

(* ===================================================================== *)
(** ** Vocabulary of the further statements *)
(* ===================================================================== *)

Module StreamSpec.

Import PriceStream.

(** The character does not occur in the string. *)
Fixpoint lacks (c : ascii) (s : string) : Prop :=
  match s with
  | EmptyString => True
  | String c' s' => c' <> c /\ lacks c s'
  end.

(** [_alerts] is a dict keyed by the trade id of its values: the keys
    are pairwise distinct and every alert sits under its own id. *)
Definition keyed (alerts : list (string * PriceAlert)) : Prop :=
  NoDup (map fst alerts)
  /\ forall k a, In (k, a) alerts -> trade_id a = k.

(** A triggered alert carries its trigger kind, price and time. *)
Definition stamped (a : PriceAlert) : Prop :=
  triggered a = true ->
  trigger_type a <> None /\ trigger_price a <> None /\ trigger_time a <> None.

(** A run of quote updates through [_check_alerts], oldest first: the
    stream afterwards and everything handed to the callback, in order. *)
Fixpoint feed (s : Stream) (quotes : list (string * Quote))
  : Stream * list PriceAlert :=
  match quotes with
  | [] => (s, [])
  | (pair, quote) :: rest =>
      let step := _check_alerts s pair quote in
      let later := feed (fst step) rest in
      (fst later, snd step ++ snd later)
  end.

Section WithCallback.

Context {W : Type}.
Variable callback : W -> PriceAlert -> W * bool.

(** The same run through [_check_alerts_with]: the stream and the owner
    of the callback afterwards, and everything handed to the callback. *)
Fixpoint feed_with (s : Stream) (w : W) (quotes : list (string * Quote))
  : Stream * W * list PriceAlert :=
  match quotes with
  | [] => (s, w, [])
  | (pair, quote) :: rest =>
      let '(s1, w1, handed) := _check_alerts_with callback s w pair quote in
      let '(s2, w2, handed') := feed_with s1 w1 rest in
      (s2, w2, handed ++ handed')
  end.

(** The walk of [_check_alerts_with] told entry by entry: what becomes
    of each entry of the snapshot. *)
Fixpoint walk (installed : bool) (pair : string) (quote : Quote) (w : W)
    (snapshot : list (string * PriceAlert))
  : W * list (string * PriceAlert) * list PriceAlert :=
  match snapshot with
  | [] => (w, [], [])
  | entry :: rest =>
      let '(alert', hit) := check_alert pair quote (snd entry) in
      if hit && installed then
        let '(w1, removed) := callback w alert' in
        let '(w2, kept, handed) := walk installed pair quote w1 rest in
        (w2, (if removed then kept else (fst entry, alert') :: kept),
         alert' :: handed)
      else
        let '(w2, kept, handed) := walk installed pair quote w rest in
        (w2, (fst entry, alert') :: kept, handed)
  end.

End WithCallback.

(** [pruned handed small big]: the registry [small] is [big] without
    some of its entries, each a triggered alert among [handed]. *)
Inductive pruned (handed : list PriceAlert)
  : list (string * PriceAlert) -> list (string * PriceAlert) -> Prop :=
| pruned_nil : pruned handed [] []
| pruned_keep kv small big :
    pruned handed small big -> pruned handed (kv :: small) (kv :: big)
| pruned_drop kv small big :
    In (snd kv) handed -> triggered (snd kv) = true ->
    pruned handed small big -> pruned handed small (kv :: big).

End StreamSpec.


Module ZoneSpec.

Import SessionUtils.

(** The date lies in the years for which the offsets of [utcoffset] and
    of [zone_utcoffset] are those [pytz] gives: the rules in force since
    2007, up to the last year for which [pytz] holds transitions. *)
Definition rules_in_force (d : datetime) : Prop := (2007 <= year d <= 2037)%Z.

End ZoneSpec.

Module LedgerSpec.

Import SessionUtils Schema AccountSpec.
Local Open Scope Q_scope.

(** What [exit_figures] reads of a row of [trades]. *)
Definition same_entry (t t' : Trade) : Prop :=
  t_pair t = t_pair t' /\ t_entry_price t = t_entry_price t'
  /\ t_prediction t = t_prediction t' /\ t_lot_size t = t_lot_size t'.

(** Two states of [trades] hold the same ids, with the same entry
    columns under each. *)
Definition entries_agree (db0 db : Database) : Prop :=
  forall tid,
    match trades db0 !! tid, trades db !! tid with
    | Some t, Some t' => same_entry t t'
    | None, None => True
    | _, _ => False
    end.

(** The call names a row of [trades]. *)
Definition known (db : Database) (c : CloseCall) : bool :=
  bool_decide (is_Some (trades db !! cc_trade_id c)).

Definition wins (db : Database) (c : CloseCall) : bool :=
  known db c && match cc_outcome c with WIN => true | _ => false end.

Definition losses (db : Database) (c : CloseCall) : bool :=
  known db c && match cc_outcome c with LOSS => true | _ => false end.

Definition count (f : CloseCall -> bool) (calls : list CloseCall) : Z :=
  Z.of_nat (length (List.filter f calls)).

(** The counters of the account row are natural numbers and the wins
    and losses are among the trades. *)
Definition counters_ok (db : Database) : Prop :=
  match account db with
  | Some a =>
      (0 <= winning_trades a /\ 0 <= losing_trades a
       /\ winning_trades a + losing_trades a <= total_trades a)%Z
  | None => True
  end.

Section WithSettings.

Variable settings : Config.Settings.

(** The net profit or loss in dollars that a call books for the row
    it names, before rounding; nothing for an unknown id. *)
Definition booked (db : Database) (c : CloseCall) : Q :=
  match trades db !! cc_trade_id c with
  | Some t =>
      TradeExecutor.net_pnl_dollars
        (TradeExecutor.exit_figures settings t (cc_exit_price c)
           (cc_is_stop_exit c))
  | None => 0
  end.

Definition total_booked (db : Database) (calls : list CloseCall) : Q :=
  fold_right (fun c acc => booked db c + acc) 0 calls.

(** An amount that is a whole number of cents. *)
Definition whole_cents (q : Q) : Prop := exists n : Z, q == of_decimal 2 n.

End WithSettings.

End LedgerSpec.

Module WindowSpec.

Import SessionUtils Schema.
Local Open Scope Q_scope.

(** The columns of the unique constraint of [rolling_window]. *)
Definition row_key (r : RollingRow) : string * string * datetime * string :=
  (rw_pair r, rw_session_name r, rw_session_datetime r, rw_model r).

(** The columns of the unique index of [percentile_targets]. *)
Definition view_key (row : PercentileRow) : string * string * string :=
  (pr_pair row, pr_session_name row, pr_model row).

(** The number of rows flagged as inside the window. *)
Definition flagged (rows : list RollingRow) : Z :=
  Z.of_nat (length (List.filter rw_in_window rows)).

(** The rows a refresh at six-months-ago instant [c] puts in the group
    of the view row [row]. *)
Definition members (c : datetime) (row : PercentileRow)
    (rows : list RollingRow) : list RollingRow :=
  List.filter (fun r => TradeExecutor.view_where c r
                        && TradeExecutor.in_group (view_key row) r) rows.

(** The values of a list never go down. *)
Fixpoint ascending (l : list Q) : Prop :=
  match l with
  | [] => True
  | x :: l' => Forall (Qle x) l' /\ ascending l'
  end.

(** The linear interpolation of [PERCENTILE_CONT] at the fractional
    rank [x] of the ordered values [s]. *)
Definition interpolate (s : list Q) (x : Q) : Q :=
  let lo := Qfloor x in
  let hi := Qceiling x in
  nth (Z.to_nat lo) s 0
  + (x - inject_Z lo) * (nth (Z.to_nat hi) s 0 - nth (Z.to_nat lo) s 0).

End WindowSpec.

Module SchedulerSpec.

Import SessionUtils.
Local Open Scope Z_scope.

(** The time of day of a [datetime] is in range. *)
Definition valid_time (d : datetime) : Prop :=
  0 <= hour d < 24 /\ 0 <= minute d < 60 /\ 0 <= second d < 60
  /\ 0 <= microsecond d < 1000000.

(** Day numbers of 1970-01-01 and of 2099-12-31. *)
Definition first_day : Z := toordinal (mk_date 1970 1 1).
Definition last_day : Z := toordinal (mk_date 2099 12 31).

(** The day lies between 1970-01-01 and a week before 2099-12-31. *)
Definition in_calendar (d : datetime) : Prop :=
  first_day <= toordinal d /\ toordinal d + 7 <= last_day.

(** [check_date.replace(hour=.., minute=.., second=0, microsecond=0)] *)
Definition at_session (check_date : datetime) (info : SessionInfo) : datetime :=
  {| year := year check_date; month := month check_date; day := day check_date;
     hour := si_hour info; minute := si_minute info;
     second := 0; microsecond := 0 |}.

Definition open_sessions : list string :=
  ["Asian_Open"; "London_Open"; "NY_Open"]%string.

(** [f] holds of the [n] integers from [start] on. *)
Fixpoint all_from (f : Z -> bool) (start : Z) (n : nat) : bool :=
  match n with
  | O => true
  | S n' => f start && all_from f (start + 1) n'
  end.

(** [date.fromordinal(n).toordinal() == n] *)
Definition ordinal_round_trip (n : Z) : bool :=
  let '(y, m, d) := fromordinal n in toordinal (mk_date y m d) =? n.

End SchedulerSpec.

Module SessionSpec.

Import PriceStream.

(** Two states of the scheduler's stream attribute see the same
    connection: both absent, or both present with the same socket state,
    quotes and subscriptions. *)
Definition same_link (after before : option Stream) : Prop :=
  match after, before with
  | Some ps', Some ps =>
      is_connected ps' = is_connected ps /\ _quotes ps' = _quotes ps
      /\ _subscribed_pairs ps' = _subscribed_pairs ps
  | None, None => True
  | _, _ => False
  end.

End SessionSpec.
(* ===================================================================== *)
(** * Properties *)
(* ===================================================================== *)

(** ** Facts about the Python built-ins *)

Module PyFacts.
Local Open Scope Q_scope.

Lemma Qmax_ge_l (a b : Q) : a <= Py.Qmax a b.
Proof.
  unfold Py.Qmax. destruct (Qle_bool a b) eqn:E.
  - now apply Qle_bool_iff.
  - apply Qle_refl.
Qed.

Lemma Qmax_ge_r (a b : Q) : b <= Py.Qmax a b.
Proof.
  unfold Py.Qmax. destruct (Qle_bool a b) eqn:E.
  - apply Qle_refl.
  - apply Qlt_le_weak, Qnot_le_lt. intros H.
    apply Qle_bool_iff in H. congruence.
Qed.

Lemma Qmin_le_l (a b : Q) : Py.Qmin a b <= a.
Proof.
  unfold Py.Qmin. destruct (Qle_bool a b) eqn:E.
  - apply Qle_refl.
  - apply Qlt_le_weak, Qnot_le_lt. intros H.
    apply Qle_bool_iff in H. congruence.
Qed.

Lemma Qmin_le_r (a b : Q) : Py.Qmin a b <= b.
Proof.
  unfold Py.Qmin. destruct (Qle_bool a b) eqn:E.
  - now apply Qle_bool_iff.
  - apply Qle_refl.
Qed.

Lemma Qmin_glb (a b c : Q) : c <= a -> c <= b -> c <= Py.Qmin a b.
Proof. unfold Py.Qmin. now destruct (Qle_bool a b). Qed.

Lemma Qgtb_true (a b : Q) : Py.Qgtb a b = true <-> b < a.
Proof.
  unfold Py.Qgtb. rewrite negb_true_iff. split.
  - intros E. apply Qnot_le_lt. intros H. apply Qle_bool_iff in H. congruence.
  - intros H. destruct (Qle_bool a b) eqn:E; [|reflexivity].
    apply Qle_bool_iff in E. exfalso. eapply Qlt_not_le; eauto.
Qed.

Lemma round_half_even_ge (x : Q) (k : Z) :
  inject_Z k <= x -> (k <= Py.round_half_even x)%Z.
Proof.
  intros H.
  assert (Hf : (k <= Qfloor x)%Z).
  { rewrite <- (Qfloor_Z k). now apply Qfloor_resp_le. }
  unfold Py.round_half_even.
  destruct (x - inject_Z (Qfloor x) ?= 1 # 2); [destruct (Z.even _)| |]; lia.
Qed.

Lemma round_half_even_le (x : Q) (k : Z) :
  x <= inject_Z k -> (Py.round_half_even x <= k)%Z.
Proof.
  intros H.
  assert (Hf : (Qfloor x <= k)%Z).
  { rewrite <- (Qfloor_Z k). now apply Qfloor_resp_le. }
  assert (Hstrict : 0 < x - inject_Z (Qfloor x) -> (Qfloor x + 1 <= k)%Z).
  { intros Hpos.
    assert (Hlt : inject_Z (Qfloor x) < inject_Z k) by lra.
    rewrite <- Zlt_Qlt in Hlt. lia. }
  unfold Py.round_half_even.
  destruct (x - inject_Z (Qfloor x) ?= 1 # 2) eqn:E.
  - apply Qeq_alt in E. destruct (Z.even _); [lia|]. apply Hstrict. lra.
  - lia.
  - apply Qgt_alt in E. apply Hstrict. lra.
Qed.

Lemma pow10_pos (n : nat) : 0 < inject_Z (10 ^ Z.of_nat n).
Proof.
  replace 0 with (inject_Z 0) by reflexivity. rewrite <- Zlt_Qlt.
  apply Z.pow_pos_nonneg; lia.
Qed.

(** [round] never crosses a value that is itself on the grid. *)
Lemma round_ge_grid (x : Q) (n : nat) (k : Z) :
  inject_Z k / inject_Z (10 ^ Z.of_nat n) <= x ->
  inject_Z k / inject_Z (10 ^ Z.of_nat n) <= Py.round x n.
Proof.
  intros H. unfold Py.round.
  pose proof (pow10_pos n) as Hp.
  set (p := inject_Z (10 ^ Z.of_nat n)) in *.
  assert (E : inject_Z k / p * p == inject_Z k) by (field; lra).
  assert (Hk : inject_Z k <= x * p).
  { rewrite <- E. apply Qmult_le_compat_r; [exact H | lra]. }
  apply Qle_shift_div_l; [exact Hp|].
  rewrite E, <- Zle_Qle. now apply round_half_even_ge.
Qed.

Lemma round_le_grid (x : Q) (n : nat) (k : Z) :
  x <= inject_Z k / inject_Z (10 ^ Z.of_nat n) ->
  Py.round x n <= inject_Z k / inject_Z (10 ^ Z.of_nat n).
Proof.
  intros H. unfold Py.round.
  pose proof (pow10_pos n) as Hp.
  set (p := inject_Z (10 ^ Z.of_nat n)) in *.
  assert (E : inject_Z k / p * p == inject_Z k) by (field; lra).
  assert (Hk : x * p <= inject_Z k).
  { rewrite <- E. apply Qmult_le_compat_r; [exact H | lra]. }
  apply Qle_shift_div_r; [exact Hp|].
  rewrite E, <- Zle_Qle. now apply round_half_even_le.
Qed.

Lemma round_half_even_mono (x y : Q) :
  x <= y -> (Py.round_half_even x <= Py.round_half_even y)%Z.
Proof.
  intros Hxy.
  pose proof (Qfloor_resp_le x y Hxy) as Hfl.
  destruct (Z.eq_dec (Qfloor x) (Qfloor y)) as [Ef|Ef].
  - unfold Py.round_half_even. rewrite <- Ef.
    destruct (x - inject_Z (Qfloor x) ?= 1 # 2) eqn:Ex;
      destruct (y - inject_Z (Qfloor x) ?= 1 # 2) eqn:Ey;
      cbv iota; try (destruct (Z.even (Qfloor x))); try lia;
      exfalso;
      first [apply Qeq_alt in Ex | apply Qlt_alt in Ex | apply Qgt_alt in Ex];
      first [apply Qeq_alt in Ey | apply Qlt_alt in Ey | apply Qgt_alt in Ey];
      lra.
  - assert (Hlt : (Qfloor x + 1 <= Qfloor y)%Z) by lia.
    assert (H1 : (Py.round_half_even x <= Qfloor x + 1)%Z).
    { apply round_half_even_le. apply Qlt_le_weak, Qlt_floor. }
    assert (H2 : (Qfloor y <= Py.round_half_even y)%Z).
    { apply round_half_even_ge. apply Qfloor_le. }
    lia.
Qed.

Lemma round_mono (x y : Q) (n : nat) : x <= y -> Py.round x n <= Py.round y n.
Proof.
  intros Hxy. unfold Py.round.
  pose proof (pow10_pos n) as Hp.
  set (p := inject_Z (10 ^ Z.of_nat n)) in *.
  apply Qmult_le_compat_r; [|apply Qlt_le_weak, Qinv_lt_0_compat, Hp].
  rewrite <- Zle_Qle. apply round_half_even_mono.
  apply Qmult_le_compat_r; [exact Hxy | now apply Qlt_le_weak].
Qed.

Lemma Qmax_mono (a x y : Q) : x <= y -> Py.Qmax a x <= Py.Qmax a y.
Proof.
  intros Hxy. unfold Py.Qmax.
  destruct (Qle_bool a x) eqn:E1, (Qle_bool a y) eqn:E2;
    try apply Qle_bool_iff in E1; try apply Qle_bool_iff in E2.
  - exact Hxy.
  - exfalso. assert (H : a <= y) by (eapply Qle_trans; eassumption).
    apply Qle_bool_iff in H. congruence.
  - exact E2.
  - apply Qle_refl.
Qed.

Lemma Qmin_mono (a x y : Q) : x <= y -> Py.Qmin a x <= Py.Qmin a y.
Proof.
  intros Hxy. unfold Py.Qmin.
  destruct (Qle_bool a x) eqn:E1, (Qle_bool a y) eqn:E2;
    try apply Qle_bool_iff in E1; try apply Qle_bool_iff in E2.
  - apply Qle_refl.
  - exfalso. assert (H : a <= y) by (eapply Qle_trans; eassumption).
    apply Qle_bool_iff in H. congruence.
  - apply Qlt_le_weak, Qnot_le_lt. intros H.
    apply Qle_bool_iff in H. congruence.
  - exact Hxy.
Qed.

End PyFacts.

(** ** Facts about [DECIMAL] columns *)

Module DecimalFacts.

Import Schema.
Local Open Scope Q_scope.

Lemma Qle_bool_gt (a b : Q) : Qle_bool a b = false -> b < a.
Proof.
  intros E. apply Qnot_le_lt. intros H. apply Qle_bool_iff in H. congruence.
Qed.

Lemma Qfloor_nonneg (x : Q) : 0 <= x -> (0 <= Qfloor x)%Z.
Proof. intros H. rewrite <- (Qfloor_Z 0). now apply Qfloor_resp_le. Qed.

Lemma Qfloor_half (n : Z) : Qfloor (inject_Z n + (1 # 2)) = n.
Proof.
  pose proof (Qfloor_le (inject_Z n + (1 # 2))) as Hlo.
  pose proof (Qlt_floor (inject_Z n + (1 # 2))) as Hhi.
  set (f := Qfloor (inject_Z n + (1 # 2))) in *.
  rewrite inject_Z_plus in Hhi.
  assert (H1 : inject_Z f < inject_Z (n + 1)).
  { rewrite inject_Z_plus. change (inject_Z 1) with 1. lra. }
  assert (H2 : inject_Z n < inject_Z (f + 1)).
  { rewrite inject_Z_plus. change (inject_Z 1) with 1 in *. lra. }
  rewrite <- Zlt_Qlt in H1, H2. lia.
Qed.

Lemma round_half_away_comp (x y : Q) :
  x == y -> round_half_away x = round_half_away y.
Proof.
  intros E. unfold round_half_away.
  assert (E1 : Qle_bool 0 x = Qle_bool 0 y).
  { destruct (Qle_bool 0 x) eqn:Ex, (Qle_bool 0 y) eqn:Ey; try reflexivity.
    - apply Qle_bool_iff in Ex. apply Qle_bool_gt in Ey. lra.
    - apply Qle_bool_gt in Ex. apply Qle_bool_iff in Ey. lra. }
  rewrite E1. destruct (Qle_bool 0 y).
  - apply Qfloor_comp. lra.
  - f_equal. apply Qfloor_comp. lra.
Qed.

Lemma round_half_away_mono (x y : Q) :
  x <= y -> (round_half_away x <= round_half_away y)%Z.
Proof.
  intros Hxy. unfold round_half_away.
  destruct (Qle_bool 0 x) eqn:Ex, (Qle_bool 0 y) eqn:Ey.
  - apply Qfloor_resp_le. lra.
  - apply Qle_bool_iff in Ex. apply Qle_bool_gt in Ey. lra.
  - apply Qle_bool_gt in Ex. apply Qle_bool_iff in Ey.
    assert (H1 : (0 <= Qfloor ((1 # 2) - x))%Z) by (apply Qfloor_nonneg; lra).
    assert (H2 : (0 <= Qfloor (y + (1 # 2)))%Z) by (apply Qfloor_nonneg; lra).
    lia.
  - assert (H : (Qfloor ((1 # 2) - y) <= Qfloor ((1 # 2) - x))%Z)
      by (apply Qfloor_resp_le; lra).
    lia.
Qed.

Lemma round_half_away_Z (n : Z) : round_half_away (inject_Z n) = n.
Proof.
  unfold round_half_away. destruct (Qle_bool 0 (inject_Z n)).
  - apply Qfloor_half.
  - assert (E : (1 # 2) - inject_Z n == inject_Z (- n) + (1 # 2)).
    { rewrite inject_Z_opp. ring. }
    rewrite (Qfloor_comp _ _ E), Qfloor_half. lia.
Qed.

Lemma round_half_away_nonneg (x : Q) : 0 <= x -> (0 <= round_half_away x)%Z.
Proof.
  intros H. change 0%Z with (round_half_away (inject_Z 0)) at 1.
  - now apply round_half_away_mono.
Qed.

(** The rounded value is within one half of the value. *)
Lemma round_half_away_near (x : Q) :
  x - (1 # 2) <= inject_Z (round_half_away x)
  /\ inject_Z (round_half_away x) <= x + (1 # 2).
Proof.
  unfold round_half_away. destruct (Qle_bool 0 x).
  - pose proof (Qfloor_le (x + (1 # 2))) as Hlo.
    pose proof (Qlt_floor (x + (1 # 2))) as Hhi.
    rewrite inject_Z_plus in Hhi. change (inject_Z 1) with 1 in Hhi. lra.
  - pose proof (Qfloor_le ((1 # 2) - x)) as Hlo.
    pose proof (Qlt_floor ((1 # 2) - x)) as Hhi.
    rewrite inject_Z_plus in Hhi. change (inject_Z 1) with 1 in Hhi.
    rewrite inject_Z_opp. lra.
Qed.

Lemma to_decimal_mono (s : nat) (x y : Q) :
  x <= y -> (to_decimal s x <= to_decimal s y)%Z.
Proof.
  intros H. apply round_half_away_mono.
  apply Qmult_le_compat_r; [exact H | apply Qlt_le_weak, PyFacts.pow10_pos].
Qed.

Lemma to_decimal_nonneg (s : nat) (x : Q) : 0 <= x -> (0 <= to_decimal s x)%Z.
Proof.
  intros H. apply round_half_away_nonneg.
  apply Qmult_le_0_compat; [exact H | apply Qlt_le_weak, PyFacts.pow10_pos].
Qed.

Lemma to_of_decimal (s : nat) (n : Z) : to_decimal s (of_decimal s n) = n.
Proof.
  unfold to_decimal, of_decimal.
  pose proof (PyFacts.pow10_pos s) as Hp.
  assert (E : inject_Z n / inject_Z (10 ^ Z.of_nat s) * inject_Z (10 ^ Z.of_nat s)
              == inject_Z n) by (field; lra).
  rewrite (round_half_away_comp _ _ E). apply round_half_away_Z.
Qed.

Lemma of_decimal_mono (s : nat) (n m : Z) :
  (n <= m)%Z -> of_decimal s n <= of_decimal s m.
Proof.
  intros H. unfold of_decimal.
  apply Qmult_le_compat_r;
    [now rewrite <- Zle_Qle
    |apply Qlt_le_weak, Qinv_lt_0_compat, PyFacts.pow10_pos].
Qed.

Lemma of_decimal_nonneg (s : nat) (n : Z) : (0 <= n)%Z -> 0 <= of_decimal s n.
Proof.
  intros H. apply Qle_trans with (of_decimal s 0).
  - unfold of_decimal. apply Qle_shift_div_l; [apply PyFacts.pow10_pos|].
    rewrite Qmult_0_l. apply Qle_refl.
  - now apply of_decimal_mono.
Qed.

Lemma DECIMAL_mono (s : nat) (x y : Q) : x <= y -> DECIMAL s x <= DECIMAL s y.
Proof. intros H. apply of_decimal_mono, to_decimal_mono, H. Qed.

(** A stored value is stored again as it is. *)
Lemma DECIMAL_stored (s : nat) (n : Z) : DECIMAL s (of_decimal s n) = of_decimal s n.
Proof. unfold DECIMAL. now rewrite to_of_decimal. Qed.

(** Rounding to [s] decimals moves a value by at most half a unit of
    the last decimal. *)
Lemma DECIMAL_near (s : nat) (x : Q) :
  x - (1 # 2) / inject_Z (10 ^ Z.of_nat s) <= DECIMAL s x
  /\ DECIMAL s x <= x + (1 # 2) / inject_Z (10 ^ Z.of_nat s).
Proof.
  unfold DECIMAL, of_decimal, to_decimal.
  pose proof (PyFacts.pow10_pos s) as Hp.
  set (p := inject_Z (10 ^ Z.of_nat s)) in *.
  destruct (round_half_away_near (x * p)) as [Hlo Hhi].
  set (r := inject_Z (round_half_away (x * p))) in *. clearbody r p.
  split.
  - apply Qle_shift_div_l; [exact Hp|].
    assert (E : (x - (1 # 2) / p) * p == x * p - (1 # 2)) by (field; lra).
    rewrite E. exact Hlo.
  - apply Qle_shift_div_r; [exact Hp|].
    assert (E : (x + (1 # 2) / p) * p == x * p + (1 # 2)) by (field; lra).
    rewrite E. exact Hhi.
Qed.

Lemma DECIMAL_2_near (x : Q) :
  x - (1 # 200) <= DECIMAL 2 x /\ DECIMAL 2 x <= x + (1 # 200).
Proof.
  destruct (DECIMAL_near 2 x) as [Hlo Hhi].
  change ((1 # 2) / inject_Z (10 ^ Z.of_nat 2)) with ((1 # 2) / 100) in *.
  assert (E : (1 # 2) / 100 == 1 # 200) by reflexivity.
  rewrite E in Hlo, Hhi. split; assumption.
Qed.

Lemma DECIMAL_1_near (x : Q) :
  x - (1 # 20) <= DECIMAL 1 x /\ DECIMAL 1 x <= x + (1 # 20).
Proof.
  destruct (DECIMAL_near 1 x) as [Hlo Hhi].
  change ((1 # 2) / inject_Z (10 ^ Z.of_nat 1)) with ((1 # 2) / 10) in *.
  assert (E : (1 # 2) / 10 == 1 # 20) by reflexivity.
  rewrite E in Hlo, Hhi. split; assumption.
Qed.

(** A value that has the scale of the column is stored as it is. *)
Lemma DECIMAL_grid (s : nat) (x : Q) (n : Z) :
  x == of_decimal s n -> DECIMAL s x == x.
Proof.
  intros E. unfold DECIMAL, to_decimal.
  assert (E' : x * inject_Z (10 ^ Z.of_nat s)
               == of_decimal s n * inject_Z (10 ^ Z.of_nat s)).
  { rewrite E. reflexivity. }
  rewrite (round_half_away_comp _ _ E').
  fold (to_decimal s (of_decimal s n)). rewrite to_of_decimal.
  symmetry. exact E.
Qed.

Lemma of_decimal_plus (s : nat) (n m : Z) :
  of_decimal s (n + m) == of_decimal s n + of_decimal s m.
Proof.
  unfold of_decimal. rewrite inject_Z_plus.
  pose proof (PyFacts.pow10_pos s). field. lra.
Qed.

End DecimalFacts.
(** ** The embedding against the repository's own examples *)

Module SourceExamples.

Import SessionUtils Scenarios.
Local Open Scope Q_scope.

(** The assertions in the [__main__] block of [forex_utils.py]. *)
Example get_pip_value_assertions :
  ForexUtils.get_pip_value "EURUSD" == 0.0001
  /\ ForexUtils.get_pip_value "USDJPY" == 0.01
  /\ ForexUtils.get_pip_value "GBPJPY" == 0.01
  /\ ForexUtils.get_pip_value "audusd" == 0.0001
  /\ ForexUtils.get_pip_value "XAUUSD" == 1.00
  /\ ForexUtils.get_pip_value "XAGUSD" == 0.01.
Proof. vm_compute. repeat split; reflexivity. Qed.

(** The docstring of [get_pip_value_in_usd]: about 6.37 for JPY quotes,
    6.94 for CAD, 12.60 for GBP, 6.20 for AUD, 5.80 for NZD. *)
Example get_pip_value_in_usd_docstring :
  ForexUtils.get_pip_value_in_usd "EURUSD" == 10.00
  /\ ForexUtils.get_pip_value_in_usd "USDJPY" == 6.37
  /\ ForexUtils.get_pip_value_in_usd "USDCAD" == 6.94
  /\ ForexUtils.get_pip_value_in_usd "EURGBP" == 12.60
  /\ ForexUtils.get_pip_value_in_usd "EURAUD" == 6.20
  /\ ForexUtils.get_pip_value_in_usd "GBPNZD" == 5.80
  /\ ForexUtils.get_pip_value_in_usd "XAUUSD" == 100.00
  /\ ForexUtils.get_pip_value_in_usd "XAGUSD" == 50.00.
Proof. vm_compute. repeat split; reflexivity. Qed.

(** [round] goes to the nearest value, ties to even. *)
Example round_examples :
  Py.round 14.94 1 == 14.9 /\ Py.round 14.96 1 == 15.0
  /\ Py.round 0.125 2 == 0.12 /\ Py.round 0.375 2 == 0.38
  /\ Py.round (-2.5) 0 == -2.
Proof. vm_compute. repeat split; reflexivity. Qed.

(** The docstring of [get_session_times_for_date]: London opens at 08:00
    UTC in January and at 07:00 UTC in July; New York at 14:30 and 13:30;
    the Asian open stays at 01:00. *)
Example session_times_winter_summer :
  let winter := get_session_times_for_date (mk_date 2024 1 15) in
  let summer := get_session_times_for_date (mk_date 2024 7 15) in
  (si_hour <$> winter !! "London_Open"%string) = Some 8%Z
  /\ (si_hour <$> summer !! "London_Open"%string) = Some 7%Z
  /\ (winter !! "NY_Open"%string)
     = Some {| si_hour := 14; si_minute := 30; si_name := "NY Open" |}
  /\ (summer !! "NY_Open"%string)
     = Some {| si_hour := 13; si_minute := 30; si_name := "NY Open" |}
  /\ (si_hour <$> winter !! "Asian_Open"%string) = Some 1%Z
  /\ (si_hour <$> summer !! "Asian_Open"%string) = Some 1%Z.
Proof. vm_compute. repeat split; reflexivity. Qed.

(** The calendar: 2024-03-10 is a Sunday and day 738955 of the
    proleptic Gregorian calendar; adding a day crosses the end of
    February and the end of the year correctly. *)
Example calendar_examples :
  weekday (mk_date 2024 3 10) = 6%Z
  /\ toordinal (mk_date 2024 3 10) = 738955%Z
  /\ add_days (mk_date 2024 2 28) 1 = mk_date 2024 2 29
  /\ add_days (mk_date 2023 2 28) 1 = mk_date 2023 3 1
  /\ add_days (mk_date 2024 12 31) 1 = mk_date 2025 1 1
  /\ PriceStream.fromtimestamp_ms 1710050400000 = Some (at_time 2024 3 10 6 0)
  /\ PriceStream.fromtimestamp_ms 253402300800000 = None.
Proof. vm_compute. repeat split; reflexivity. Qed.

(** Friday after the New York open: the next session is Monday's Asian
    open (the fallback of [_get_next_session]). *)
Example next_session_friday_evening :
  Scheduler._get_next_session (at_time 2024 3 8 20 0)
  = Some ("Asian_Open"%string, at_time 2024 3 11 1 0).
Proof. vm_compute. reflexivity. Qed.

(** Scenario S2: ticks with mids 1.1000, 1.1030, 1.1051, 1.1020 against
    the long alert with TP 1.1050 and SL 1.0950.  The third tick triggers
    TP at 1.1051, once; the fourth tick delivers nothing. *)
Example s2_ticks :
  let feed s px := PriceStream._check_alerts s "EURUSD" (quote_at "EURUSD" px) in
  let s1 := feed ready_stream 1.1000 in
  let s2 := feed (fst s1) 1.1030 in
  let s3 := feed (fst s2) 1.1051 in
  let s4 := feed (fst s3) 1.1020 in
  snd s1 = [] /\ snd s2 = []
  /\ (PriceStream.trigger_type <$> snd s3) = [Some PriceStream.TP]
  /\ (PriceStream.trigger_price <$> snd s3) = [Some (PriceStream.mid (quote_at "EURUSD" 1.1051))]
  /\ snd s4 = [].
Proof. vm_compute. repeat split; reflexivity. Qed.

(** A [DECIMAL(_, 2)] column rounds to the cent, ties away from zero.
    Scenario S4 closed by timeout books a net profit of 87.913 dollars:
    the balance read back is 10087.91, and 10175.82 after a second
    close. *)
Example balance_to_the_cent :
  let close db :=
    fst (TradeExecutor.close_trade Config.default_settings db "s4" 149.85
           Schema.TIMEOUT false (at_time 2025 12 29 12 0)) in
  Schema.DECIMAL 2 0.125 == 0.13 /\ Schema.DECIMAL 2 (-0.125) == -0.13
  /\ Schema.DECIMAL 2 87.913 == 87.91
  /\ (Schema.balance <$> Schema.account (close (db_with s4_position)))
     = Some (Schema.of_decimal 2 1008791)
  /\ (Schema.balance <$> Schema.account (close (close (db_with s4_position))))
     = Some (Schema.of_decimal 2 1017582).
Proof. vm_compute. repeat split; reflexivity. Qed.

(** [NOW() - INTERVAL '6 months'] at the end of a month. *)
Example six_months_before_examples :
  TradeExecutor.six_months_before (at_time 2025 12 2 12 0) = at_time 2025 6 2 12 0
  /\ TradeExecutor.six_months_before (at_time 2025 8 31 9 0) = at_time 2025 2 28 9 0
  /\ TradeExecutor.six_months_before (at_time 2024 8 31 9 0) = at_time 2024 2 29 9 0
  /\ TradeExecutor.six_months_before (at_time 2025 3 15 9 0) = at_time 2024 9 15 9 0.
Proof. vm_compute. repeat split; reflexivity. Qed.

End SourceExamples.

(** ** The risk engine *)

Module RiskEngineFacts.
Import Schema RiskEngine RiskSpec Scenarios.
Local Open Scope Q_scope.

Lemma get_pip_value_pos (pair : string) : 0 < ForexUtils.get_pip_value pair.
Proof.
  unfold ForexUtils.get_pip_value.
  repeat match goal with |- context [if ?c then _ else _] => destruct c end;
    reflexivity.
Qed.

Section WithSettings.
Variable settings : Config.Settings.

Lemma calculate_tp_sl_floor entry direction pair targets tpp slp tp sl tp_pips sl_pips :
  calculate_tp_sl settings entry direction pair targets tpp slp
    = (tp, sl, tp_pips, sl_pips) ->
  5 <= tp_pips /\ 5 <= sl_pips.
Proof.
  unfold calculate_tp_sl.
  destruct (String.eqb direction "BULLISH"); intros [= <- <- <- <-];
    split;
    match goal with
    | |- _ <= Py.Qmax ?a ?b => pose proof (PyFacts.Qmax_ge_r a b); lra
    end.
Qed.

Lemma calculate_tp_sl_sides entry direction pair targets tpp slp tp sl tp_pips sl_pips :
  calculate_tp_sl settings entry direction pair targets tpp slp
    = (tp, sl, tp_pips, sl_pips) ->
  (direction = "BULLISH"%string -> sl < entry /\ entry < tp)
  /\ (direction <> "BULLISH"%string -> tp < entry /\ entry < sl).
Proof.
  intros H. pose proof (calculate_tp_sl_floor _ _ _ _ _ _ _ _ _ _ H) as [Htp Hsl].
  pose proof (get_pip_value_pos pair) as Hpip.
  revert H. unfold calculate_tp_sl.
  destruct (String.eqb_spec direction "BULLISH") as [Hd|Hd];
    intros [= <- <- Etp Esl];
    (split; [intros Hb | intros Hb]; try congruence).
  - rewrite Etp, Esl. nra.
  - rewrite Etp, Esl. nra.
Qed.

Lemma calculate_position_size_bounds balance sl_pips pair rpct lot risk :
  on_lot_grid (Config.min_lot_size settings) ->
  on_lot_grid (Config.max_lot_size settings) ->
  Config.min_lot_size settings <= Config.max_lot_size settings ->
  calculate_position_size settings balance sl_pips pair rpct = (lot, risk) ->
  Config.min_lot_size settings <= lot /\ lot <= Config.max_lot_size settings.
Proof.
  intros [kmin Hmin] [kmax Hmax] Hle. unfold calculate_position_size.
  intros [= <- _].
  match goal with |- context [Py.round ?x 2] => set (clamped := x) end.
  assert (Hlo : Config.min_lot_size settings <= clamped).
  { apply PyFacts.Qmin_glb; [exact Hle | apply PyFacts.Qmax_ge_l]. }
  assert (Hhi : clamped <= Config.max_lot_size settings)
    by apply PyFacts.Qmin_le_l.
  split.
  - rewrite Hmin. apply PyFacts.round_ge_grid. now rewrite <- Hmin.
  - rewrite Hmax. apply PyFacts.round_le_grid. now rewrite <- Hmax.
Qed.

(** The size is the clamped size, rounded. *)
Lemma calculate_position_size_rounded balance sl_pips pair rpct lot risk :
  calculate_position_size settings balance sl_pips pair rpct = (lot, risk) ->
  Py.round (Py.Qmin (Config.max_lot_size settings)
                    (Config.min_lot_size settings)) 2 <= lot
  /\ lot <= Py.round (Config.max_lot_size settings) 2.
Proof.
  unfold calculate_position_size. intros [= <- _]. split.
  - apply PyFacts.round_mono, PyFacts.Qmin_mono, PyFacts.Qmax_ge_l.
  - apply PyFacts.round_mono, PyFacts.Qmin_le_l.
Qed.
End WithSettings.

(** C5 (as stated, refuted).  The lot bounds of the configuration are
    not validated and the size is rounded after it is clamped.  With a
    minimal lot of 0.004 and a balance of 10 the engine returns a lot size
    of 0.0, below the minimum; with a maximal lot of 0.126 and a balance
    of 10000 it returns 0.13, above the maximum. *)
Lemma risk_parameters_lot_bounds_counterexample :
  (exists rp,
     calculate_risk_parameters (with_lot_bounds 0.004 5.0) (sample_stats 30)
       "EURUSD" "London_Open" "BULLISH" 1.1000 10 = Some rp
     /\ lot_size rp == 0
     /\ ~ Config.min_lot_size (with_lot_bounds 0.004 5.0) <= lot_size rp)
  /\ (exists rp,
        calculate_risk_parameters (with_lot_bounds 0.01 0.126) (sample_stats 30)
          "EURUSD" "London_Open" "BULLISH" 1.1000 10000 = Some rp
        /\ lot_size rp == 0.13
        /\ ~ lot_size rp <= Config.max_lot_size (with_lot_bounds 0.01 0.126)).
Proof.
  split; eexists; (split; [vm_compute; reflexivity|]);
    (split; [vm_compute; reflexivity|]); vm_compute; intros H; now apply H.
Qed.

(** C5 (amended).  Every [RiskParameters] value returned by
    [calculate_risk_parameters] has [tp_pips >= 5.0], [sl_pips >= 5.0]
    and its prices on the right sides of the entry: for BULLISH
    [take_profit > entry_price > stop_loss], for BEARISH
    [take_profit < entry_price < stop_loss].  Its lot size is the clamped
    size rounded to two decimals: it lies between the rounded smaller
    bound and the rounded maximal lot, and between the configured minimum
    and maximum themselves when these are ordered and lie on the 0.01
    grid, as the defaults 0.01 and 5.0 do. *)
Theorem risk_parameters_bounds (settings : Config.Settings) (db : Database)
    (pair session_name direction : string) (entry_price balance : Q)
    (rp : RiskParameters) :
  calculate_risk_parameters settings db pair session_name direction
    entry_price balance = Some rp ->
  5.0 <= tp_pips rp
  /\ 5.0 <= sl_pips rp
  /\ Py.round (Py.Qmin (Config.max_lot_size settings)
                       (Config.min_lot_size settings)) 2 <= lot_size rp
  /\ lot_size rp <= Py.round (Config.max_lot_size settings) 2
  /\ (on_lot_grid (Config.min_lot_size settings) ->
      on_lot_grid (Config.max_lot_size settings) ->
      Config.min_lot_size settings <= Config.max_lot_size settings ->
      Config.min_lot_size settings <= lot_size rp
      /\ lot_size rp <= Config.max_lot_size settings)
  /\ (RiskEngine.direction rp = "BULLISH"%string ->
      RiskEngine.entry_price rp < take_profit rp
      /\ stop_loss rp < RiskEngine.entry_price rp)
  /\ (RiskEngine.direction rp = "BEARISH"%string ->
      take_profit rp < RiskEngine.entry_price rp
      /\ RiskEngine.entry_price rp < stop_loss rp).
Proof.
  unfold calculate_risk_parameters.
  destruct (get_percentiles db pair session_name) as [targets|]; [|discriminate].
  destruct (sample_count targets <? 30)%Z; [discriminate|].
  destruct (calculate_tp_sl settings entry_price direction pair targets None None)
    as [[[tp sl] tpp] slp] eqn:Etp.
  destruct (calculate_position_size settings balance slp pair None)
    as [lot risk] eqn:Elot.
  intros [= <-]. cbn.
  pose proof (calculate_tp_sl_floor _ _ _ _ _ _ _ _ _ _ _ Etp) as [Htp Hsl].
  pose proof (calculate_tp_sl_sides _ _ _ _ _ _ _ _ _ _ _ Etp) as [Hbull Hbear].
  pose proof (calculate_position_size_rounded _ _ _ _ _ _ _ Elot) as [Hlo Hhi].
  refine (conj _ (conj _ (conj Hlo (conj Hhi (conj _ (conj _ _)))))).
  - lra.
  - lra.
  - intros Hmin Hmax Hle.
    exact (calculate_position_size_bounds _ _ _ _ _ _ _ Hmin Hmax Hle Elot).
  - intros Hd. split; now apply Hbull.
  - intros Hd. split; apply Hbear; congruence.
Qed.

Lemma risk_parameters_bounds_witness :
  exists rp,
    calculate_risk_parameters Config.default_settings (sample_stats 30)
      "EURUSD" "London_Open" "BULLISH" 1.1000 10000 = Some rp
    /\ 5.0 <= tp_pips rp
    /\ 5.0 <= sl_pips rp
    /\ 0.01 <= lot_size rp
    /\ lot_size rp <= 5.0
    /\ RiskEngine.entry_price rp < take_profit rp
    /\ stop_loss rp < RiskEngine.entry_price rp.
Proof.
  eexists. split; [vm_compute; reflexivity|].
  destruct (risk_parameters_bounds Config.default_settings (sample_stats 30)
              "EURUSD" "London_Open" "BULLISH" 1.1000 10000 _ eq_refl)
    as (H1 & H2 & _ & _ & H3 & H5 & _).
  destruct (H3 (ex_intro _ 1%Z eq_refl) (ex_intro _ 500%Z eq_refl)
              ltac:(vm_compute; discriminate)) as [H3a H3b].
  destruct (H5 eq_refl) as [H6 H7].
  repeat split; assumption.
Defined.
End RiskEngineFacts.

(** ** The trade executor: opening and closing positions *)

Module TradeExecutorFacts.

Import SessionUtils Schema TradeExecutor Scenarios.
Local Open Scope Q_scope.

Section WithSettings.

Variable settings : Config.Settings.

Lemma calculate_exit_slippage_value (is_stop : bool) :
  calculate_exit_slippage is_stop == if is_stop then 0.5 else 0.1.
Proof. destruct is_stop; vm_compute; reflexivity. Qed.

Lemma close_trade_found db tid px outcome is_stop now trade :
  trades db !! tid = Some trade ->
  exists db' result,
    close_trade settings db tid px outcome is_stop now = (db', Some result)
    /\ account db'
       = account (update_account_balance settings db
                    (net_pnl_dollars (exit_figures settings trade px is_stop))
                    outcome now)
    /\ tx_slippage_pips result
       = slippage_pips (exit_figures settings trade px is_stop)
    /\ tx_pnl_pips result
       = Py.round (pnl_pips (exit_figures settings trade px is_stop)) 1
    /\ tx_pnl_dollars result
       = Py.round (net_pnl_dollars (exit_figures settings trade px is_stop)) 2
    /\ tx_commission result
       = Py.round (commission (exit_figures settings trade px is_stop)) 2.
Proof.
  intros H. unfold close_trade. rewrite H.
  eexists _, _. split; [reflexivity|]. cbn. repeat split; reflexivity.
Qed.

Lemma close_trade_missing db tid px outcome is_stop now :
  trades db !! tid = None ->
  close_trade settings db tid px outcome is_stop now = (db, None).
Proof. intros H. unfold close_trade. now rewrite H. Qed.

(** Closing rewrites only outcome columns: what [exit_figures] reads
    of the row is the same before and after. *)
Lemma close_trade_keeps_entry db tid px outcome is_stop now trade :
  trades db !! tid = Some trade ->
  exists trade',
    trades (fst (close_trade settings db tid px outcome is_stop now)) !! tid
    = Some trade'
    /\ t_outcome trade' = Some outcome
    /\ t_exit_price trade' = Some px
    /\ t_verified_at trade' = Some now
    /\ forall px' is_stop',
         exit_figures settings trade' px' is_stop'
         = exit_figures settings trade px' is_stop'.
Proof.
  intros H. unfold close_trade. rewrite H. cbn.
  rewrite lookup_insert_eq. eexists. split; [reflexivity|].
  cbn. repeat split; reflexivity.
Qed.

End WithSettings.




(** C6.  [close_trade] computes the P/L as specified: the slippage is
    0.5 pip on a stop exit and 0.1 pip otherwise; the pip movement is
    (exit - entry) / pip value for a BULLISH position and
    (entry - exit) / pip value for a BEARISH one, minus the slippage; the
    net cash P/L credited to the account is pips times the pip value in
    USD times the lot size, minus the roundtrip commission
    2 x commission_per_lot x lot size; the returned record carries these
    figures rounded.  For scenario S4 (short USDJPY from 150.00, exit at
    149.85, not a stop exit) the P/L is 14.9 pips. *)
Theorem close_trade_pnl (settings : Config.Settings) (db : Database)
    (trade_id : string) (exit_price : Q) (outcome : Outcome)
    (is_stop_exit : bool) (now : datetime) (trade : Trade) :
  trades db !! trade_id = Some trade ->
  let f := exit_figures settings trade exit_price is_stop_exit in
  let pip := ForexUtils.get_pip_value (t_pair trade) in
  (slippage_pips f == if is_stop_exit then 0.5 else 0.1)
  /\ (t_prediction trade = "BULLISH"%string ->
      pnl_pips f == (exit_price - t_entry_price trade) / pip - slippage_pips f)
  /\ (t_prediction trade = "BEARISH"%string ->
      pnl_pips f == (t_entry_price trade - exit_price) / pip - slippage_pips f)
  /\ net_pnl_dollars f
     == pnl_pips f * ForexUtils.get_pip_value_in_usd (t_pair trade)
        * t_lot_size trade
        - 2 * Config.commission_per_lot settings * t_lot_size trade
  /\ (exists db' result,
        close_trade settings db trade_id exit_price outcome is_stop_exit now
        = (db', Some result)
        /\ tx_slippage_pips result = slippage_pips f
        /\ tx_pnl_pips result = Py.round (pnl_pips f) 1
        /\ tx_pnl_dollars result = Py.round (net_pnl_dollars f) 2
        /\ account db'
           = account (update_account_balance settings db (net_pnl_dollars f)
                        outcome now))
  /\ (pnl_pips (exit_figures settings s4_position 149.85 false) == 14.9
      /\ exists db' result,
           close_trade settings (db_with s4_position) "s4" 149.85 TIMEOUT false now
           = (db', Some result)
           /\ tx_pnl_pips result == 14.9).
Proof.
  intros Hfound f pip.
  refine (conj _ (conj _ (conj _ (conj _ (conj _ (conj _ _)))))).
  - apply calculate_exit_slippage_value.
  - intros Hb. subst f pip. unfold exit_figures. rewrite Hb. reflexivity.
  - intros Hb. subst f pip. unfold exit_figures. rewrite Hb. reflexivity.
  - subst f. unfold exit_figures, calculate_commission. cbn. ring.
  - destruct (close_trade_found settings db trade_id exit_price outcome
                is_stop_exit now trade Hfound)
      as (db' & result & Hc & Hacc & Hs & Hp & Hd & _).
    exists db', result. repeat split; assumption.
  - vm_compute. reflexivity.
  - destruct (close_trade_found settings (db_with s4_position) "s4" 149.85
                TIMEOUT false now s4_position eq_refl)
      as (db' & result & Hc & _ & _ & Hp & _).
    exists db', result. split; [exact Hc|]. rewrite Hp.
    vm_compute. reflexivity.
Qed.

Lemma close_trade_pnl_witness :
  exists db' result,
    close_trade Config.default_settings (db_with s4_position) "s4" 149.85
                TIMEOUT false (at_time 2025 12 29 12 0)
    = (db', Some result)
    /\ tx_slippage_pips result == 0.1
    /\ tx_pnl_pips result == 14.9.
Proof.
  destruct (close_trade_pnl Config.default_settings (db_with s4_position) "s4"
              149.85 TIMEOUT false (at_time 2025 12 29 12 0) s4_position eq_refl)
    as (Hs & _ & _ & _ & (db' & result & Hc & Hsl & _) & _ & (db2 & r2 & Hc2 & Hp2)).
  exists db', result. split; [exact Hc|].
  rewrite Hc in Hc2. injection Hc2 as _ <-.
  split; [rewrite Hsl; exact Hs | exact Hp2].
Defined.

(** C1 (as stated, refuted).  Scenario S6: [close(p, 1.1050, WIN,
    false)] called twice.  After the first call the outcome columns are
    set; the second call processes the position again: the account
    shows 2 trades and 2 wins and the balance has moved by the net P/L
    of 492.00 a second time. *)
Lemma close_twice_counterexample :
  let close db :=
    fst (close_trade Config.default_settings db "s6" 1.1050 WIN false
           (at_time 2025 12 29 9 30)) in
  let once := close (db_with s6_position) in
  let twice := close once in
  (exists t, trades once !! "s6"%string = Some t /\ t_outcome t = Some WIN
             /\ t_exit_price t = Some 1.1050)
  /\ exists a1 a2,
       account once = Some a1 /\ account twice = Some a2
       /\ total_trades a1 = 1%Z /\ total_trades a2 = 2%Z
       /\ winning_trades a1 = 1%Z /\ winning_trades a2 = 2%Z
       /\ balance a1 == 10492 /\ balance a2 == 10984
       /\ ~ balance a2 == balance a1.
Proof.
  split.
  - eexists. split; [vm_compute; reflexivity|]. split; reflexivity.
  - eexists _, _. split; [vm_compute; reflexivity|].
    split; [vm_compute; reflexivity|].
    refine (conj eq_refl (conj eq_refl (conj eq_refl (conj eq_refl _)))).
    split; [vm_compute; reflexivity|].
    split; vm_compute; [reflexivity | discriminate].
Qed.

(** C1 (amended).  [close_trade] does not look at the outcome columns.
    Called a second time with the same arguments it processes the
    position again: it returns the same exit record, writes the outcome
    columns of the row again (the exit price, the outcome, the rounded
    P/L and commission, and the time of the second call), and the account
    goes through [update_account_balance] once more with the same net
    P/L, so that [total_trades] and the win or loss counter of the
    outcome grow by one again and the balance becomes the balance after
    the first call plus the net P/L, stored to the cent. *)
Theorem close_trade_reprocesses (settings : Config.Settings) (db : Database)
    (trade_id : string) (exit_price : Q) (outcome : Outcome)
    (is_stop_exit : bool) (now now' : datetime) (trade : Trade) :
  trades db !! trade_id = Some trade ->
  let f := exit_figures settings trade exit_price is_stop_exit in
  let net := net_pnl_dollars f in
  exists db1 db2 result a1 a2 t2,
    close_trade settings db trade_id exit_price outcome is_stop_exit now
    = (db1, Some result)
    /\ (exists t, trades db1 !! trade_id = Some t /\ t_outcome t = Some outcome)
    /\ close_trade settings db1 trade_id exit_price outcome is_stop_exit now'
       = (db2, Some result)
    /\ trades db2 !! trade_id = Some t2
    /\ t_exit_price t2 = Some exit_price
    /\ t_outcome t2 = Some outcome
    /\ t_pnl_pips t2 = Some (Py.round (pnl_pips f) 1)
    /\ t_pnl_dollars t2 = Some (Py.round net 2)
    /\ t_commission t2 = Some (Py.round (commission f) 2)
    /\ t_verified_at t2 = Some now'
    /\ account db1 = Some a1
    /\ account db2 = Some a2
    /\ total_trades a2 = (total_trades a1 + 1)%Z
    /\ balance a2 = DECIMAL 2 (balance a1 + net)
    /\ balance a1 + net - (1 # 200) <= balance a2
    /\ balance a2 <= balance a1 + net + (1 # 200)
    /\ winning_trades a2
       = (winning_trades a1 + match outcome with WIN => 1 | _ => 0 end)%Z
    /\ losing_trades a2
       = (losing_trades a1 + match outcome with LOSS => 1 | _ => 0 end)%Z.
Proof.
  intros Hfound f net.
  destruct (close_trade_keeps_entry settings db trade_id exit_price outcome
              is_stop_exit now trade Hfound)
    as (trade' & Hfound' & Hout & _ & _ & Hsame).
  unfold close_trade at 1 in Hfound'. unfold close_trade at 1.
  rewrite Hfound in Hfound' |- *. cbn [fst] in Hfound'.
  eexists _, _, _, _, _, _. split; [reflexivity|].
  split; [exists trade'; split; [exact Hfound' | exact Hout]|].
  unfold close_trade. rewrite Hfound'. rewrite !Hsame.
  split; [reflexivity|].
  cbn [trades set_trades account set_account update_account_balance].
  rewrite lookup_insert_eq.
  refine (conj eq_refl (conj eq_refl (conj eq_refl (conj eq_refl (conj eq_refl
            (conj eq_refl (conj eq_refl (conj eq_refl (conj eq_refl (conj eq_refl
            (conj eq_refl (conj _ (conj _ (conj eq_refl eq_refl)))))))))))))).
  - apply DecimalFacts.DECIMAL_2_near.
  - apply DecimalFacts.DECIMAL_2_near.
Qed.

Lemma close_trade_reprocesses_witness :
  exists db1 db2 a1 a2,
    fst (close_trade Config.default_settings (db_with s6_position) "s6" 1.1050
           WIN false (at_time 2025 12 29 9 30)) = db1
    /\ fst (close_trade Config.default_settings db1 "s6" 1.1050
              WIN false (at_time 2025 12 29 9 31)) = db2
    /\ account db1 = Some a1 /\ account db2 = Some a2
    /\ total_trades a2 = (total_trades a1 + 1)%Z.
Proof.
  destruct (close_trade_reprocesses Config.default_settings (db_with s6_position)
              "s6" 1.1050 WIN false (at_time 2025 12 29 9 30)
              (at_time 2025 12 29 9 31) s6_position eq_refl)
    as (db1 & db2 & result & a1 & a2 & t2 & H1 & _ & H2 & _ & _ & _ & _ & _ & _
        & _ & Ha1 & Ha2 & Ht & _).
  exists db1, db2, a1, a2. rewrite H1, H2. cbn [fst].
  repeat split; assumption.
Defined.

End TradeExecutorFacts.

(** ** The account invariants *)

Module AccountFacts.

Import SessionUtils Schema TradeExecutor AccountSpec Scenarios.
Local Open Scope Q_scope.

Section WithSettings.

Variable settings : Config.Settings.

Lemma drawdown_pct_nonneg (peak new_balance : Q) :
  new_balance <= peak ->
  0 <= (if Py.Qgtb peak 0 then (peak - new_balance) / peak * 100 else 0).
Proof.
  intros Hle. destruct (Py.Qgtb peak 0) eqn:E; [|apply Qle_refl].
  apply PyFacts.Qgtb_true in E.
  apply Qmult_le_0_compat; [|discriminate].
  apply Qle_shift_div_l; [exact E | lra].
Qed.

(** One pass through [update_account_balance] establishes the peak
    and drawdown invariants, keeps the counter invariant, and does not
    lower the maximal drawdown: rounding to the cent is monotone and
    leaves a stored value as it is. *)
Lemma update_account_balance_ok (db : Database) (pnl : Q)
    (outcome : Outcome) (now : datetime) :
  account_ok db ->
  account_ok (update_account_balance settings db pnl outcome now)
  /\ drawdown_of db
     <= drawdown_of (update_account_balance settings db pnl outcome now).
Proof.
  intros Hok. unfold account_ok, drawdown_of, update_account_balance in *.
  cbn [account set_account].
  assert (Hcnt : (winning_trades
                    (match account db with
                     | Some a => a
                     | None => initial_account settings now
                     end)
                  + losing_trades
                      (match account db with
                       | Some a => a
                       | None => initial_account settings now
                       end)
                  <= total_trades
                       (match account db with
                        | Some a => a
                        | None => initial_account settings now
                        end))%Z
                 /\ (match account db with
                     | Some a => max_drawdown_pct a
                     | None => 0
                     end
                     == max_drawdown_pct
                          (match account db with
                           | Some a => a
                           | None => initial_account settings now
                           end))).
  { destruct (account db) as [a|]; cbn.
    - split; [apply Hok | reflexivity].
    - split; [lia | reflexivity]. }
  destruct Hcnt as [Hcnt Hdd].
  set (a := match account db with
            | Some a => a
            | None => initial_account settings now
            end) in *.
  clearbody a. rewrite Hdd. clear Hdd Hok.
  unfold account_invariant, balance, peak_balance, max_drawdown_pct.
  cbn [balance_hundredths peak_balance_hundredths max_drawdown_pct_hundredths
       total_trades winning_trades losing_trades].
  fold (balance a) (peak_balance a) (max_drawdown_pct a).
  refine (conj (conj _ (conj _ _)) _).
  - destruct outcome; lia.
  - apply DecimalFacts.of_decimal_mono, DecimalFacts.to_decimal_mono,
      PyFacts.Qmax_ge_r.
  - apply DecimalFacts.of_decimal_nonneg, DecimalFacts.to_decimal_nonneg.
    eapply Qle_trans; [|apply PyFacts.Qmax_ge_r].
    apply drawdown_pct_nonneg, PyFacts.Qmax_ge_r.
  - unfold max_drawdown_pct at 1.
    rewrite <- (DecimalFacts.to_of_decimal 2 (max_drawdown_pct_hundredths a)) at 1.
    fold (max_drawdown_pct a).
    apply DecimalFacts.of_decimal_mono, DecimalFacts.to_decimal_mono,
      PyFacts.Qmax_ge_l.
Qed.

Lemma close_call_ok (db : Database) (c : CloseCall) :
  account_ok db ->
  account_ok (close_call settings db c)
  /\ drawdown_of db <= drawdown_of (close_call settings db c).
Proof.
  intros Hok. unfold close_call, close_trade.
  destruct (trades db !! cc_trade_id c) as [trade|]; cbn [fst].
  - match goal with
    | |- context [update_account_balance settings ?d ?p ?o ?n] =>
        pose proof (update_account_balance_ok d p o n Hok) as H
    end.
    exact H.
  - split; [exact Hok | apply Qle_refl].
Qed.

Lemma close_all_ok (calls : list CloseCall) (db : Database) :
  account_ok db ->
  account_ok (close_all settings db calls)
  /\ drawdown_of db <= drawdown_of (close_all settings db calls).
Proof.
  revert db. induction calls as [|c calls IH]; intros db Hok; cbn.
  - split; [exact Hok | apply Qle_refl].
  - destruct (close_call_ok db c Hok) as [Hok1 Hdd1].
    destruct (IH _ Hok1) as [Hok2 Hdd2].
    split; [exact Hok2 | eapply Qle_trans; eassumption].
Qed.

Lemma close_all_app (done rest : list CloseCall) (db : Database) :
  close_all settings db (done ++ rest)
  = close_all settings (close_all settings db done) rest.
Proof. apply fold_left_app. Qed.

End WithSettings.

(** C4.  Starting from an account that satisfies the invariants (the
    seeded row, or no row yet), after any sequence of [close_trade]
    calls: [winning_trades + losing_trades <= total_trades],
    [peak_balance >= balance] and [max_drawdown_pct >= 0]; the maximal
    drawdown never decreases from one point of the sequence to a later
    one; and a TIMEOUT or BREAKEVEN close adds one to [total_trades] and
    nothing to the win and loss counters. *)
Theorem account_invariants_preserved (settings : Config.Settings)
    (db : Database) (calls : list CloseCall) :
  account_ok db ->
  account_ok (close_all settings db calls)
  /\ (forall done rest,
        calls = done ++ rest ->
        drawdown_of (close_all settings db done)
        <= drawdown_of (close_all settings db calls))
  /\ (forall c db0 trade a,
        cc_outcome c = TIMEOUT \/ cc_outcome c = BREAKEVEN ->
        trades db0 !! cc_trade_id c = Some trade ->
        account db0 = Some a ->
        exists a',
          account (close_call settings db0 c) = Some a'
          /\ total_trades a' = (total_trades a + 1)%Z
          /\ winning_trades a' = winning_trades a
          /\ losing_trades a' = losing_trades a).
Proof.
  intros Hok. refine (conj _ (conj _ _)).
  - apply close_all_ok, Hok.
  - intros done rest ->. rewrite close_all_app.
    apply close_all_ok. apply close_all_ok, Hok.
  - intros c db0 trade a Hout Htrade Hacc.
    unfold close_call, close_trade. rewrite Htrade. cbn. rewrite Hacc.
    eexists. split; [reflexivity|]. cbn.
    destruct Hout as [-> | ->]; repeat split; lia.
Qed.

Lemma account_invariants_preserved_witness :
  account_ok (close_all Config.default_settings (db_with s4_position)
                [s4_timeout; s4_stopped])
  /\ drawdown_of (close_all Config.default_settings (db_with s4_position)
                    [s4_timeout])
     <= drawdown_of (close_all Config.default_settings (db_with s4_position)
                       [s4_timeout; s4_stopped]).
Proof.
  assert (Hok : account_ok (db_with s4_position)).
  { vm_compute. repeat split; discriminate. }
  destruct (account_invariants_preserved Config.default_settings
              (db_with s4_position) [s4_timeout; s4_stopped] Hok)
    as (H1 & H2 & _).
  split; [exact H1 | exact (H2 [s4_timeout] [s4_stopped] eq_refl)].
Defined.

End AccountFacts.

(** ** The price stream: alert evaluation and disconnect *)

Module PriceStreamFacts.

Import SessionUtils PriceStream AlertSpec Scenarios.
Local Open Scope Q_scope.

Lemma Qgeb_true (a b : Q) : Py.Qgeb a b = true <-> b <= a.
Proof. unfold Py.Qgeb. apply Qle_bool_iff. Qed.

Lemma Qle_bool_false (a b : Q) : Qle_bool a b = false <-> ~ a <= b.
Proof.
  rewrite <- Qle_bool_iff. destruct (Qle_bool a b); split; intros H;
    try discriminate; try reflexivity; try (exfalso; now apply H).
Qed.

Lemma check_alerts_alerts (s : Stream) (pair : string) (quote : Quote) :
  _alerts (fst (_check_alerts s pair quote))
  = map (fun kv => (fst kv, fst (check_alert pair quote (snd kv)))) (_alerts s).
Proof. unfold _check_alerts. cbn. now rewrite map_map. Qed.

Lemma check_alerts_delivered (s : Stream) (pair : string) (quote : Quote)
    (tid : string) (alert : PriceAlert) :
  on_alert s = true ->
  In (tid, alert) (_alerts s) ->
  snd (check_alert pair quote alert) = true ->
  In (fst (check_alert pair quote alert)) (snd (_check_alerts s pair quote)).
Proof.
  intros Hcb Hin Hfired. unfold _check_alerts. cbn. rewrite Hcb.
  apply in_map_iff. exists (tid, check_alert pair quote alert).
  split; [reflexivity|]. apply filter_In. split; [|exact Hfired].
  apply in_map_iff. exists (tid, alert). split; [reflexivity | exact Hin].
Qed.

(** What one pass of the loop does to an untriggered alert of the
    quoted pair. *)
Lemma check_alert_untriggered (pair : string) (quote : Quote) (alert : PriceAlert) :
  PriceStream.pair alert = pair ->
  triggered alert = false ->
  match trigger_for alert (mid quote) with
  | Some k =>
      snd (check_alert pair quote alert) = true
      /\ fired (fst (check_alert pair quote alert)) k
      /\ trigger_price (fst (check_alert pair quote alert)) = Some (mid quote)
      /\ trigger_time (fst (check_alert pair quote alert)) = Some (timestamp quote)
  | None => check_alert pair quote alert = (alert, false)
  end.
Proof.
  intros Hp Ht. unfold check_alert. rewrite Hp, Ht, String.eqb_refl. cbn.
  destruct (trigger_for alert (mid quote)); cbn; [|reflexivity].
  repeat split; reflexivity.
Qed.

(** C3.  For a quote on a pair and every untriggered alert on that
    pair, after [_check_alerts]: a BULLISH (long) alert is triggered as
    TP exactly when mid >= take_profit, and as SL exactly when
    mid <= stop_loss and TP was not hit; a BEARISH (short) alert is
    mirrored.  TP is tested first: a quote whose mid crosses both levels
    triggers TP and not SL.  A triggered alert carries the mid as
    trigger price and the quote's timestamp, and is handed to the
    callback. *)
Theorem check_alerts_rule (s : Stream) (pair : string) (quote : Quote)
    (tid : string) (alert : PriceAlert) :
  In (tid, alert) (_alerts s) ->
  PriceStream.pair alert = pair ->
  triggered alert = false ->
  let price := mid quote in
  let alert' := fst (check_alert pair quote alert) in
  In (tid, alert') (_alerts (fst (_check_alerts s pair quote)))
  /\ (direction alert = "BULLISH"%string ->
      (fired alert' TP <-> take_profit alert <= price)
      /\ (fired alert' SL <->
          price <= stop_loss alert /\ ~ take_profit alert <= price))
  /\ (direction alert = "BEARISH"%string ->
      (fired alert' TP <-> price <= take_profit alert)
      /\ (fired alert' SL <->
          stop_loss alert <= price /\ ~ price <= take_profit alert))
  /\ (fired alert' TP -> ~ fired alert' SL)
  /\ (triggered alert' = true ->
      trigger_price alert' = Some price
      /\ trigger_time alert' = Some (timestamp quote)
      /\ (on_alert s = true -> In alert' (snd (_check_alerts s pair quote)))).
Proof.
  intros Hin Hp Ht price alert'.
  pose proof (check_alert_untriggered pair quote alert Hp Ht) as Hstep.
  fold price in Hstep.
  assert (Hdec : forall k,
             fired alert' k <-> trigger_for alert price = Some k).
  { intros k. subst alert'. destruct (trigger_for alert price) as [k'|].
    - destruct Hstep as (_ & [Hf1 Hf2] & _). unfold fired. rewrite Hf1, Hf2.
      split; [intros [_ H]; exact H | intros H; split; [reflexivity | exact H]].
    - rewrite Hstep. cbn. unfold fired. rewrite Ht.
      split; [intros [H _]; discriminate | discriminate]. }
  refine (conj _ (conj _ (conj _ (conj _ _)))).
  - rewrite check_alerts_alerts. apply in_map_iff.
    exists (tid, alert). split; [reflexivity | exact Hin].
  - intros Hd. rewrite !Hdec. unfold trigger_for. rewrite Hd. cbn.
    destruct (Py.Qgeb price (take_profit alert)) eqn:Etp.
    + apply Qgeb_true in Etp. split; [tauto|].
      split; [discriminate | tauto].
    + assert (Hn : ~ take_profit alert <= price).
      { intros H. apply Qgeb_true in H. congruence. }
      destruct (Qle_bool price (stop_loss alert)) eqn:Esl.
      * apply Qle_bool_iff in Esl. split; [split; [discriminate | tauto]|].
        tauto.
      * apply Qle_bool_false in Esl.
        split; (split; [discriminate | tauto]).
  - intros Hd. rewrite !Hdec. unfold trigger_for. rewrite Hd. cbn.
    destruct (Qle_bool price (take_profit alert)) eqn:Etp.
    + apply Qle_bool_iff in Etp. split; [tauto|].
      split; [discriminate | tauto].
    + apply Qle_bool_false in Etp.
      destruct (Py.Qgeb price (stop_loss alert)) eqn:Esl.
      * apply Qgeb_true in Esl. split; [split; [discriminate | tauto]|].
        tauto.
      * assert (Hn : ~ stop_loss alert <= price).
        { intros H. apply Qgeb_true in H. congruence. }
        split; (split; [discriminate | tauto]).
  - rewrite !Hdec. intros ->. discriminate.
  - intros Htrig. subst alert'.
    destruct (trigger_for alert price) as [k|].
    + destruct Hstep as (Hsnd & _ & Hpx & Htime).
      refine (conj Hpx (conj Htime _)). intros Hcb.
      now apply (check_alerts_delivered s pair quote tid alert).
    + rewrite Hstep in Htrig. cbn in Htrig. congruence.
Qed.

(** Scenario S2, third tick: mid 1.1051 triggers TP at 1.1051. *)
Lemma check_alerts_rule_witness :
  let quote := quote_at "EURUSD" 1.1051 in
  let alert' := fst (check_alert "EURUSD" quote s2_alert) in
  In ("s2"%string, alert') (_alerts (fst (_check_alerts ready_stream "EURUSD" quote)))
  /\ fired alert' TP
  /\ ~ fired alert' SL
  /\ trigger_price alert' = Some (mid quote).
Proof.
  intros quote alert'.
  destruct (check_alerts_rule ready_stream "EURUSD" quote "s2" s2_alert
              (or_introl eq_refl) eq_refl eq_refl)
    as (Hin & Hbull & _ & Hexcl & Hstamp).
  destruct (Hbull eq_refl) as [Htp _].
  assert (Hf : fired alert' TP).
  { apply Htp. vm_compute. discriminate. }
  refine (conj Hin (conj Hf (conj (Hexcl Hf) _))).
  destruct Hf as [Htrig _]. now destruct (Hstamp Htrig).
Defined.

(** C9 (as stated, refuted).  [disconnect] on a Ready stream holding the
    S2 alert: the alert is still registered afterwards. *)
Lemma disconnect_keeps_alerts_counterexample :
  get_alert ready_stream "s2" = Some s2_alert
  /\ get_alert (disconnect ready_stream) "s2" = Some s2_alert
  /\ _alerts (disconnect ready_stream) <> [].
Proof. repeat split; discriminate. Qed.

(** C9 (amended).  After [disconnect], from any state: the stream is
    not connected, the socket is dropped, the receive task (if any) is
    cancelled, and the subscription set and the latest-quote table are
    empty.  The registered alerts are kept as they are, and so are the
    API key and the callback. *)
Theorem disconnect_effect (s : Stream) :
  let s' := disconnect s in
  is_connected s' = false
  /\ _ws s' = None
  /\ _running s' = false
  /\ _connected s' = false
  /\ _recv_task s' = (fun _ => TaskCancelled) <$> _recv_task s
  /\ _subscribed_pairs s' = ∅
  /\ _quotes s' = ∅
  /\ _alerts s' = _alerts s
  /\ api_key s' = api_key s
  /\ on_alert s' = on_alert s.
Proof.
  cbn. destruct (_recv_task s); repeat split; reflexivity.
Qed.

End PriceStreamFacts.

(** ** The scheduler: insufficient data and the next session *)

Module SchedulerFacts.
Import Schema RiskEngine Scheduler Scenarios.
Local Open Scope Q_scope.

Lemma get_percentiles_None (db : Database) (pair session_name : string) :
  get_percentiles db pair session_name = None <->
  Forall (fun r => ~ (pr_pair r = pair /\ pr_session_name r = session_name))
         (percentile_targets db).
Proof.
  unfold get_percentiles.
  destruct (List.find _ (percentile_targets db)) as [row|] eqn:E; split.
  - discriminate.
  - intros HF. exfalso. apply find_some in E as [Hin Hm].
    rewrite Forall_forall in HF. apply (HF row).
    + now apply list_elem_of_In.
    + apply andb_true_iff in Hm as [H1 H2].
      now apply String.eqb_eq in H1, H2.
  - intros _. apply Forall_forall. intros r Hin [H1 H2].
    apply list_elem_of_In in Hin.
    pose proof (find_none _ _ E r Hin) as Hn. cbn in Hn.
    apply String.eqb_eq in H1, H2. rewrite H1, H2 in Hn. discriminate.
  - reflexivity.
Qed.

(** C7.  [calculate_risk_parameters] returns [None] exactly when the
    view holds no row for (pair, session) or the row read has
    [sample_count < 30]; with [sample_count = 29] it returns [None] and
    the iteration of [_execute_session] for that pair changes neither
    the database nor the scheduler, whatever the predictor answered. *)
Theorem insufficient_data_iff (settings : Config.Settings) (db : Database)
    (pair session_name direction : string) (entry_price balance : Q) :
  (calculate_risk_parameters settings db pair session_name direction
     entry_price balance = None
   <-> (Forall (fun r => ~ (pr_pair r = pair /\ pr_session_name r = session_name))
               (percentile_targets db)
        \/ exists targets,
             get_percentiles db pair session_name = Some targets
             /\ (sample_count targets < 30)%Z))
  /\ (forall targets,
        get_percentiles db pair session_name = Some targets ->
        sample_count targets = 29%Z ->
        calculate_risk_parameters settings db pair session_name direction
          entry_price balance = None
        /\ forall session_dt bal inputs sch,
             execute_pair settings session_name session_dt bal inputs db sch pair
             = (db, sch)).
Proof.
  split.
  - rewrite <- get_percentiles_None. unfold calculate_risk_parameters.
    destruct (get_percentiles db pair session_name) as [targets|] eqn:E.
    + destruct (Z.ltb_spec (sample_count targets) 30) as [Hlt|Hge]; split.
      * intros _. right. now exists targets.
      * reflexivity.
      * destruct (calculate_tp_sl _ _ _ _ _ _ _) as [[[? ?] ?] ?].
        destruct (calculate_position_size _ _ _ _ _) as [? ?]. discriminate.
      * intros [Hn | (t & [= <-] & Hlt)]; [discriminate | lia].
    + split; [now left | reflexivity].
  - intros targets Hget H29.
    assert (Hnone : forall dir px bal,
               calculate_risk_parameters settings db pair session_name dir px bal
               = None).
    { intros. unfold calculate_risk_parameters. rewrite Hget, H29. reflexivity. }
    split; [apply Hnone|].
    intros session_dt bal inputs sch. unfold execute_pair.
    destruct (_chart_cache sch !! pair); [|reflexivity].
    destruct (predicted inputs) as [result|]; [|reflexivity].
    destruct (String.eqb _ "NEUTRAL"); [reflexivity|].
    match goal with
    | |- match ?e with _ => _ end = _ => destruct e as [px|]; [|reflexivity]
    end.
    now rewrite Hnone.
Qed.

Lemma insufficient_data_iff_witness :
  calculate_risk_parameters Config.default_settings (sample_stats 29)
    "EURUSD" "London_Open" "BULLISH" 1.1000 10000 = None
  /\ execute_pair Config.default_settings "London_Open"
       (SessionUtils.replace_hm (SessionUtils.mk_date 2025 12 29) 8 0)
       10000 bullish_conviction_9 (sample_stats 29) sample_scheduler "EURUSD"
     = (sample_stats 29, sample_scheduler).
Proof.
  destruct (insufficient_data_iff Config.default_settings (sample_stats 29)
              "EURUSD" "London_Open" "BULLISH" 1.1000 10000) as [_ H].
  destruct (H _ eq_refl eq_refl) as [Hnone Hexec].
  split; [exact Hnone | apply Hexec].
Defined.
(** C8 (as stated, refuted).  2024-03-10 is a Sunday; at 06:00 UTC on
    that day [_get_next_session] does not return the New York open of
    13:30 UTC: the weekend is skipped and the next session is the Asian
    open of Monday 2024-03-11, 01:00 UTC. *)
Lemma next_session_dst_sunday_counterexample :
  SessionUtils.weekday (SessionUtils.mk_date 2024 3 10) = 6%Z
  /\ _get_next_session (at_time 2024 3 10 6 0)
     = Some ("Asian_Open"%string, at_time 2024 3 11 1 0)
  /\ _get_next_session (at_time 2024 3 10 6 0)
     <> Some ("NY_Open"%string, at_time 2024 3 10 13 30).
Proof.
  split; [reflexivity|]. split; [vm_compute; reflexivity|].
  vm_compute. discriminate.
Qed.

(** C8 (amended).  With now = 2024-03-10T06:00:00Z, a Sunday and the
    day US daylight time starts, [_get_next_session] skips the weekend
    and returns (Asian_Open, 2024-03-11T01:00:00Z).  The New York open
    computed for 2024-03-10 is 13:30 UTC, not 14:30 (one week earlier,
    on 2024-03-03, it is 14:30 UTC); accordingly with
    now = 2024-03-11T12:00:00Z the next session is
    (NY_Open, 2024-03-11T13:30:00Z), and with now = 2024-03-04T12:00:00Z
    it is (NY_Open, 2024-03-04T14:30:00Z). *)
Theorem next_session_dst_boundary :
  _get_next_session (at_time 2024 3 10 6 0)
  = Some ("Asian_Open"%string, at_time 2024 3 11 1 0)
  /\ SessionUtils.get_session_times_for_date (SessionUtils.mk_date 2024 3 10)
     !! "NY_Open"%string
     = Some {| SessionUtils.si_hour := 13; SessionUtils.si_minute := 30;
               SessionUtils.si_name := "NY Open" |}
  /\ SessionUtils.get_session_times_for_date (SessionUtils.mk_date 2024 3 3)
     !! "NY_Open"%string
     = Some {| SessionUtils.si_hour := 14; SessionUtils.si_minute := 30;
               SessionUtils.si_name := "NY Open" |}
  /\ _get_next_session (at_time 2024 3 11 12 0)
     = Some ("NY_Open"%string, at_time 2024 3 11 13 30)
  /\ _get_next_session (at_time 2024 3 4 12 0)
     = Some ("NY_Open"%string, at_time 2024 3 4 14 30).
Proof. repeat split; vm_compute; reflexivity. Qed.

End SchedulerFacts.

(** ** The rolling window and the percentile materialization *)

Module RollingWindowFacts.

Import SessionUtils Schema TradeExecutor RollingWindowSpec Scenarios.
Local Open Scope Q_scope.









Lemma nondecreasing_app_inv (l1 l2 : list datetime) :
  nondecreasing (l1 ++ l2) -> nondecreasing l1 /\ nondecreasing l2.
Proof.
  induction l1 as [|a l1 IH]; cbn [app].
  - intros H. split; [exact I | exact H].
  - destruct l1 as [|b l1].
    + cbn. destruct l2 as [|b l2]; [intros _; split; exact I|].
      intros [_ H]. split; [exact I | exact H].
    + cbn [app] in *. intros [Hab H]. destruct (IH H) as [H1 H2].
      split; [split; assumption | exact H2].
Qed.





Lemma cutoffs_app (h1 h2 : list Op) :
  cutoffs (h1 ++ h2) = cutoffs h1 ++ cutoffs h2.
Proof. unfold cutoffs. apply flat_map_app. Qed.







Lemma dt_leb_refl (a : datetime) : dt_leb a a = true.
Proof. unfold dt_leb. apply Z.leb_refl. Qed.




End RollingWindowFacts.
(** ** The price stream: symbols, subscriptions, the alert registry *)

Module PriceStreamMoreFacts.

Import SessionUtils PriceStream StreamSpec Scenarios.
Local Open Scope Q_scope.

Lemma substring_all (s : string) : String.substring 0 (String.length s) s = s.
Proof. induction s as [|c s IH]; [reflexivity|]. cbn. now rewrite IH. Qed.

Lemma substring_skip (n m : nat) (c : ascii) (s : string) :
  String.substring (S n) m (String c s) = String.substring n m s.
Proof. reflexivity. Qed.

Lemma substring_split (n : nat) (s : string) :
  (String.substring 0 n s ++ String.substring n (String.length s - n) s)%string = s.
Proof.
  revert n. induction s as [|c s IH]; intros n.
  - destruct n; reflexivity.
  - destruct n as [|n].
    + change (String.substring 0 0 (String c s)) with EmptyString.
      rewrite Nat.sub_0_r. apply substring_all.
    + change (String.substring 0 (S n) (String c s))
        with (String c (String.substring 0 n s)).
      change (String.length (String c s) - S n)%nat
        with (String.length s - n)%nat.
      rewrite substring_skip.
      change (String c (String.substring 0 n s ++
                        String.substring n (String.length s - n) s)%string
              = String c s).
      now rewrite IH.
Qed.

Lemma append_cons (x : ascii) (a b : string) :
  (String x a ++ b)%string = String x (a ++ b)%string.
Proof. reflexivity. Qed.

Lemma append_nil (b : string) : (EmptyString ++ b)%string = b.
Proof. reflexivity. Qed.

Lemma lacks_app (c : ascii) (a b : string) :
  lacks c (a ++ b) <-> lacks c a /\ lacks c b.
Proof.
  induction a as [|x a IH].
  - rewrite append_nil. cbn. tauto.
  - rewrite append_cons. cbn [lacks]. rewrite IH. tauto.
Qed.

Lemma remove_slash_lacks (s : string) : lacks "/" s -> remove_slash s = s.
Proof.
  induction s as [|c s IH]; [reflexivity|]. intros [Hc Hs]. cbn.
  destruct (Ascii.eqb_spec c "/"); [contradiction|]. now rewrite IH.
Qed.

Lemma remove_slash_app (a b : string) :
  remove_slash (a ++ b) = (remove_slash a ++ remove_slash b)%string.
Proof.
  induction a as [|c a IH]; [reflexivity|].
  rewrite append_cons. cbn [remove_slash].
  destruct (Ascii.eqb c "/"); [exact IH|]. now rewrite append_cons, IH.
Qed.

(** X1.  The two symbol conversions are inverse on pair names: for a
    pair name without a slash, [_from_polygon_symbol] gives back the pair
    from the symbol [_to_polygon_symbol] builds. *)
Theorem polygon_symbol_round_trip (pair : string) :
  lacks "/" pair ->
  _from_polygon_symbol (_to_polygon_symbol pair) = Some pair.
Proof.
  intros Hl. unfold _to_polygon_symbol, _from_polygon_symbol.
  set (a := String.substring 0 3 pair).
  set (b := String.substring 3 (String.length pair - 3) pair).
  change ("C." ++ a ++ "/" ++ b)%string
    with (String "C" (String "." (a ++ String "/" b)))%string.
  set (x := (a ++ String "/" b)%string).
  replace (String.eqb (String "C" (String "." x)) EmptyString) with false
    by reflexivity.
  replace (String.prefix "C." (String "C" (String "." x))) with true
    by (cbn; now destruct x).
  cbn [orb negb String.length Nat.sub].
  rewrite !substring_skip, Nat.sub_0_r, substring_all.
  subst x. rewrite remove_slash_app. subst a b.
  f_equal.
  pose proof (substring_split 3 pair) as Hsplit.
  assert (H3 : lacks "/" (String.substring 0 3 pair)
               /\ lacks "/" (String.substring 3 (String.length pair - 3) pair)).
  { apply lacks_app. now rewrite Hsplit. }
  destruct H3 as [Ha Hb].
  rewrite (remove_slash_lacks _ Ha).
  change (remove_slash (String "/" (String.substring 3 (String.length pair - 3) pair)))
    with (remove_slash (String.substring 3 (String.length pair - 3) pair)).
  now rewrite (remove_slash_lacks _ Hb), Hsplit.
Qed.

Lemma polygon_symbol_round_trip_witness :
  _to_polygon_symbol "EURUSD" = "C.EUR/USD"%string
  /\ _from_polygon_symbol "C.EUR/USD" = Some "EURUSD"%string.
Proof.
  split; [reflexivity|].
  apply (polygon_symbol_round_trip "EURUSD"). cbn. repeat split; discriminate.
Defined.

(** *** Subscriptions *)

Lemma subscribe_fold (pairs : list string) (acc : gset string) :
  fold_left (fun acc pair =>
               if bool_decide (pair ∈ acc) then acc else acc ∪ {[pair]})
            pairs acc
  = acc ∪ list_to_set pairs.
Proof.
  revert acc. induction pairs as [|p pairs IH]; intros acc; cbn.
  - set_solver.
  - rewrite IH. case_bool_decide; set_solver.
Qed.

Lemma unsubscribe_fold (pairs : list string) (acc : gset string) :
  fold_left (fun acc pair =>
               if bool_decide (pair ∈ acc) then acc ∖ {[pair]} else acc)
            pairs acc
  = acc ∖ list_to_set pairs.
Proof.
  revert acc. induction pairs as [|p pairs IH]; intros acc; cbn.
  - set_solver.
  - rewrite IH. case_bool_decide; set_solver.
Qed.

(** X2.  [subscribe] is idempotent and works on sets: on a connected
    stream the subscription set becomes the union of the old set and the
    pairs asked for, whatever their order or repetitions, and a second
    call with the same pairs changes nothing; on a stream that is not
    connected it changes nothing at all.  [unsubscribe] removes exactly
    the pairs asked for, so unsubscribing what was just subscribed leaves
    the pairs that were subscribed before and not asked for.  Neither
    touches the alerts, the quotes or the socket. *)
Theorem subscribe_set_semantics (s : Stream) (pairs : list string) :
  (is_connected s = false ->
   subscribe s pairs = s /\ unsubscribe s pairs = s)
  /\ (_alerts (subscribe s pairs) = _alerts s
      /\ _quotes (subscribe s pairs) = _quotes s
      /\ _ws (subscribe s pairs) = _ws s
      /\ _alerts (unsubscribe s pairs) = _alerts s
      /\ _quotes (unsubscribe s pairs) = _quotes s
      /\ _ws (unsubscribe s pairs) = _ws s)
  /\ (is_connected s = true ->
      _subscribed_pairs (subscribe s pairs)
      = _subscribed_pairs s ∪ list_to_set pairs
      /\ subscribe (subscribe s pairs) pairs = subscribe s pairs
      /\ _subscribed_pairs (unsubscribe s pairs)
         = _subscribed_pairs s ∖ list_to_set pairs
      /\ _subscribed_pairs (unsubscribe (subscribe s pairs) pairs)
         = _subscribed_pairs s ∖ list_to_set pairs
      /\ _alerts (subscribe s pairs) = _alerts s
      /\ _quotes (subscribe s pairs) = _quotes s).
Proof.
  refine (conj _ (conj _ _)); [intros Hc | | intros Hc].
  - unfold subscribe, unsubscribe. now rewrite Hc.
  - unfold subscribe, unsubscribe.
    destruct (is_connected s); cbn; repeat split; reflexivity.
  - assert (Hc' : is_connected (subscribe s pairs) = true).
    { unfold subscribe. rewrite Hc. exact Hc. }
    assert (Hsub : _subscribed_pairs (subscribe s pairs)
                   = _subscribed_pairs s ∪ list_to_set pairs).
    { unfold subscribe. rewrite Hc. cbn. apply subscribe_fold. }
    refine (conj Hsub (conj _ (conj _ (conj _ (conj _ _))))).
    + unfold subscribe at 1. rewrite Hc'. cbn [negb].
      rewrite subscribe_fold, Hsub.
      replace (_subscribed_pairs s ∪ list_to_set pairs ∪ list_to_set pairs)
        with (_subscribed_pairs s ∪ list_to_set pairs) by set_solver.
      rewrite <- Hsub. unfold subscribe. rewrite Hc. reflexivity.
    + unfold unsubscribe. rewrite Hc. cbn. apply unsubscribe_fold.
    + unfold unsubscribe. rewrite Hc'. cbn [negb set_subscribed _subscribed_pairs].
      rewrite unsubscribe_fold, Hsub. set_solver.
    + unfold subscribe. now rewrite Hc.
    + unfold subscribe. now rewrite Hc.
Qed.

Lemma subscribe_set_semantics_witness :
  _subscribed_pairs (subscribe ready_stream ["GBPUSD"; "EURUSD"; "GBPUSD"]%string)
  = {[ "EURUSD"%string ]} ∪ list_to_set ["GBPUSD"; "EURUSD"; "GBPUSD"]%string
  /\ subscribe (__init__ "key" true) ["GBPUSD"%string] = __init__ "key" true.
Proof.
  destruct (subscribe_set_semantics ready_stream
              ["GBPUSD"; "EURUSD"; "GBPUSD"]%string) as (_ & _ & H).
  destruct (H eq_refl) as [H1 _].
  destruct (subscribe_set_semantics (__init__ "key" true) ["GBPUSD"%string])
    as [H0 _].
  destruct (H0 eq_refl) as [H2 _].
  split; [exact H1 | exact H2].
Defined.

(** *** The alert registry *)

Lemma dict_lookup_set_eq {V : Type} (k : string) (v : V) (d : list (string * V)) :
  dict_lookup k (dict_set k v d) = Some v.
Proof.
  induction d as [|[k' v'] d IH]; cbn.
  - now rewrite String.eqb_refl.
  - destruct (String.eqb k' k) eqn:E; cbn.
    + now rewrite String.eqb_refl.
    + now rewrite E.
Qed.

Lemma dict_lookup_set_ne {V : Type} (k k0 : string) (v : V) (d : list (string * V)) :
  k0 <> k -> dict_lookup k0 (dict_set k v d) = dict_lookup k0 d.
Proof.
  intros Hne. induction d as [|[k' v'] d IH]; cbn.
  - destruct (String.eqb_spec k k0); [congruence | reflexivity].
  - destruct (String.eqb_spec k' k) as [->|Hk]; cbn.
    + destruct (String.eqb_spec k k0); [congruence | reflexivity].
    + destruct (String.eqb k' k0); [reflexivity | exact IH].
Qed.

Lemma dict_lookup_del_eq {V : Type} (k : string) (d : list (string * V)) :
  dict_lookup k (dict_del k d) = None.
Proof.
  induction d as [|[k' v'] d IH]; [reflexivity|]. unfold dict_del in *. cbn.
  destruct (String.eqb k' k) eqn:E; cbn; [exact IH|]. now rewrite E.
Qed.

Lemma dict_lookup_del_ne {V : Type} (k k0 : string) (d : list (string * V)) :
  k0 <> k -> dict_lookup k0 (dict_del k d) = dict_lookup k0 d.
Proof.
  intros Hne. induction d as [|[k' v'] d IH]; [reflexivity|].
  unfold dict_del in *. cbn.
  destruct (String.eqb_spec k' k) as [->|Hk]; cbn.
  - destruct (String.eqb_spec k k0); [congruence | exact IH].
  - destruct (String.eqb k' k0); [reflexivity | exact IH].
Qed.

Lemma dict_set_keys {V : Type} (k : string) (v : V) (d : list (string * V)) :
  map fst (dict_set k v d)
  = if bool_decide (k ∈ map fst d) then map fst d else map fst d ++ [k].
Proof.
  induction d as [|[k' v'] d IH]; cbn.
  - case_bool_decide as H; [now apply elem_of_nil in H | reflexivity].
  - destruct (String.eqb_spec k' k) as [->|Hk]; cbn.
    + clear IH. rewrite bool_decide_eq_true_2 by left. reflexivity.
    + rewrite IH. clear IH.
      destruct (decide (k ∈ map fst d)) as [Hin|Hin].
      * rewrite !bool_decide_eq_true_2; [reflexivity | now right | exact Hin].
      * rewrite !bool_decide_eq_false_2; [reflexivity | | exact Hin].
        intros H. apply elem_of_cons in H as [?|?]; [congruence | contradiction].
Qed.

Lemma dict_set_NoDup {V : Type} (k : string) (v : V) (d : list (string * V)) :
  NoDup (map fst d) -> NoDup (map fst (dict_set k v d)).
Proof.
  intros Hnd. rewrite dict_set_keys. case_bool_decide as H; [exact Hnd|].
  apply NoDup_app. split; [exact Hnd|]. split.
  - intros x Hx Hx'. apply list_elem_of_singleton in Hx'. subst x.
    contradiction.
  - apply NoDup_singleton.
Qed.

Lemma dict_del_keys {V : Type} (k : string) (d : list (string * V)) :
  map fst (dict_del k d)
  = List.filter (fun k' => negb (String.eqb k' k)) (map fst d).
Proof.
  unfold dict_del. induction d as [|[k' v'] d IH]; [reflexivity|]. cbn.
  destruct (String.eqb k' k); cbn; now rewrite IH.
Qed.

Lemma NoDup_filter_keys (f : string -> bool) (l : list string) :
  NoDup l -> NoDup (List.filter f l).
Proof.
  induction 1 as [|x l Hx Hnd IH]; cbn; [constructor|].
  destruct (f x); [|exact IH]. constructor; [|exact IH].
  intros Hin. apply Hx. apply list_elem_of_In. apply list_elem_of_In in Hin.
  now apply filter_In in Hin as [Hin _].
Qed.

Lemma In_lookup {V : Type} (k : string) (v : V) (d : list (string * V)) :
  NoDup (map fst d) -> In (k, v) d <-> dict_lookup k d = Some v.
Proof.
  induction d as [|[k' v'] d IH]; cbn.
  - intros _. split; [intros [] | discriminate].
  - intros Hnd. apply NoDup_cons in Hnd as [Hk' Hnd].
    destruct (String.eqb_spec k' k) as [->|Hk].
    + split.
      * intros [[= ->] | Hin]; [reflexivity|]. exfalso. apply Hk'.
        apply list_elem_of_In. apply in_map_iff. now exists (k, v).
      * intros [= ->]. now left.
    + rewrite <- (IH Hnd). split; [intros [[= ? ?] | H]; [congruence | exact H]|].
      intros H. now right.
Qed.

Lemma keyed_add (a : PriceAlert) (alerts : list (string * PriceAlert)) :
  keyed alerts -> keyed (dict_set (trade_id a) a alerts).
Proof.
  intros [Hnd Hkey].
  pose proof (dict_set_NoDup (trade_id a) a alerts Hnd) as Hnd'.
  split; [exact Hnd'|]. intros k a0 Hin.
  apply (In_lookup _ _ _ Hnd') in Hin.
  destruct (decide (k = trade_id a)) as [->|Hne].
  - rewrite dict_lookup_set_eq in Hin. now injection Hin as <-.
  - rewrite dict_lookup_set_ne in Hin by exact Hne.
    apply (In_lookup _ _ _ Hnd) in Hin. now apply Hkey.
Qed.

Lemma keyed_del (k : string) (alerts : list (string * PriceAlert)) :
  keyed alerts -> keyed (dict_del k alerts).
Proof.
  intros [Hnd Hkey]. split.
  - rewrite dict_del_keys. now apply NoDup_filter_keys.
  - intros k0 a0 Hin. unfold dict_del in Hin. apply filter_In in Hin as [Hin _].
    now apply Hkey.
Qed.

Lemma check_alert_trade_id (pair : string) (quote : Quote) (a : PriceAlert) :
  trade_id (fst (check_alert pair quote a)) = trade_id a.
Proof.
  unfold check_alert.
  destruct (negb _ || _); [reflexivity|].
  destruct (trigger_for a (mid quote)); reflexivity.
Qed.

Lemma check_alerts_map (s : Stream) (pair : string) (quote : Quote) :
  _alerts (fst (_check_alerts s pair quote))
  = map (fun kv => (fst kv, fst (check_alert pair quote (snd kv)))) (_alerts s).
Proof. unfold _check_alerts. cbn. now rewrite map_map. Qed.

Lemma keyed_check (s : Stream) (pair : string) (quote : Quote) :
  keyed (_alerts s) -> keyed (_alerts (fst (_check_alerts s pair quote))).
Proof.
  intros [Hnd Hkey]. rewrite check_alerts_map. split.
  - now rewrite map_map, (map_ext _ fst) by reflexivity.
  - intros k a Hin. apply in_map_iff in Hin as ([k0 a0] & [= <- <-] & Hin0).
    cbn. rewrite check_alert_trade_id. now apply Hkey.
Qed.

(** X3.  The alert registry behaves as a dictionary keyed by trade id.
    After [add_alert] the alert is found under its trade id and every
    other id reads as before; after [remove_alert] the id reads as absent
    and every other id reads as before; an unknown id reads as absent on a
    new stream.  [add_alert], [remove_alert] and [_check_alerts] keep the
    keys pairwise distinct and each alert under its own id, and re-adding
    an alert for a registered id replaces the entry in place. *)
Theorem alert_registry_laws (s : Stream) (a : PriceAlert) (k : string)
    (pair : string) (quote : Quote) :
  get_alert (add_alert s a) (trade_id a) = Some a
  /\ (k <> trade_id a -> get_alert (add_alert s a) k = get_alert s k)
  /\ get_alert (remove_alert s k) k = None
  /\ (forall k0, k0 <> k -> get_alert (remove_alert s k) k0 = get_alert s k0)
  /\ get_alert (__init__ (api_key s) (on_alert s)) k = None
  /\ (keyed (_alerts s) ->
      keyed (_alerts (add_alert s a))
      /\ keyed (_alerts (remove_alert s k))
      /\ keyed (_alerts (fst (_check_alerts s pair quote)))
      /\ (trade_id a ∈ map fst (_alerts s) ->
          map fst (_alerts (add_alert s a)) = map fst (_alerts s))).
Proof.
  unfold get_alert, add_alert, remove_alert. cbn [_alerts set_alerts __init__].
  refine (conj _ (conj _ (conj _ (conj _ (conj eq_refl _))))).
  - apply dict_lookup_set_eq.
  - intros Hne. now apply dict_lookup_set_ne.
  - apply dict_lookup_del_eq.
  - intros k0 Hne. now apply dict_lookup_del_ne.
  - intros Hk. refine (conj _ (conj _ (conj _ _))).
    + now apply keyed_add.
    + now apply keyed_del.
    + now apply keyed_check.
    + intros Hin. rewrite dict_set_keys. now rewrite bool_decide_eq_true_2.
Qed.

Lemma alert_registry_laws_witness :
  get_alert (add_alert ready_stream s2_alert) "s2" = Some s2_alert
  /\ get_alert (remove_alert ready_stream "s2") "s2" = None
  /\ keyed (_alerts (add_alert ready_stream s2_alert))
  /\ map fst (_alerts (add_alert ready_stream s2_alert)) = ["s2"%string].
Proof.
  assert (Hk : keyed (_alerts ready_stream)).
  { split; cbn.
    - repeat constructor. intros H. now apply elem_of_nil in H.
    - intros k a0 [[= <- <-] | []]. reflexivity. }
  destruct (alert_registry_laws ready_stream s2_alert "s2" "EURUSD"
              (quote_at "EURUSD" 1.1000))
    as (H1 & _ & H3 & _ & _ & H6).
  destruct (H6 Hk) as (H7 & _ & _ & H8).
  refine (conj H1 (conj H3 (conj H7 _))).
  apply H8. cbn. left.
Defined.

(** *** Single-shot delivery *)

Lemma check_alert_fired (pair : string) (quote : Quote) (a : PriceAlert) :
  snd (check_alert pair quote a) = true ->
  triggered a = false
  /\ PriceStream.pair a = pair
  /\ triggered (fst (check_alert pair quote a)) = true
  /\ trigger_type (fst (check_alert pair quote a)) <> None
  /\ trigger_price (fst (check_alert pair quote a)) = Some (mid quote)
  /\ trigger_time (fst (check_alert pair quote a)) = Some (timestamp quote).
Proof.
  unfold check_alert.
  destruct (String.eqb_spec (PriceStream.pair a) pair) as [Hp|Hp];
    destruct (triggered a); cbn; try discriminate.
  destruct (trigger_for a (mid quote)); cbn; [|discriminate].
  intros _. repeat split; try reflexivity; try assumption. discriminate.
Qed.

Lemma check_alert_triggered (pair : string) (quote : Quote) (a : PriceAlert) :
  triggered a = true -> check_alert pair quote a = (a, false).
Proof.
  intros H. unfold check_alert. rewrite H.
  now rewrite orb_true_r.
Qed.

Lemma check_alert_stays_triggered (pair : string) (quote : Quote) (a : PriceAlert) :
  triggered (fst (check_alert pair quote a)) = false -> triggered a = false.
Proof.
  destruct (triggered a) eqn:E; [|reflexivity].
  rewrite (check_alert_triggered pair quote a E). cbn. congruence.
Qed.

Lemma delivered_In (s : Stream) (pair : string) (quote : Quote) (a' : PriceAlert) :
  In a' (snd (_check_alerts s pair quote)) ->
  exists k a,
    In (k, a) (_alerts s)
    /\ a' = fst (check_alert pair quote a)
    /\ snd (check_alert pair quote a) = true.
Proof.
  unfold _check_alerts. cbn. destruct (on_alert s); [|intros []].
  intros Hin. apply in_map_iff in Hin as ([k [a1 b]] & <- & Hin).
  apply filter_In in Hin as [Hin Hb]. cbn in Hb.
  apply in_map_iff in Hin as ([k0 a0] & [= <- Hc] & Hin0).
  exists k0, a0. cbn. rewrite Hc. cbn. repeat split; [exact Hin0 | exact Hb].
Qed.

Lemma NoDup_keys_filter {V : Type} (f : string * V -> bool)
    (d : list (string * V)) :
  NoDup (map fst d) -> NoDup (map fst (List.filter f d)).
Proof.
  induction d as [|kv d IH]; cbn; [constructor|].
  intros Hnd. apply NoDup_cons in Hnd as [Hk Hnd].
  destruct (f kv); cbn; [|now apply IH].
  apply NoDup_cons. split; [|now apply IH].
  intros Hin. apply Hk. apply list_elem_of_In in Hin.
  apply in_map_iff in Hin as (kv' & Hfst & Hin).
  apply filter_In in Hin as [Hin _].
  apply list_elem_of_In, in_map_iff. now exists kv'.
Qed.

Lemma delivered_ids (pair : string) (quote : Quote)
    (alerts : list (string * PriceAlert)) :
  (forall k a, In (k, a) alerts -> trade_id a = k) ->
  map trade_id
    (map (fun kc : string * (PriceAlert * bool) => fst (snd kc))
       (List.filter (fun kc => snd (snd kc))
          (map (fun kv => (fst kv, check_alert pair quote (snd kv))) alerts)))
  = map fst (List.filter (fun kv => snd (check_alert pair quote (snd kv))) alerts).
Proof.
  induction alerts as [|[k a] al IH]; intros Hkey; [reflexivity|]. cbn.
  assert (IH' := IH (fun k0 a0 H => Hkey k0 a0 (or_intror H))).
  destruct (snd (check_alert pair quote a)) eqn:Hf; cbn; [|exact IH'].
  rewrite check_alert_trade_id, (Hkey k a (or_introl eq_refl)).
  now rewrite IH'.
Qed.

Lemma delivered_ids_NoDup (s : Stream) (pair : string) (quote : Quote) :
  keyed (_alerts s) ->
  NoDup (map trade_id (snd (_check_alerts s pair quote))).
Proof.
  intros [Hnd Hkey]. unfold _check_alerts. cbn.
  destruct (on_alert s); [|constructor].
  rewrite (delivered_ids pair quote (_alerts s) Hkey).
  now apply NoDup_keys_filter.
Qed.

Lemma feed_keeps_triggered (quotes : list (string * Quote)) :
  forall (s : Stream) (k : string) (a : PriceAlert),
    In (k, a) (_alerts s) -> triggered a = true ->
    In (k, a) (_alerts (fst (feed s quotes))).
Proof.
  induction quotes as [|[p q] rest IH]; intros s k a Hin Ht; [exact Hin|].
  cbn [feed fst]. apply IH; [|exact Ht]. rewrite check_alerts_map.
  apply in_map_iff. exists (k, a). cbn.
  now rewrite (check_alert_triggered p q a Ht).
Qed.

Lemma feed_keyed (quotes : list (string * Quote)) :
  forall s, keyed (_alerts s) -> keyed (_alerts (fst (feed s quotes))).
Proof.
  induction quotes as [|[p q] rest IH]; intros s Hk; [exact Hk|].
  cbn [feed fst]. apply IH. now apply keyed_check.
Qed.

(** What every delivery of a run satisfies, relative to the stream the
    run started from. *)
Lemma feed_delivered (quotes : list (string * Quote)) :
  forall (s : Stream) (a' : PriceAlert),
    keyed (_alerts s) ->
    In a' (snd (feed s quotes)) ->
    triggered a' = true
    /\ trigger_type a' <> None /\ trigger_price a' <> None
    /\ trigger_time a' <> None
    /\ In (trade_id a', a') (_alerts (fst (feed s quotes)))
    /\ (forall a, In (trade_id a', a) (_alerts s) -> triggered a = false).
Proof.
  induction quotes as [|[p q] rest IH]; intros s a' Hk Hin; [destruct Hin|].
  cbn [feed fst snd] in Hin. cbn [feed fst].
  pose proof (keyed_check s p q Hk) as Hk1.
  apply in_app_or in Hin as [Hin | Hin].
  - destruct (delivered_In s p q a' Hin) as (k & a & Hka & -> & Hf).
    destruct (check_alert_fired p q a Hf) as (Hu & _ & Ht & Hty & Hpx & Htm).
    assert (Hid : trade_id a = k) by now apply Hk.
    rewrite check_alert_trade_id, Hid.
    refine (conj Ht (conj Hty (conj _ (conj _ (conj _ _))))).
    + rewrite Hpx. discriminate.
    + rewrite Htm. discriminate.
    + apply feed_keeps_triggered; [|exact Ht].
      rewrite check_alerts_map. apply in_map_iff. now exists (k, a).
    + intros a0 Hin0. destruct Hk as [Hnd _].
      apply (In_lookup _ _ _ Hnd) in Hin0. apply (In_lookup _ _ _ Hnd) in Hka.
      congruence.
  - destruct (IH _ a' Hk1 Hin) as (Ht & Hty & Hpx & Htm & Hst & Hprev).
    refine (conj Ht (conj Hty (conj Hpx (conj Htm (conj Hst _))))).
    intros a Ha. apply (check_alert_stays_triggered p q).
    apply Hprev. rewrite check_alerts_map. apply in_map_iff.
    assert (Hid : trade_id a = trade_id a') by now apply Hk.
    exists (trade_id a', a). split; [reflexivity | exact Ha].
Qed.

(** No trade id is handed over twice in a run. *)
Lemma feed_single_shot (quotes : list (string * Quote)) :
  forall s, keyed (_alerts s) -> NoDup (map trade_id (snd (feed s quotes))).
Proof.
  induction quotes as [|[p q] rest IH]; intros s [Hnd Hkey]; [constructor|].
  cbn [feed fst snd]. rewrite map_app. apply NoDup_app.
  pose proof (keyed_check s p q (conj Hnd Hkey)) as Hk1.
  refine (conj _ (conj _ _)).
  - apply delivered_ids_NoDup. now split.
  - intros id Hin1 Hin2.
    apply list_elem_of_In, in_map_iff in Hin1 as (a1 & <- & Hin1).
    apply list_elem_of_In, in_map_iff in Hin2 as (a2 & Hid & Hin2).
    destruct (delivered_In s p q a1 Hin1) as (k & a & Hka & -> & Hf).
    destruct (check_alert_fired p q a Hf) as (_ & _ & Ht & _).
    destruct (feed_delivered rest _ a2 Hk1 Hin2) as (_ & _ & _ & _ & _ & Hprev).
    assert (Hfalse : triggered (fst (check_alert p q a)) = false).
    { apply Hprev. rewrite Hid, check_alerts_map. apply in_map_iff.
      exists (k, a). cbn. rewrite check_alert_trade_id.
      now rewrite (Hkey k a Hka). }
    congruence.
  - now apply IH.
Qed.

(** *** The walk with a callback that removes alerts *)

Lemma check_alert_miss (pair : string) (quote : Quote) (a : PriceAlert) :
  snd (check_alert pair quote a) = false -> fst (check_alert pair quote a) = a.
Proof.
  unfold check_alert. destruct (negb _ || _); [reflexivity|].
  destruct (trigger_for a (mid quote)); [discriminate | reflexivity].
Qed.

Lemma dict_replace_absent {V : Type} (k : string) (v : V) (d : list (string * V)) :
  k ∉ map fst d -> dict_replace k v d = d.
Proof.
  unfold dict_replace.
  induction d as [|[k' v'] d IH]; [reflexivity|]. cbn. intros Hk.
  apply not_elem_of_cons in Hk as [Hne Hk].
  destruct (String.eqb_spec k' k); [congruence|]. now rewrite (IH Hk).
Qed.

Lemma dict_del_absent {V : Type} (k : string) (d : list (string * V)) :
  k ∉ map fst d -> dict_del k d = d.
Proof.
  unfold dict_del. induction d as [|[k' v'] d IH]; [reflexivity|]. cbn.
  intros Hk. apply not_elem_of_cons in Hk as [Hne Hk].
  destruct (String.eqb_spec k' k); [congruence|]. cbn. now rewrite (IH Hk).
Qed.

Lemma dict_replace_mid {V : Type} (k : string) (v a : V)
    (P S : list (string * V)) :
  k ∉ map fst P -> k ∉ map fst S ->
  dict_replace k v (P ++ (k, a) :: S) = P ++ (k, v) :: S.
Proof.
  intros HP HS. unfold dict_replace. rewrite map_app. cbn.
  rewrite String.eqb_refl.
  fold (dict_replace k v P) (dict_replace k v S).
  now rewrite (dict_replace_absent k v P HP), (dict_replace_absent k v S HS).
Qed.

Lemma dict_del_mid {V : Type} (k : string) (v : V) (P S : list (string * V)) :
  k ∉ map fst P -> k ∉ map fst S ->
  dict_del k (P ++ (k, v) :: S) = P ++ S.
Proof.
  intros HP HS. unfold dict_del. rewrite List.filter_app. cbn.
  rewrite String.eqb_refl. cbn.
  fold (dict_del k P) (dict_del k S).
  now rewrite (dict_del_absent k P HP), (dict_del_absent k S HS).
Qed.

Lemma keys_mid {V : Type} (k : string) (a : V) (P S : list (string * V)) :
  NoDup (map fst (P ++ (k, a) :: S)) ->
  (k ∉ map fst P) /\ (k ∉ map fst S)
  /\ NoDup (map fst (P ++ S))
  /\ forall v, NoDup (map fst ((P ++ [(k, v)]) ++ S)).
Proof.
  rewrite map_app. cbn. intros H.
  apply NoDup_app in H as (HP & Hdis & HS).
  apply NoDup_cons in HS as [HkS HS].
  assert (HkP : k ∉ map fst P).
  { intros Hin. apply (Hdis k Hin). left. }
  refine (conj HkP (conj HkS (conj _ _))).
  - rewrite map_app. apply NoDup_app. refine (conj HP (conj _ HS)).
    intros x Hx Hx'. apply (Hdis x Hx). now right.
  - intros v. rewrite <- app_assoc. cbn. rewrite map_app. cbn.
    apply NoDup_app. refine (conj HP (conj Hdis _)).
    apply NoDup_cons. now split.
Qed.

Section WithCallback.

Context {W : Type}.
Variable callback : W -> PriceAlert -> W * bool.

(** The loop of [_check_alerts_with] does to the registry what [walk]
    tells entry by entry. *)
Lemma fold_walk (installed : bool) (pair : string) (quote : Quote) :
  forall (S P : list (string * PriceAlert)) (w : W) (out : list PriceAlert),
    NoDup (map fst (P ++ S)) ->
    (forall k a, In (k, a) S -> trade_id a = k) ->
    fold_left (check_entry callback installed pair quote) S (w, P ++ S, out)
    = (fst (fst (walk callback installed pair quote w S)),
       P ++ snd (fst (walk callback installed pair quote w S)),
       out ++ snd (walk callback installed pair quote w S)).
Proof.
  induction S as [|[k a] S IH]; intros P w out Hnd Hkey.
  - cbn. now rewrite !app_nil_r.
  - destruct (keys_mid k a P S Hnd) as (HkP & HkS & HndPS & HndP1).
    assert (Hkey' : forall k0 a0, In (k0, a0) S -> trade_id a0 = k0).
    { intros k0 a0 Hin. apply Hkey. now right. }
    assert (Hid : trade_id a = k) by (apply Hkey; now left).
    cbn [fold_left walk check_entry fst snd].
    destruct (check_alert pair quote a) as [a' hit] eqn:Ec.
    assert (Hid' : trade_id a' = k).
    { rewrite <- Hid, <- (check_alert_trade_id pair quote a). now rewrite Ec. }
    destruct hit.
    + rewrite (dict_replace_mid k a' a P S HkP HkS).
      destruct installed; cbn [andb].
      * destruct (callback w a') as [w1 removed]. destruct removed.
        -- rewrite Hid', (dict_del_mid k a' P S HkP HkS).
           rewrite (IH P w1 (out ++ [a']) HndPS Hkey').
           destruct (walk callback true pair quote w1 S) as [[w2 kept] handed].
           cbn [fst snd]. now rewrite <- app_assoc.
        -- replace (P ++ (k, a') :: S) with ((P ++ [(k, a')]) ++ S)
             by now rewrite <- app_assoc.
           rewrite (IH (P ++ [(k, a')]) w1 (out ++ [a']) (HndP1 a') Hkey').
           destruct (walk callback true pair quote w1 S) as [[w2 kept] handed].
           cbn [fst snd]. now rewrite <- !app_assoc.
      * replace (P ++ (k, a') :: S) with ((P ++ [(k, a')]) ++ S)
          by now rewrite <- app_assoc.
        rewrite (IH (P ++ [(k, a')]) w out (HndP1 a') Hkey').
        destruct (walk callback false pair quote w S) as [[w2 kept] handed].
        cbn [fst snd]. now rewrite <- !app_assoc.
    + cbn [andb].
      assert (Ea : a' = a).
      { rewrite <- (check_alert_miss pair quote a); now rewrite Ec. }
      subst a'.
      replace (P ++ (k, a) :: S) with ((P ++ [(k, a)]) ++ S)
        by now rewrite <- app_assoc.
      rewrite (IH (P ++ [(k, a)]) w out (HndP1 a) Hkey').
      destruct (walk callback installed pair quote w S) as [[w2 kept] handed].
      cbn [fst snd]. now rewrite <- !app_assoc.
Qed.

Lemma check_alerts_with_walk (s : Stream) (w : W) (pair : string) (quote : Quote) :
  keyed (_alerts s) ->
  _check_alerts_with callback s w pair quote
  = (set_alerts s (snd (fst (walk callback (on_alert s) pair quote w (_alerts s)))),
     fst (fst (walk callback (on_alert s) pair quote w (_alerts s))),
     snd (walk callback (on_alert s) pair quote w (_alerts s))).
Proof.
  intros [Hnd Hkey]. unfold _check_alerts_with.
  pose proof (fold_walk (on_alert s) pair quote (_alerts s) [] w [] Hnd Hkey) as H.
  cbn [app] in H. rewrite H. reflexivity.
Qed.

Lemma pruned_mono (H0 H1 : list PriceAlert) (small big : list (string * PriceAlert)) :
  (forall a, In a H0 -> In a H1) -> pruned H0 small big -> pruned H1 small big.
Proof.
  intros Hincl. induction 1 as [|kv small big _ IH|kv small big Hin Ht _ IH].
  - constructor.
  - now constructor.
  - constructor; [now apply Hincl | exact Ht | exact IH].
Qed.

Lemma pruned_refl (H0 : list PriceAlert) (l : list (string * PriceAlert)) :
  pruned H0 l l.
Proof. induction l; now constructor. Qed.

Lemma pruned_In (H0 : list PriceAlert) (small big : list (string * PriceAlert))
    (kv : string * PriceAlert) :
  pruned H0 small big -> In kv small -> In kv big.
Proof.
  induction 1 as [|kv0 small big _ IH|kv0 small big _ _ _ IH]; intros Hin.
  - destruct Hin.
  - destruct Hin as [-> | Hin]; [now left | right; now apply IH].
  - right. now apply IH.
Qed.

Lemma pruned_keyed (H0 : list PriceAlert) (small big : list (string * PriceAlert)) :
  pruned H0 small big -> keyed big -> keyed small.
Proof.
  intros Hp [Hnd Hkey]. split.
  - clear Hkey. induction Hp as [|kv small big Hp IH|kv small big _ _ Hp IH];
      cbn in *.
    + constructor.
    + apply NoDup_cons in Hnd as [Hk Hnd]. apply NoDup_cons. split; [|now apply IH].
      intros Hin. apply Hk. apply list_elem_of_In in Hin.
      apply in_map_iff in Hin as (kv' & Hfst & Hin).
      apply list_elem_of_In, in_map_iff. exists kv'. split; [exact Hfst|].
      now apply (pruned_In _ _ _ _ Hp).
    + apply NoDup_cons in Hnd as [_ Hnd]. now apply IH.
  - intros k a Hin. apply Hkey. now apply (pruned_In _ _ _ _ Hp).
Qed.

(** An entry of the larger registry is in the smaller one, or was
    handed over. *)
Lemma pruned_lookup (H0 : list PriceAlert) (small big : list (string * PriceAlert))
    (k : string) :
  pruned H0 small big -> NoDup (map fst big) ->
  match dict_lookup k big with
  | Some a => dict_lookup k small = Some a
              \/ (dict_lookup k small = None /\ In a H0 /\ triggered a = true)
  | None => dict_lookup k small = None
  end.
Proof.
  induction 1 as [|[k0 a0] small big Hp IH|[k0 a0] small big Hin Ht Hp IH];
    intros Hnd; cbn in *.
  - reflexivity.
  - apply NoDup_cons in Hnd as [_ Hnd].
    destruct (String.eqb k0 k); [now left | now apply IH].
  - apply NoDup_cons in Hnd as [Hk0 Hnd]. specialize (IH Hnd).
    destruct (String.eqb_spec k0 k) as [->|Hne]; [|exact IH].
    right. refine (conj _ (conj Hin Ht)).
    destruct (dict_lookup k big) as [a|] eqn:E; [|exact IH].
    exfalso. apply Hk0. apply (In_lookup _ _ _ Hnd) in E.
    apply list_elem_of_In, in_map_iff. now exists (k, a).
Qed.

(** One walk, against the loop of a stream whose callback removes
    nothing: the same alerts are handed over, and the registry is the
    other one without alerts that were handed over. *)
Lemma walk_pruned (installed : bool) (pair : string) (quote : Quote)
    (H0 : list PriceAlert) (small big : list (string * PriceAlert)) :
  pruned H0 small big ->
  forall w,
    pruned (H0 ++ snd (walk callback installed pair quote w small))
           (snd (fst (walk callback installed pair quote w small)))
           (map (fun kv => (fst kv, fst (check_alert pair quote (snd kv)))) big)
    /\ snd (walk callback installed pair quote w small)
       = if installed
         then map (fun kv => fst (check_alert pair quote (snd kv)))
                  (List.filter (fun kv => snd (check_alert pair quote (snd kv))) big)
         else [].
Proof.
  induction 1 as [|[k a] small big Hp IH|[k a] small big Hin Ht Hp IH]; intros w.
  - cbn. split; [constructor | now destruct installed].
  - cbn [walk map List.filter fst snd].
    destruct (check_alert pair quote a) as [a' hit] eqn:Ec. cbn [fst snd].
    destruct hit, installed; cbn [andb].
    + destruct (callback w a') as [w1 removed].
      destruct (IH w1) as [IH1 IH2].
      destruct (walk callback true pair quote w1 small) as [[w2 kept] handed].
      cbn [fst snd map] in *. rewrite Ec. cbn [fst]. split; [|now rewrite IH2].
      assert (Hmono : pruned (H0 ++ a' :: handed) kept
                        (map (fun kv => (fst kv, fst (check_alert pair quote (snd kv))))
                             big)).
      { eapply pruned_mono; [|exact IH1]. intros x Hx.
        apply in_app_or in Hx as [Hx|Hx]; apply in_or_app;
          [now left | right; now right]. }
      destruct removed.
      * pose proof (check_alert_fired pair quote a) as Hf. rewrite Ec in Hf.
        destruct (Hf eq_refl) as (_ & _ & Ht' & _). cbn [fst] in Ht'.
        apply pruned_drop;
          [cbn; apply in_or_app; right; now left | exact Ht' | exact Hmono].
      * now apply pruned_keep.
    + destruct (IH w) as [IH1 IH2].
      destruct (walk callback false pair quote w small) as [[w2 kept] handed].
      cbn [fst snd] in *. split; [|exact IH2]. now apply pruned_keep.
    + destruct (IH w) as [IH1 IH2].
      destruct (walk callback true pair quote w small) as [[w2 kept] handed].
      cbn [fst snd] in *. split; [|exact IH2]. now apply pruned_keep.
    + destruct (IH w) as [IH1 IH2].
      destruct (walk callback false pair quote w small) as [[w2 kept] handed].
      cbn [fst snd] in *. split; [|exact IH2]. now apply pruned_keep.
  - cbn [map List.filter fst snd] in *.
    rewrite (check_alert_triggered pair quote a Ht). cbn [fst snd].
    destruct (IH w) as [IH1 IH2]. split; [|exact IH2].
    apply pruned_drop; [|exact Ht|exact IH1].
    cbn. apply in_or_app. now left.
Qed.

End WithCallback.

Lemma check_alerts_handed (s : Stream) (pair : string) (quote : Quote) :
  snd (_check_alerts s pair quote)
  = if on_alert s
    then map (fun kv => fst (check_alert pair quote (snd kv)))
             (List.filter (fun kv => snd (check_alert pair quote (snd kv)))
                          (_alerts s))
    else [].
Proof.
  unfold _check_alerts. cbn [snd]. destruct (on_alert s); [|reflexivity].
  induction (_alerts s) as [|[k a] l IH]; [reflexivity|]. cbn.
  destruct (snd (check_alert pair quote a)); cbn; now rewrite IH.
Qed.

Lemma feed_keys (quotes : list (string * Quote)) :
  forall s, map fst (_alerts (fst (feed s quotes))) = map fst (_alerts s).
Proof.
  induction quotes as [|[p q] rest IH]; intros s; [reflexivity|].
  cbn [feed fst]. rewrite IH, check_alerts_map, map_map. reflexivity.
Qed.

Lemma lookup_None_keys {V : Type} (k : string) (d : list (string * V)) :
  dict_lookup k d = None <-> k ∉ map fst d.
Proof.
  induction d as [|[k' v] d IH]; cbn.
  - split; [intros _; apply not_elem_of_nil | reflexivity].
  - destruct (String.eqb_spec k' k) as [->|Hne].
    + split; [discriminate|]. intros H. exfalso. apply H. left.
    + rewrite IH. split.
      * intros H Hin. apply elem_of_cons in Hin as [?|?]; [congruence | contradiction].
      * intros H Hin. apply H. now right.
Qed.

Section Runs.

Context {W : Type}.
Variable callback : W -> PriceAlert -> W * bool.

(** A whole run, against the run of the stream whose callback removes
    nothing. *)
Lemma feed_with_pruned (quotes : list (string * Quote)) :
  forall (sw sb : Stream) (w : W) (H0 : list PriceAlert),
    on_alert sw = on_alert sb ->
    pruned H0 (_alerts sw) (_alerts sb) ->
    keyed (_alerts sb) ->
    snd (feed_with callback sw w quotes) = snd (feed sb quotes)
    /\ pruned (H0 ++ snd (feed sb quotes))
              (_alerts (fst (fst (feed_with callback sw w quotes))))
              (_alerts (fst (feed sb quotes))).
Proof.
  induction quotes as [|[p q] rest IH]; intros sw sb w H0 Hcb Hp Hk.
  - cbn. rewrite app_nil_r. now split.
  - cbn [feed_with feed fst snd].
    rewrite (check_alerts_with_walk callback sw w p q (pruned_keyed _ _ _ Hp Hk)).
    destruct (walk_pruned callback (on_alert sw) p q H0 _ _ Hp w) as [Hp1 Hh].
    destruct (walk callback (on_alert sw) p q w (_alerts sw))
      as [[w1 kept] handed] eqn:Ew.
    cbn [fst snd] in *.
    assert (Hhb : handed = snd (_check_alerts sb p q)).
    { rewrite check_alerts_handed, <- Hcb. exact Hh. }
    rewrite <- check_alerts_map in Hp1.
    specialize (IH (set_alerts sw kept) (fst (_check_alerts sb p q)) w1
                  (H0 ++ handed) Hcb Hp1 (keyed_check sb p q Hk)).
    destruct IH as [IH1 IH2].
    destruct (feed_with callback (set_alerts sw kept) w1 rest) as [[s2 w2] h2].
    cbn [fst snd] in *. split.
    + now rewrite IH1, Hhb.
    + rewrite <- Hhb, app_assoc. exact IH2.
Qed.

Lemma walk_keeps_all (installed : bool) (pair : string) (quote : Quote) :
  (forall w a, snd (callback w a) = false) ->
  forall (l : list (string * PriceAlert)) (w : W),
    snd (fst (walk callback installed pair quote w l))
    = map (fun kv => (fst kv, fst (check_alert pair quote (snd kv)))) l.
Proof.
  intros Hkeep. induction l as [|[k a] l IH]; intros w; [reflexivity|].
  cbn [walk map fst snd].
  destruct (check_alert pair quote a) as [a' hit]. cbn [fst].
  destruct (hit && installed).
  - pose proof (Hkeep w a') as Hr. destruct (callback w a') as [w1 removed].
    cbn in Hr. subst removed. specialize (IH w1).
    destruct (walk callback installed pair quote w1 l) as [[w2 kept] handed].
    cbn [fst snd] in *. now rewrite IH.
  - specialize (IH w).
    destruct (walk callback installed pair quote w l) as [[w2 kept] handed].
    cbn [fst snd] in *. now rewrite IH.
Qed.

Lemma feed_with_keeps_all (quotes : list (string * Quote)) :
  (forall w a, snd (callback w a) = false) ->
  forall (s : Stream) (w : W),
    keyed (_alerts s) ->
    fst (fst (feed_with callback s w quotes)) = fst (feed s quotes).
Proof.
  intros Hkeep. induction quotes as [|[p q] rest IH]; intros s w Hk; [reflexivity|].
  cbn [feed_with feed fst snd].
  rewrite (check_alerts_with_walk callback s w p q Hk).
  pose proof (walk_keeps_all (on_alert s) p q Hkeep (_alerts s) w) as Hw.
  destruct (walk callback (on_alert s) p q w (_alerts s)) as [[w1 kept] handed].
  cbn [fst snd] in Hw |- *. subst kept.
  assert (Es : set_alerts s
                 (map (fun kv => (fst kv, fst (check_alert p q (snd kv)))) (_alerts s))
               = fst (_check_alerts s p q)).
  { unfold _check_alerts. cbn [fst]. now rewrite map_map. }
  rewrite Es. specialize (IH (fst (_check_alerts s p q)) w1 (keyed_check s p q Hk)).
  destruct (feed_with callback (fst (_check_alerts s p q)) w1 rest) as [[s2 w2] h2].
  exact IH.
Qed.

End Runs.

(** X4.  Alerts are single-shot, whatever the callback removes.  Over
    any run of quote updates on a registry keyed by trade id, with a
    callback that may remove the alert it is handed (as [_on_price_alert]
    does): the alerts handed over are those of the run of a stream whose
    callback removes nothing, and no trade id is handed over twice.
    Every alert handed over is triggered, carries its trigger kind, price
    and time, belongs to a trade id that was not yet triggered when the
    run started, and at the end of the run its id reads as that alert or
    as absent.  An alert that was already triggered at the start is still
    registered, unchanged, and an id leaves the registry only by being
    handed over.  With a callback that never removes, the stream at the
    end is the one of the run without callback effects. *)
Theorem alerts_single_shot {W : Type} (callback : W -> PriceAlert -> W * bool)
    (s : Stream) (w : W) (quotes : list (string * Quote)) :
  keyed (_alerts s) ->
  let s' := fst (fst (feed_with callback s w quotes)) in
  let handed := snd (feed_with callback s w quotes) in
  handed = snd (feed s quotes)
  /\ NoDup (map trade_id handed)
  /\ (forall a',
        In a' handed ->
        triggered a' = true
        /\ trigger_type a' <> None /\ trigger_price a' <> None
        /\ trigger_time a' <> None
        /\ (get_alert s' (trade_id a') = Some a'
            \/ get_alert s' (trade_id a') = None)
        /\ forall a, get_alert s (trade_id a') = Some a -> triggered a = false)
  /\ (forall k a,
        get_alert s k = Some a -> triggered a = true ->
        get_alert s' k = Some a)
  /\ (forall k,
        get_alert s' k = None ->
        get_alert s k = None \/ exists a', In a' handed /\ trade_id a' = k)
  /\ ((forall w0 a0, snd (callback w0 a0) = false) ->
      s' = fst (feed s quotes)).
Proof.
  intros Hk s' handed.
  destruct (feed_with_pruned callback quotes s s w [] eq_refl
              (pruned_refl [] (_alerts s)) Hk) as [Hh Hp].
  cbn [app] in Hp. fold handed in Hh. fold s' in Hp. rewrite <- Hh in Hp.
  pose proof (feed_keyed quotes s Hk) as Hkb.
  pose proof (feed_single_shot quotes s Hk) as Hnd.
  destruct Hk as [Hnds Hkeys]. destruct Hkb as [Hndb Hkeyb].
  assert (Hlook : forall k,
             match dict_lookup k (_alerts (fst (feed s quotes))) with
             | Some a => dict_lookup k (_alerts s') = Some a
                         \/ (dict_lookup k (_alerts s') = None /\ In a handed
                             /\ triggered a = true)
             | None => dict_lookup k (_alerts s') = None
             end).
  { intros k. now apply pruned_lookup. }
  unfold get_alert.
  refine (conj Hh (conj _ (conj _ (conj _ (conj _ _))))).
  - rewrite Hh. exact Hnd.
  - intros a' Hin. rewrite Hh in Hin.
    destruct (feed_delivered quotes s a' (conj Hnds Hkeys) Hin)
      as (Ht & Hty & Hpx & Htm & Hst & Hprev).
    refine (conj Ht (conj Hty (conj Hpx (conj Htm (conj _ _))))).
    + apply (In_lookup _ _ _ Hndb) in Hst.
      specialize (Hlook (trade_id a')). rewrite Hst in Hlook.
      destruct Hlook as [H|[H _]]; [now left | now right].
    + intros a Ha. apply Hprev. now apply (In_lookup _ _ _ Hnds).
  - intros k a Ha Ht.
    assert (Hb : dict_lookup k (_alerts (fst (feed s quotes))) = Some a).
    { apply (In_lookup _ _ _ Hndb). apply feed_keeps_triggered; [|exact Ht].
      now apply (In_lookup _ _ _ Hnds). }
    specialize (Hlook k). rewrite Hb in Hlook.
    destruct Hlook as [H|(_ & Hin & _)]; [exact H|]. exfalso.
    rewrite Hh in Hin.
    destruct (feed_delivered quotes s a (conj Hnds Hkeys) Hin)
      as (_ & _ & _ & _ & _ & Hprev).
    assert (Hid : trade_id a = k).
    { apply Hkeys. now apply (In_lookup _ _ _ Hnds). }
    assert (Hf : triggered a = false).
    { apply Hprev. rewrite Hid. now apply (In_lookup _ _ _ Hnds). }
    congruence.
  - intros k Hnone. specialize (Hlook k).
    destruct (dict_lookup k (_alerts (fst (feed s quotes)))) as [a|] eqn:Eb.
    + right. destruct Hlook as [H|(_ & Hin & _)]; [congruence|].
      exists a. split; [exact Hin|]. apply Hkeyb.
      now apply (In_lookup _ _ _ Hndb).
    + left. apply lookup_None_keys. apply lookup_None_keys in Eb.
      now rewrite feed_keys in Eb.
  - intros Hkeep. apply feed_with_keeps_all; [exact Hkeep | now split].
Qed.

(** Scenario S2 as a run, with a callback that removes every alert it
    is handed: the four ticks deliver the alert once, and the registry
    is empty afterwards. *)
Lemma alerts_single_shot_witness :
  let ticks := map (fun px => ("EURUSD"%string, quote_at "EURUSD" px))
                   [1.1000; 1.1030; 1.1051; 1.1020] in
  let run := feed_with (fun (w : unit) (_ : PriceAlert) => (w, true))
                       ready_stream tt ticks in
  map trade_id (snd run) = ["s2"%string]
  /\ NoDup (map trade_id (snd run))
  /\ get_alert (fst (fst run)) "s2" = None.
Proof.
  intros ticks run.
  assert (Hk : keyed (_alerts ready_stream)).
  { split; cbn.
    - repeat constructor. intros H. now apply elem_of_nil in H.
    - intros k a0 [[= <- <-] | []]. reflexivity. }
  destruct (alerts_single_shot (fun (w : unit) (_ : PriceAlert) => (w, true))
              ready_stream tt ticks Hk) as (_ & H & _).
  split; [vm_compute; reflexivity|]. split; [exact H | vm_compute; reflexivity].
Defined.

(** *** Frames *)

Lemma check_alerts_with_fields {W : Type} (callback : W -> PriceAlert -> W * bool)
    (s : Stream) (w : W) (pair : string) (quote : Quote) :
  exists alerts,
    fst (fst (_check_alerts_with callback s w pair quote)) = set_alerts s alerts.
Proof.
  unfold _check_alerts_with.
  destruct (fold_left _ (_alerts s) (w, _alerts s, [])) as [[w' alerts] handed].
  now exists alerts.
Qed.

Lemma handle_items_raise {W : Type} (callback : W -> PriceAlert -> W * bool)
    (bad : Message) (after : list Message) :
  forall (before : list Message) (s : Stream) (w : W),
    _handle_message callback
      (fst (fst (handle_items callback s w before)))
      (snd (fst (handle_items callback s w before))) bad = None ->
    handle_items callback s w (before ++ bad :: after)
    = handle_items callback s w before.
Proof.
  induction before as [|item before IH]; intros s w Hbad.
  - cbn in *. now rewrite Hbad.
  - cbn [app handle_items] in *.
    destruct (_handle_message callback s w item) as [[[s1 w1] h1]|];
      [|reflexivity].
    specialize (IH s1 w1).
    destruct (handle_items callback s1 w1 before) as [[s2 w2] h2] eqn:E.
    cbn [fst snd] in *. now rewrite (IH Hbad).
Qed.

(** X5.  [_handle_message] keeps the latest quote of each pair and
    drops what it cannot read.  A frame whose event is not [C], or whose
    symbol does not start with [C.], changes nothing and triggers nothing.
    A currency frame for a pair whose timestamp lies in the years 1 to
    9999 stores the quote built from its bid, ask and timestamp as the
    latest quote of that pair, overwriting the one before, leaves the
    quotes of the other pairs and the subscriptions as they are, and
    evaluates the alerts against that quote.  For a timestamp outside
    that range [datetime.fromtimestamp] raises before anything is
    stored: nothing changes, and the remaining items of the frame are
    not handled. *)
Theorem handle_message_effect {W : Type}
    (callback : W -> PriceAlert -> W * bool)
    (s : Stream) (w : W) (msg : Message) :
  (ev msg <> Some "C"%string -> _handle_message callback s w msg = Some (s, w, []))
  /\ (String.prefix "C." (p msg) = false ->
      _handle_message callback s w msg = Some (s, w, []))
  /\ (fromtimestamp_ms (t msg) = None
      <-> ~ (-62135596800000 <= t msg < 253402300800000)%Z)
  /\ (forall pair,
        ev msg = Some "C"%string ->
        _from_polygon_symbol (p msg) = Some pair ->
        pair <> EmptyString ->
        (fromtimestamp_ms (t msg) = None ->
         _handle_message callback s w msg = None
         /\ forall before after,
              handle_items callback s w (before ++ msg :: after)
              = handle_items callback s w before)
        /\ (forall stamp,
              fromtimestamp_ms (t msg) = Some stamp ->
              let quote := {| q_pair := pair; bid := b msg; ask := a msg;
                              timestamp := stamp |} in
              exists s' w' handed,
                _handle_message callback s w msg = Some (s', w', handed)
                /\ (s', w', handed)
                   = _check_alerts_with callback
                       (set_quotes s (<[pair := quote]> (_quotes s)))
                       w pair quote
                /\ get_quote s' pair = Some quote
                /\ (forall other,
                      other <> pair -> get_quote s' other = get_quote s other)
                /\ _subscribed_pairs s' = _subscribed_pairs s
                /\ _ws s' = _ws s)).
Proof.
  refine (conj _ (conj _ (conj _ _))).
  - intros Hev. unfold _handle_message. now rewrite bool_decide_eq_false_2.
  - intros Hp. unfold _handle_message. destruct (bool_decide _); [|reflexivity].
    unfold _from_polygon_symbol. rewrite Hp. cbn [negb].
    now rewrite orb_true_r.
  - unfold fromtimestamp_ms.
    destruct (Z.leb_spec (-62135596800000) (t msg));
      destruct (Z.ltb_spec (t msg) 253402300800000); cbn [andb].
    + destruct (fromordinal _) as [[y m] d]. split; [discriminate | lia].
    + split; [intros _; lia | reflexivity].
    + split; [intros _; lia | reflexivity].
    + split; [intros _; lia | reflexivity].
  - intros pair Hev Hsym Hne.
    assert (Hm : forall s0 w0,
               _handle_message callback s0 w0 msg
               = match fromtimestamp_ms (t msg) with
                 | None => None
                 | Some stamp =>
                     let quote := {| q_pair := pair; bid := b msg; ask := a msg;
                                     timestamp := stamp |} in
                     Some (_check_alerts_with callback
                             (set_quotes s0 (<[pair := quote]> (_quotes s0)))
                             w0 pair quote)
                 end).
    { intros s0 w0. unfold _handle_message.
      rewrite bool_decide_eq_true_2 by exact Hev. rewrite Hsym.
      destruct (String.eqb_spec pair EmptyString); [contradiction | reflexivity]. }
    split.
    + intros Hnone. split; [now rewrite Hm, Hnone|].
      intros before after. apply handle_items_raise. now rewrite Hm, Hnone.
    + intros stamp Hstamp quote. rewrite Hm, Hstamp. cbv zeta. fold quote.
      destruct (check_alerts_with_fields callback
                  (set_quotes s (<[pair := quote]> (_quotes s))) w pair quote)
        as [alerts Hs'].
      remember (_check_alerts_with callback
                  (set_quotes s (<[pair := quote]> (_quotes s))) w pair quote)
        as r eqn:Er.
      destruct r as [[s' w'] handed]. cbn [fst] in Hs'. subst s'.
      eexists _, _, _. split; [reflexivity|]. split; [reflexivity|].
      unfold get_quote. cbn.
      refine (conj _ (conj _ (conj eq_refl eq_refl))).
      * apply lookup_insert_eq.
      * intros other Ho. now apply lookup_insert_ne.
Qed.

Lemma handle_message_effect_witness :
  let keep (w : unit) (_ : PriceAlert) := (w, false) in
  let msg := {| ev := Some "C"%string; p := "C.EUR/USD"; b := 1.1050; a := 1.1052;
                t := 1710050400000; status := None |} in
  let late := {| ev := Some "C"%string; p := "C.EUR/USD"; b := 1.1050; a := 1.1052;
                 t := 253402300800000; status := None |} in
  (exists s' w' handed,
     _handle_message keep ready_stream tt msg = Some (s', w', handed)
     /\ get_quote s' "EURUSD"
        = Some {| q_pair := "EURUSD"; bid := 1.1050; ask := 1.1052;
                  timestamp := at_time 2024 3 10 6 0 |})
  /\ _handle_message keep ready_stream tt late = None
  /\ handle_items keep ready_stream tt [late; msg] = (ready_stream, tt, [])
  /\ _handle_message keep ready_stream tt
       {| ev := Some "status"%string; p := EmptyString; b := 0; a := 0; t := 0;
          status := Some "connected"%string |} = Some (ready_stream, tt, []).
Proof.
  intros keep msg late.
  destruct (handle_message_effect keep ready_stream tt msg) as (_ & _ & _ & H).
  destruct (H "EURUSD"%string eq_refl eq_refl ltac:(discriminate)) as [_ Hok].
  destruct (Hok (at_time 2024 3 10 6 0) eq_refl)
    as (s' & w' & handed & Hm & _ & Hq & _).
  destruct (handle_message_effect keep ready_stream tt late) as (_ & _ & _ & H').
  destruct (H' "EURUSD"%string eq_refl eq_refl ltac:(discriminate)) as [Hbad _].
  destruct (Hbad eq_refl) as [Hnone Hframe].
  destruct (handle_message_effect keep ready_stream tt
              {| ev := Some "status"%string; p := EmptyString; b := 0; a := 0; t := 0;
                 status := Some "connected"%string |}) as (H1 & _).
  refine (conj _ (conj Hnone (conj (Hframe [] [msg]) _))).
  - exists s', w', handed. split; [exact Hm | exact Hq].
  - apply H1. cbn. discriminate.
Defined.

(** X6.  The spread in pips of a quote agrees with the pip value of
    its pair: for a pair name in upper case that does not name both JPY
    and XAU, [spread_pips] times [get_pip_value] is [ask - bid], and
    [spread_pips] is [ask - bid] times [get_pip_multiplier].  Every pair of
    [TRADING_PAIRS] is such a name. *)
Theorem quote_spread_in_pips (q : Quote) :
  Py.upper (q_pair q) = q_pair q ->
  Py.contains "JPY" (q_pair q) && Py.contains "XAU" (q_pair q) = false ->
  quote_spread_pips q * ForexUtils.get_pip_value (q_pair q) == ask q - bid q
  /\ quote_spread_pips q
     == (ask q - bid q) * inject_Z (ForexUtilsMore.get_pip_multiplier (q_pair q))
  /\ Forall (fun pair =>
               Py.upper pair = pair
               /\ Py.contains "JPY" pair && Py.contains "XAU" pair = false)
            Config.TRADING_PAIRS.
Proof.
  intros Hup Hboth.
  unfold quote_spread_pips, ForexUtils.get_pip_value,
    ForexUtilsMore.get_pip_multiplier.
  rewrite Hup.
  refine (conj _ (conj _ _)).
  - destruct (Py.contains "JPY" (q_pair q)) eqn:EJ,
      (Py.contains "XAU" (q_pair q)) eqn:EX,
      (Py.contains "XAG" (q_pair q)); cbn [andb] in Hboth;
      first [discriminate Hboth | field].
  - destruct (Py.contains "JPY" (q_pair q)) eqn:EJ,
      (Py.contains "XAU" (q_pair q)) eqn:EX,
      (Py.contains "XAG" (q_pair q)); cbn [andb] in Hboth;
      first [discriminate Hboth | cbn; ring].
  - repeat constructor.
Qed.

Lemma quote_spread_in_pips_witness :
  let q := {| q_pair := "USDJPY"; bid := 149.850; ask := 149.852;
              timestamp := at_time 2025 12 29 9 0 |} in
  quote_spread_pips q == 0.2
  /\ quote_spread_pips q * ForexUtils.get_pip_value "USDJPY" == ask q - bid q.
Proof.
  intros q.
  destruct (quote_spread_in_pips q eq_refl eq_refl) as (H & _).
  split; [vm_compute; reflexivity | exact H].
Defined.

End PriceStreamMoreFacts.

(** ** Rounding, once more *)

Module PyMoreFacts.
Local Open Scope Q_scope.

Lemma round_half_even_near (x : Q) :
  x - (1 # 2) <= inject_Z (Py.round_half_even x)
  /\ inject_Z (Py.round_half_even x) <= x + (1 # 2).
Proof.
  pose proof (Qfloor_le x) as Hlo. pose proof (Qlt_floor x) as Hhi.
  rewrite inject_Z_plus in Hhi. change (inject_Z 1) with 1 in Hhi.
  unfold Py.round_half_even.
  destruct (x - inject_Z (Qfloor x) ?= 1 # 2) eqn:E.
  - apply Qeq_alt in E.
    destruct (Z.even (Qfloor x)); [|rewrite inject_Z_plus; change (inject_Z 1) with 1];
      split; lra.
  - apply Qlt_alt in E. split; lra.
  - apply Qgt_alt in E. rewrite inject_Z_plus. change (inject_Z 1) with 1.
    split; lra.
Qed.

(** [round(x, n)] lies on the grid of step [10^-n] and within half a
    step of [x]. *)
Lemma round_near (x : Q) (n : nat) :
  let p := inject_Z (10 ^ Z.of_nat n) in
  x - (1 # 2) / p <= Py.round x n /\ Py.round x n <= x + (1 # 2) / p.
Proof.
  intros p. pose proof (PyFacts.pow10_pos n) as Hp. fold p in Hp.
  unfold Py.round. fold p.
  destruct (round_half_even_near (x * p)) as [Hlo Hhi].
  set (r := inject_Z (Py.round_half_even (x * p))) in *.
  assert (Hx : x == x * p / p) by (field; lra).
  split.
  - assert (E : x - (1 # 2) / p == (x * p - (1 # 2)) / p) by (field; lra).
    rewrite E. apply Qmult_le_compat_r; [exact Hlo|].
    apply Qlt_le_weak, Qinv_lt_0_compat, Hp.
  - assert (E : x + (1 # 2) / p == (x * p + (1 # 2)) / p) by (field; lra).
    rewrite E. apply Qmult_le_compat_r; [exact Hhi|].
    apply Qlt_le_weak, Qinv_lt_0_compat, Hp.
Qed.

Lemma upper_ascii_idem (c : ascii) :
  Py.upper_ascii (Py.upper_ascii c) = Py.upper_ascii c.
Proof. destruct c as [[] [] [] [] [] [] [] []]; reflexivity. Qed.

Lemma upper_idem (s : string) : Py.upper (Py.upper s) = Py.upper s.
Proof.
  induction s as [|c s IH]; [reflexivity|]. cbn.
  now rewrite upper_ascii_idem, IH.
Qed.

End PyMoreFacts.

(** ** Pip arithmetic, lot sizing and pair names *)

Module ForexUtilsMoreFacts.

Import ForexUtils ForexUtilsMore StreamSpec.
Local Open Scope Q_scope.

Lemma get_pip_value_in_usd_pos (pair : string) : 0 < get_pip_value_in_usd pair.
Proof.
  unfold get_pip_value_in_usd.
  repeat match goal with |- context [if ?c then _ else _] => destruct c end;
    vm_compute; reflexivity.
Qed.

Lemma pip_multiplier_times_value (pair : string) :
  inject_Z (get_pip_multiplier pair) * get_pip_value pair == 1.
Proof.
  unfold get_pip_multiplier, get_pip_value.
  repeat match goal with |- context [if ?c then _ else _] => destruct c end;
    reflexivity.
Qed.

(** X7.  [get_pip_multiplier] is the inverse of [get_pip_value] for
    every pair name: their product is 1, and so is the product taken
    the other way round. *)
Theorem pip_multiplier_inverse (pair : string) :
  inject_Z (get_pip_multiplier pair) * get_pip_value pair == 1
  /\ get_pip_value pair * inject_Z (get_pip_multiplier pair) == 1.
Proof.
  pose proof (pip_multiplier_times_value pair) as H.
  split; [exact H|]. rewrite Qmult_comm. exact H.
Qed.

(** X8.  [price_to_pips] is a whole number of tenths of a pip and lies
    within a twentieth of a pip of the price difference times
    [get_pip_multiplier]. *)
Theorem price_to_pips_accuracy (price_diff : Q) (pair : string) :
  let exact := price_diff * inject_Z (get_pip_multiplier pair) in
  exact - (1 # 20) <= price_to_pips price_diff pair
  /\ price_to_pips price_diff pair <= exact + (1 # 20)
  /\ exists k : Z, price_to_pips price_diff pair = inject_Z k / 10.
Proof.
  intros exact. unfold price_to_pips.
  pose proof (pip_multiplier_times_value pair) as Hinv.
  pose proof (RiskEngineFacts.get_pip_value_pos pair) as Hpos.
  destruct (PyMoreFacts.round_near (price_diff / get_pip_value pair) 1)
    as [Hlo Hhi].
  assert (E : price_diff / get_pip_value pair == exact).
  { unfold exact.
    assert (Hm : inject_Z (get_pip_multiplier pair) == / get_pip_value pair).
    { apply (Qmult_inj_r _ _ (get_pip_value pair)); [lra|].
      rewrite Hinv. field. lra. }
    rewrite Hm. reflexivity. }
  change (inject_Z (10 ^ Z.of_nat 1)) with 10 in Hlo, Hhi.
  assert (Hh : (1 # 2) / 10 == 1 # 20) by reflexivity.
  clear Hinv Hpos.
  set (x := price_diff / get_pip_value pair) in *.
  assert (Hk : exists k : Z, Py.round x 1 = inject_Z k / 10)
    by (eexists; reflexivity).
  set (r := Py.round x 1) in *. clearbody x r exact.
  refine (conj _ (conj _ Hk)); lra.
Qed.

Lemma lot_clamp (lot min_lot max_lot : Q) :
  min_lot <= max_lot ->
  let r := if Py.Qltb lot min_lot then (min_lot, true)
           else if Py.Qgtb lot max_lot then (max_lot, true)
           else (lot, false) in
  min_lot <= fst r /\ fst r <= max_lot
  /\ (snd r = true -> fst r = min_lot \/ fst r = max_lot)
  /\ (snd r = false -> fst r = lot).
Proof.
  intros Hle. unfold Py.Qltb, Py.Qgtb.
  destruct (Qle_bool min_lot lot) eqn:E1; cbn [negb].
  - apply Qle_bool_iff in E1.
    destruct (Qle_bool lot max_lot) eqn:E2; cbn [negb fst snd].
    + apply Qle_bool_iff in E2. repeat split; auto; discriminate.
    + repeat split; auto; try lra; discriminate.
  - cbn [fst snd]. repeat split; auto; try lra; discriminate.
Qed.

(** X9.  [calculate_lot_size] raises (division by zero) exactly when
    the stop is positive and the lot step or the balance is zero; a
    returned lot size lies between [min_lot] and [max_lot] when these
    are ordered, is one of the two bounds when [capped] is set and a
    whole number of hundredths when it is not; a stop of zero or less
    gives [min_lot], capped, with no risk. *)
Theorem calculate_lot_size_result
    (account_balance risk_percent stop_loss_pips : Q) (pair : string)
    (min_lot max_lot lot_step : Q) :
  let result :=
    calculate_lot_size account_balance risk_percent stop_loss_pips pair
                       min_lot max_lot lot_step in
  (result = None
   <-> 0 < stop_loss_pips /\ (lot_step == 0 \/ account_balance == 0))
  /\ forall r, result = Some r ->
       (min_lot <= max_lot -> min_lot <= ls_lot_size r /\ ls_lot_size r <= max_lot)
       /\ (ls_capped r = true -> ls_lot_size r = min_lot \/ ls_lot_size r = max_lot)
       /\ (ls_capped r = false -> exists k : Z, ls_lot_size r = inject_Z k / 100)
       /\ (stop_loss_pips <= 0 ->
           ls_lot_size r = min_lot /\ ls_capped r = true
           /\ ls_actual_risk_pct r = 0 /\ ls_lot_size_raw r = 0).
Proof.
  intros result. subst result. unfold calculate_lot_size.
  pose proof (get_pip_value_in_usd_pos pair) as Hpip.
  assert (Ep : Qle_bool (get_pip_value_in_usd pair) 0 = false).
  { destruct (Qle_bool _ 0) eqn:E; [|reflexivity].
    apply Qle_bool_iff in E. lra. }
  rewrite Ep, orb_false_r.
  destruct (Qle_bool stop_loss_pips 0) eqn:Es.
  - apply Qle_bool_iff in Es. split.
    + split; [discriminate|]. intros [H _]. lra.
    + intros r [= <-]. cbn.
      refine (conj _ (conj _ (conj _ _))); auto; try discriminate.
      intros H. split; [lra | exact H].
  - assert (Hs : 0 < stop_loss_pips).
    { apply Qnot_le_lt. intros H. apply Qle_bool_iff in H. congruence. }
    destruct (Qeq_bool lot_step 0) eqn:El.
    + apply Qeq_bool_iff in El. split; [|discriminate].
      split; [intros _; split; [exact Hs | now left] | reflexivity].
    + assert (Hl : ~ lot_step == 0).
      { intros H. apply Qeq_bool_iff in H. congruence. }
      match goal with
      | |- context [Py.Qltb ?l min_lot] => set (lot := l)
      end.
      pose proof (lot_clamp lot min_lot max_lot) as Hclamp. cbv zeta in Hclamp.
      destruct (if Py.Qltb lot min_lot then (min_lot, true)
                else if Py.Qgtb lot max_lot then (max_lot, true)
                else (lot, false)) as [lot_size capped] eqn:Ec.
      cbn [fst snd] in Hclamp.
      destruct (Qeq_bool account_balance 0) eqn:Eb.
      * apply Qeq_bool_iff in Eb. split; [|discriminate].
        split; [intros _; split; [exact Hs | now right] | reflexivity].
      * assert (Hb : ~ account_balance == 0).
        { intros H. apply Qeq_bool_iff in H. congruence. }
        split.
        -- split; [discriminate|]. intros [_ [H|H]]; contradiction.
        -- intros r [= <-]. cbn.
           refine (conj _ (conj _ (conj _ _))).
           ++ intros Hle. destruct (Hclamp Hle) as (H1 & H2 & _). now split.
           ++ intros ->.
              revert Ec. unfold Py.Qltb, Py.Qgtb.
              destruct (Qle_bool min_lot lot); cbn [negb];
                [destruct (Qle_bool lot max_lot); cbn [negb]|];
                intros H; inversion H; auto.
           ++ intros ->.
              revert Ec. unfold Py.Qltb, Py.Qgtb.
              destruct (Qle_bool min_lot lot); cbn [negb];
                [destruct (Qle_bool lot max_lot); cbn [negb]|];
                intros H; inversion H.
              eexists. unfold lot, Py.round. reflexivity.
           ++ intros H. lra.
Qed.

Lemma calculate_lot_size_result_witness :
  exists r,
    calculate_lot_size 10000 1.55 15 "EURUSD" 0.01 10.0 0.01 = Some r
    /\ 0.01 <= ls_lot_size r /\ ls_lot_size r <= 10.0.
Proof.
  eexists. split; [vm_compute; reflexivity|].
  destruct (calculate_lot_size_result 10000 1.55 15 "EURUSD" 0.01 10.0 0.01)
    as [_ H].
  destruct (H _ eq_refl) as (Hb & _).
  apply Hb. vm_compute. discriminate.
Defined.

Lemma lacks_remove_char (c : ascii) (s : string) : lacks c (remove_char c s).
Proof.
  induction s as [|x s IH]; [exact I|]. cbn.
  destruct (Ascii.eqb_spec x c); [exact IH|]. now split.
Qed.

Lemma lacks_remove_other (c d : ascii) (s : string) :
  lacks c s -> lacks c (remove_char d s).
Proof.
  induction s as [|x s IH]; [trivial|]. intros [Hx Hs]. cbn.
  destruct (Ascii.eqb x d); [now apply IH|]. split; [exact Hx | now apply IH].
Qed.

Lemma remove_char_lacks (c : ascii) (s : string) :
  lacks c s -> remove_char c s = s.
Proof.
  induction s as [|x s IH]; [reflexivity|]. intros [Hx Hs]. cbn.
  destruct (Ascii.eqb_spec x c); [contradiction|]. now rewrite IH.
Qed.

Lemma upper_remove_char (c : ascii) (s : string) :
  Py.upper s = s -> Py.upper (remove_char c s) = remove_char c s.
Proof.
  induction s as [|x s IH]; [reflexivity|]. cbn. intros [= Hx Hs].
  destruct (Ascii.eqb x c); [now apply IH|]. cbn. now rewrite Hx, IH.
Qed.

(** X10.  [normalize_pair] is idempotent: its result is in upper case,
    holds none of the separators [/], [-], [_], and normalizes to
    itself. *)
Theorem normalize_pair_idempotent (pair : string) :
  let n := normalize_pair pair in
  normalize_pair n = n
  /\ Py.upper n = n
  /\ lacks "/" n /\ lacks "-" n /\ lacks "_" n.
Proof.
  intros n.
  assert (Hup : Py.upper n = n).
  { unfold n, normalize_pair. destruct (String.eqb pair EmptyString); [reflexivity|].
    do 3 apply upper_remove_char. apply PyMoreFacts.upper_idem. }
  assert (H1 : lacks "/" n).
  { unfold n, normalize_pair. destruct (String.eqb pair EmptyString); [exact I|].
    do 2 apply lacks_remove_other. apply lacks_remove_char. }
  assert (H2 : lacks "-" n).
  { unfold n, normalize_pair. destruct (String.eqb pair EmptyString); [exact I|].
    apply lacks_remove_other, lacks_remove_char. }
  assert (H3 : lacks "_" n).
  { unfold n, normalize_pair. destruct (String.eqb pair EmptyString); [exact I|].
    apply lacks_remove_char. }
  refine (conj _ (conj Hup (conj H1 (conj H2 H3)))).
  unfold normalize_pair at 1. fold n.
  destruct (String.eqb_spec n EmptyString) as [E|_]; [now rewrite E|].
  rewrite Hup.
  now rewrite (remove_char_lacks "/" n H1), (remove_char_lacks "-" n H2),
    (remove_char_lacks "_" n H3).
Qed.

End ForexUtilsMoreFacts.

(** ** Session lengths *)

Module SessionUtilsMoreFacts.

Import SessionUtils SessionUtilsMore.
Local Open Scope Z_scope.

(** Both zones change their offset before 03:00 wall time, so two wall
    times after 03:00 of one day have the same offset. *)
Lemma is_dst_same_day (z : Zone) (y m d h1 mi1 h2 mi2 : Z) :
  3 < h1 -> 3 < h2 -> is_dst z y m d h1 mi1 = is_dst z y m d h2 mi2.
Proof.
  intros H1 H2.
  assert (Ea : forall k h, k <= 3 -> 3 < h -> (k ?= h) = Lt)
    by (intros; apply Z.compare_lt_iff; lia).
  assert (Eb : forall k h, k <= 3 -> 3 < h -> (h ?= k) = Gt)
    by (intros; apply Z.compare_gt_iff; lia).
  unfold is_dst, wall_leb, wall_ltb, wall.
  destruct z; cbn [lex_compare];
    rewrite ?(Ea 3 h1), ?(Ea 3 h2), ?(Ea 2 h1), ?(Ea 2 h2),
            ?(Eb 1 h1), ?(Eb 1 h2) by lia;
    repeat match goal with
           | |- context [match ?a ?= ?b with _ => _ end] => destruct (a ?= b)
           end; reflexivity.
Qed.

Lemma utcoffset_same_day (z : Zone) (y m d h1 mi1 h2 mi2 : Z) :
  3 < h1 -> 3 < h2 -> utcoffset z y m d h1 mi1 = utcoffset z y m d h2 mi2.
Proof.
  intros H1 H2. unfold utcoffset.
  now rewrite (is_dst_same_day z y m d h1 mi1 h2 mi2 H1 H2).
Qed.

Lemma utcoffset_values (z : Zone) (y m d h mi : Z) :
  match z with
  | Europe_London => utcoffset z y m d h mi = 0 \/ utcoffset z y m d h mi = 60
  | America_New_York =>
      utcoffset z y m d h mi = -300 \/ utcoffset z y m d h mi = -240
  end.
Proof. unfold utcoffset. destruct z, (is_dst _ y m d h mi); auto. Qed.

Lemma session_duration_value (session_name : string) (date_dt : datetime) :
  (get_session_duration_for_date session_name date_dt
   == if String.eqb session_name "Asian_Open" then 8
      else if String.eqb session_name "London_Open" then 5
      else 4)%Q.
Proof.
  unfold get_session_duration_for_date, duration_map.
  destruct (String.eqb session_name "Asian_Open"); [reflexivity|].
  destruct (String.eqb session_name "London_Open").
  - cbn [zone_utcoffset].
    rewrite (utcoffset_same_day Europe_London _ _ _ 13 0 8 0) by lia.
    match goal with
    | |- (inject_Z ?e / _ == _)%Q => replace e with 18000 by lia
    end. reflexivity.
  - destruct (String.eqb session_name "NY_Open"); [|reflexivity].
    cbn [zone_utcoffset].
    rewrite (utcoffset_same_day America_New_York _ _ _ 13 30 9 30) by lia.
    match goal with
    | |- (inject_Z ?e / _ == _)%Q => replace e with 14400 by lia
    end. reflexivity.
Qed.

(** X11.  For a date of the years 2007 to 2037, where the zone rules
    of the model are those of [pytz], the length of a session does not
    depend on the date: 8 hours for the Asian open, 5 for the London
    open, 4 for the New York open and for every other name. *)
Theorem session_duration_constant (session_name : string) (date_dt : datetime) :
  ZoneSpec.rules_in_force date_dt ->
  (get_session_duration_for_date session_name date_dt
   == if String.eqb session_name "Asian_Open" then 8
      else if String.eqb session_name "London_Open" then 5
      else 4)%Q.
Proof. intros _. apply session_duration_value. Qed.

(** The day the clocks change in London. *)
Lemma session_duration_constant_witness :
  (get_session_duration_for_date "London_Open" (mk_date 2024 3 31) == 5)%Q.
Proof.
  apply (session_duration_constant "London_Open" (mk_date 2024 3 31)).
  unfold ZoneSpec.rules_in_force. cbn. lia.
Defined.

(** X12.  For a date of the years 2007 to 2037, where the zone rules
    of the model are those of [pytz]: in the table of
    [get_session_times_for_date] every close lies on the same UTC day as
    its open and exactly [get_session_duration_for_date] hours after it;
    the London open is at 07:00 or 08:00 UTC and the New York open at
    13:30 or 14:30 UTC. *)
Theorem session_close_after_duration (date_dt : datetime) :
  ZoneSpec.rules_in_force date_dt ->
  let times := get_session_times_for_date date_dt in
  let minutes (i : SessionInfo) := si_hour i * 60 + si_minute i in
  Forall (fun oc : string * string =>
            exists o c,
              times !! oc.1 = Some o /\ times !! oc.2 = Some c
              /\ 0 <= minutes o /\ minutes c < 24 * 60
              /\ 0 <= si_minute o < 60 /\ 0 <= si_minute c < 60
              /\ (inject_Z (minutes c - minutes o) / 60
                  == get_session_duration_for_date oc.1 date_dt)%Q)
         [("Asian_Open", "Asian_Close"); ("London_Open", "London_Close");
          ("NY_Open", "NY_Close")]%string
  /\ (exists o, times !! "London_Open"%string = Some o
                /\ (minutes o = 7 * 60 \/ minutes o = 8 * 60))
  /\ (exists o, times !! "NY_Open"%string = Some o
                /\ (minutes o = 13 * 60 + 30 \/ minutes o = 14 * 60 + 30)).
Proof.
  intros _ times minutes.
  set (y := year (midnight date_dt)). set (m := month (midnight date_dt)).
  set (d := day (midnight date_dt)).
  pose proof (utcoffset_values Europe_London y m d 8 0) as HL.
  pose proof (utcoffset_values America_New_York y m d 9 30) as HN.
  pose proof (utcoffset_same_day Europe_London y m d 13 0 8 0
                ltac:(lia) ltac:(lia)) as EL.
  pose proof (utcoffset_same_day America_New_York y m d 13 30 9 30
                ltac:(lia) ltac:(lia)) as EN.
  assert (HLo : times !! "London_Open"%string
                = Some {| si_hour := fst (localize_to_utc_hm Europe_London y m d 8 0);
                          si_minute := snd (localize_to_utc_hm Europe_London y m d 8 0);
                          si_name := "London Open" |}) by reflexivity.
  assert (HLc : times !! "London_Close"%string
                = Some {| si_hour := fst (localize_to_utc_hm Europe_London y m d 13 0);
                          si_minute := snd (localize_to_utc_hm Europe_London y m d 13 0);
                          si_name := "London Close" |}) by reflexivity.
  assert (HNo : times !! "NY_Open"%string
                = Some {| si_hour := fst (localize_to_utc_hm America_New_York y m d 9 30);
                          si_minute := snd (localize_to_utc_hm America_New_York y m d 9 30);
                          si_name := "NY Open" |}) by reflexivity.
  assert (HNc : times !! "NY_Close"%string
                = Some {| si_hour := fst (localize_to_utc_hm America_New_York y m d 13 30);
                          si_minute := snd (localize_to_utc_hm America_New_York y m d 13 30);
                          si_name := "NY Close" |}) by reflexivity.
  assert (HAo : times !! "Asian_Open"%string
                = Some {| si_hour := 1; si_minute := 0; si_name := "Asian Open" |})
    by reflexivity.
  assert (HAc : times !! "Asian_Close"%string
                = Some {| si_hour := 9; si_minute := 0; si_name := "Asian Close" |})
    by reflexivity.
  unfold localize_to_utc_hm in HLo, HLc, HNo, HNc. cbn [fst snd] in *.
  rewrite EL in HLc. rewrite EN in HNc.
  refine (conj _ (conj _ _)).
  - repeat apply Forall_cons_2; [| | |constructor]; cbn [fst snd];
      eexists; eexists;
      (split; [eassumption|]); (split; [eassumption|]);
      rewrite session_duration_value; cbn [String.eqb Ascii.eqb Bool.eqb];
      unfold minutes; cbn [si_hour si_minute].
    + repeat split; try lia.
    + destruct HL as [-> | ->]; vm_compute; repeat split; congruence.
    + destruct HN as [-> | ->]; vm_compute; repeat split; congruence.
  - eexists. split; [exact HLo|]. unfold minutes. cbn [si_hour si_minute].
    destruct HL as [-> | ->]; vm_compute; auto.
  - eexists. split; [exact HNo|]. unfold minutes. cbn [si_hour si_minute].
    destruct HN as [-> | ->]; vm_compute; auto.
Qed.

(** The day the clocks change in New York: the open is at 13:30 UTC. *)
Lemma session_close_after_duration_witness :
  exists o,
    get_session_times_for_date (mk_date 2024 3 10) !! "NY_Open"%string = Some o
    /\ (si_hour o * 60 + si_minute o = 13 * 60 + 30
        \/ si_hour o * 60 + si_minute o = 14 * 60 + 30).
Proof.
  pose proof (session_close_after_duration (mk_date 2024 3 10)) as H.
  cbv zeta in H. apply H. unfold ZoneSpec.rules_in_force. cbn. lia.
Defined.

End SessionUtilsMoreFacts.

(** ** The paper-trading executor: composition, frame and ledger *)

Module TradeExecutorMoreFacts.

Import SessionUtils Schema TradeExecutor TradeExecutorMore AccountSpec LedgerSpec
       Scenarios.
Local Open Scope Q_scope.

Section WithSettings.

Variable settings : Config.Settings.

Lemma exit_figures_same_entry (t t' : Trade) (px : Q) (is_stop : bool) :
  same_entry t t' ->
  exit_figures settings t px is_stop = exit_figures settings t' px is_stop.
Proof.
  intros (Hp & He & Hd & Hl). unfold exit_figures.
  now rewrite Hp, He, Hd, Hl.
Qed.

Lemma close_trade_rows (db : Database) (tid : string) (px : Q)
    (outcome : Outcome) (is_stop : bool) (now : datetime) (other : string) :
  match trades db !! other,
        trades (fst (close_trade settings db tid px outcome is_stop now)) !! other
  with
  | Some t, Some t' => same_entry t t' /\ (other <> tid -> t' = t)
  | None, None => True
  | _, _ => False
  end.
Proof.
  unfold close_trade.
  destruct (trades db !! tid) as [trade|] eqn:E; cbn [fst].
  - unfold update_account_balance. cbn [trades set_account set_trades].
    destruct (decide (other = tid)) as [->|Hne].
    + rewrite E, lookup_insert_eq. split; [now repeat split | congruence].
    + rewrite lookup_insert_ne by congruence.
      destruct (trades db !! other); [|exact I]. now repeat split.
  - destruct (trades db !! other); [|exact I]. now repeat split.
Qed.

Lemma close_trade_tables (db : Database) (tid : string) (px : Q)
    (outcome : Outcome) (is_stop : bool) (now : datetime) :
  let db' := fst (close_trade settings db tid px outcome is_stop now) in
  rolling_window db' = rolling_window db
  /\ percentile_targets db' = percentile_targets db.
Proof.
  unfold close_trade. destruct (trades db !! tid); cbn; auto.
Qed.

End WithSettings.



(** X14.  [close_trade] touches the row it names and the account, and
    nothing else: every other row of [trades] is as before,
    no row appears or disappears, the rolling window and the view are
    as before; for an unknown id the database is unchanged and the
    result is [None]. *)
Theorem close_trade_frame (settings : Config.Settings) (db : Database)
    (trade_id : string) (exit_price : Q) (outcome : Outcome)
    (is_stop_exit : bool) (now : datetime) :
  let out := close_trade settings db trade_id exit_price outcome is_stop_exit now in
  (forall other, other <> trade_id ->
     trades (fst out) !! other = trades db !! other)
  /\ (forall tid, is_Some (trades (fst out) !! tid) <-> is_Some (trades db !! tid))
  /\ rolling_window (fst out) = rolling_window db
  /\ percentile_targets (fst out) = percentile_targets db
  /\ (trades db !! trade_id = None -> out = (db, None))
  /\ (is_Some (snd out) <-> is_Some (trades db !! trade_id)).
Proof.
  intros out. subst out.
  destruct (close_trade_tables settings db trade_id exit_price outcome
              is_stop_exit now) as [Hrw Hpt].
  refine (conj _ (conj _ (conj Hrw (conj Hpt (conj _ _))))).
  - intros other Hne.
    pose proof (close_trade_rows settings db trade_id exit_price outcome
                  is_stop_exit now other) as H.
    destruct (trades db !! other), (trades (fst _) !! other);
      try contradiction; [|reflexivity].
    destruct H as [_ H]. now rewrite (H Hne).
  - intros tid.
    pose proof (close_trade_rows settings db trade_id exit_price outcome
                  is_stop_exit now tid) as H.
    destruct (trades db !! tid), (trades (fst _) !! tid);
      try contradiction; split; intros [? ?]; eauto; discriminate.
  - apply TradeExecutorFacts.close_trade_missing.
  - unfold close_trade. destruct (trades db !! trade_id); cbn [snd]; split;
      intros [? ?]; eauto; discriminate.
Qed.

Lemma close_trade_frame_witness :
  close_trade Config.default_settings (db_with s4_position) "nobody" 1.1 WIN
    false (at_time 2025 12 29 12 0) = (db_with s4_position, None).
Proof.
  apply (close_trade_frame Config.default_settings (db_with s4_position)
           "nobody" 1.1 WIN false (at_time 2025 12 29 12 0)).
  reflexivity.
Defined.

Section Ledger.

Variable settings : Config.Settings.

Lemma entries_agree_refl (db : Database) : entries_agree db db.
Proof. intros tid. destruct (trades db !! tid); [now repeat split | exact I]. Qed.

Lemma entries_agree_close (db0 db : Database) (c : CloseCall) :
  entries_agree db0 db -> entries_agree db0 (close_call settings db c).
Proof.
  intros H tid. specialize (H tid). unfold close_call.
  pose proof (close_trade_rows settings db (cc_trade_id c) (cc_exit_price c)
                (cc_outcome c) (cc_is_stop_exit c) (cc_now c) tid) as Hr.
  destruct (trades db0 !! tid), (trades db !! tid), (trades (fst _) !! tid);
    try contradiction; try exact I.
  destruct H as (a1 & a2 & a3 & a4), Hr as [(b1 & b2 & b3 & b4) _].
  repeat split; congruence.
Qed.

Lemma booked_agree (db0 db : Database) (c : CloseCall) :
  entries_agree db0 db ->
  booked settings db0 c = booked settings db c
  /\ known db0 c = known db c.
Proof.
  intros H. specialize (H (cc_trade_id c)). unfold booked, known.
  destruct (trades db0 !! cc_trade_id c), (trades db !! cc_trade_id c);
    try contradiction.
  - split; [|reflexivity]. now rewrite (exit_figures_same_entry settings _ _ _ _ H).
  - split; reflexivity.
Qed.

(** One call on a database that holds its account row, read through
    [get_account_status]. *)
Lemma close_call_status (db : Database) (c : CloseCall) :
  is_Some (account db) ->
  let before := get_account_status settings db in
  let after := get_account_status settings (close_call settings db c) in
  let slack := if known db c then 1 # 200 else 0 in
  is_Some (account (close_call settings db c))
  /\ st_balance before + booked settings db c - slack <= st_balance after
  /\ st_balance after <= st_balance before + booked settings db c + slack
  /\ (whole_cents (booked settings db c) ->
      st_balance after == st_balance before + booked settings db c)
  /\ st_initial_balance after = st_initial_balance before
  /\ st_total_trades after
     = (st_total_trades before + (if known db c then 1 else 0))%Z
  /\ st_winning_trades after
     = (st_winning_trades before + (if wins db c then 1 else 0))%Z
  /\ st_losing_trades after
     = (st_losing_trades before + (if losses db c then 1 else 0))%Z.
Proof.
  intros [a Ha]. cbv zeta.
  unfold close_call, close_trade, booked, wins, losses, known.
  destruct (trades db !! cc_trade_id c) as [t|] eqn:E; cbn [fst].
  - rewrite bool_decide_eq_true_2 by eauto. cbn [andb].
    unfold update_account_balance, get_account_status.
    cbn [account set_account set_trades]. rewrite Ha.
    cbn [st_balance st_initial_balance st_total_trades st_winning_trades
         st_losing_trades total_trades winning_trades losing_trades].
    set (net := net_pnl_dollars
                  (exit_figures settings t (cc_exit_price c) (cc_is_stop_exit c))).
    unfold balance at 1 3 5, initial_balance at 1.
    cbn [balance_hundredths initial_balance_hundredths].
    fold (DECIMAL 2 (balance a + net)). fold (initial_balance a).
    destruct (DecimalFacts.DECIMAL_2_near (balance a + net)) as [Hlo Hhi].
    refine (conj _ (conj Hlo (conj Hhi (conj _ (conj eq_refl (conj eq_refl
              (conj _ _))))))).
    + eauto.
    + intros [n Hn].
      apply (DecimalFacts.DECIMAL_grid 2 _ (balance_hundredths a + n)).
      rewrite DecimalFacts.of_decimal_plus, <- Hn. reflexivity.
    + destruct (cc_outcome c); reflexivity.
    + destruct (cc_outcome c); reflexivity.
  - rewrite bool_decide_eq_false_2 by (intros [? ?]; discriminate). cbn [andb].
    refine (conj _ (conj _ (conj _ (conj _ (conj eq_refl (conj _ (conj _ _)))))));
      try lia.
    + eauto.
    + lra.
    + lra.
    + intros _. symmetry. apply Qplus_0_r.
Qed.

Lemma count_cons (f : CloseCall -> bool) (c : CloseCall) (calls : list CloseCall) :
  count f (c :: calls) = ((if f c then 1 else 0) + count f calls)%Z.
Proof. unfold count. cbn. destruct (f c); cbn [length]; lia. Qed.

Lemma count_nonneg (f : CloseCall -> bool) (calls : list CloseCall) :
  (0 <= count f calls)%Z.
Proof. unfold count. lia. Qed.

Lemma close_all_status (db0 : Database) (calls : list CloseCall) (db : Database) :
  entries_agree db0 db ->
  is_Some (account db) ->
  let before := get_account_status settings db in
  let after := get_account_status settings (close_all settings db calls) in
  let slack := inject_Z (count (known db0) calls) * (1 # 200) in
  st_balance before + total_booked settings db0 calls - slack <= st_balance after
  /\ st_balance after <= st_balance before + total_booked settings db0 calls + slack
  /\ (Forall (fun c => whole_cents (booked settings db0 c)) calls ->
      st_balance after == st_balance before + total_booked settings db0 calls)
  /\ st_initial_balance after = st_initial_balance before
  /\ st_total_trades after = (st_total_trades before + count (known db0) calls)%Z
  /\ st_winning_trades after
     = (st_winning_trades before + count (wins db0) calls)%Z
  /\ st_losing_trades after
     = (st_losing_trades before + count (losses db0) calls)%Z.
Proof.
  revert db. induction calls as [|c calls IH]; intros db Hag Hacc; cbv zeta.
  - unfold close_all, count, total_booked.
    cbn [fold_left fold_right List.filter length].
    change (inject_Z (Z.of_nat 0)) with 0.
    refine (conj _ (conj _ (conj _ (conj eq_refl (conj _ (conj _ _))))));
      [lra | lra | intros _; symmetry; apply Qplus_0_r | lia | lia | lia].
  - change (close_all settings db (c :: calls))
      with (close_all settings (close_call settings db c) calls).
    destruct (close_call_status db c Hacc)
      as (Hacc1 & S1 & S1' & S1e & S2 & S3 & S4 & S5).
    destruct (IH _ (entries_agree_close db0 db c Hag) Hacc1)
      as (I1 & I1' & I1e & I2 & I3 & I4 & I5).
    destruct (booked_agree db0 db c Hag) as [Hb Hk].
    unfold wins, losses in *. rewrite !count_cons.
    cbn [total_booked fold_right]. fold (total_booked settings db0 calls).
    rewrite Hb, Hk.
    assert (Hslack : inject_Z ((if known db c then 1 else 0)
                               + count (known db0) calls) * (1 # 200)
                     == (if known db c then 1 # 200 else 0)
                        + inject_Z (count (known db0) calls) * (1 # 200)).
    { rewrite inject_Z_plus. destruct (known db c).
      - change (inject_Z 1) with 1. ring.
      - change (inject_Z 0) with 0. ring. }
    refine (conj _ (conj _ (conj _ (conj _ (conj _ (conj _ _)))))).
    + cbv zeta in *. lra.
    + cbv zeta in *. lra.
    + intros Hall. apply Forall_cons in Hall as [Hc Hall].
      rewrite Hb in Hc. rewrite (I1e Hall), (S1e Hc). ring.
    + congruence.
    + rewrite I3, S3. unfold count. lia.
    + rewrite I4, S4. unfold count, wins. lia.
    + rewrite I5, S5. unfold count, losses. lia.
Qed.

Lemma counters_ok_close (db : Database) (c : CloseCall) :
  counters_ok db -> counters_ok (close_call settings db c).
Proof.
  unfold counters_ok, close_call, close_trade.
  destruct (trades db !! cc_trade_id c); cbn [fst]; [|trivial].
  unfold update_account_balance. cbn [account set_account set_trades].
  destruct (account db) as [a|];
    cbn [total_trades winning_trades losing_trades initial_account];
    intros H; destruct (cc_outcome c); lia.
Qed.

Lemma counters_ok_close_all (calls : list CloseCall) (db : Database) :
  counters_ok db -> counters_ok (close_all settings db calls).
Proof.
  revert db. induction calls as [|c calls IH]; intros db H; [exact H|].
  apply IH, counters_ok_close, H.
Qed.

End Ledger.

(** X15.  The ledger of a sequence of [close_trade] calls on a
    database that holds its account row, read through
    [get_account_status].  Every call that names a row of [trades] books
    the net dollars computed from that row as it was at the start, and
    the balance is stored to the cent after each: the balance afterwards
    is the balance before plus the amounts booked, up to half a cent per
    booked call, and exactly so when every amount is a whole number of
    cents.  The trade, win and loss counters grow by the number of such
    calls, of those with outcome WIN and of those with outcome LOSS; the
    initial balance does not move.  A call with an unknown id books
    nothing; a row closed twice is booked twice. *)
Theorem close_all_ledger (settings : Config.Settings) (db : Database)
    (calls : list CloseCall) :
  is_Some (account db) ->
  let before := get_account_status settings db in
  let after := get_account_status settings (close_all settings db calls) in
  let slack := inject_Z (count (known db) calls) * (1 # 200) in
  st_balance before + total_booked settings db calls - slack <= st_balance after
  /\ st_balance after <= st_balance before + total_booked settings db calls + slack
  /\ (Forall (fun c => whole_cents (booked settings db c)) calls ->
      st_balance after == st_balance before + total_booked settings db calls)
  /\ st_initial_balance after = st_initial_balance before
  /\ st_total_trades after = (st_total_trades before + count (known db) calls)%Z
  /\ st_winning_trades after
     = (st_winning_trades before + count (wins db) calls)%Z
  /\ st_losing_trades after
     = (st_losing_trades before + count (losses db) calls)%Z.
Proof. intros Hacc. now apply close_all_status; [apply entries_agree_refl|]. Qed.

(** Scenario S4 closed by timeout and then by its stop: two calls are
    booked, and the balance is the ledger to within a cent. *)
Lemma close_all_ledger_witness :
  let before := get_account_status Config.default_settings (db_with s4_position) in
  let after :=
    get_account_status Config.default_settings
      (close_all Config.default_settings (db_with s4_position)
         [s4_timeout; s4_stopped]) in
  st_total_trades after = 2%Z
  /\ st_balance after
     <= st_balance before
        + total_booked Config.default_settings (db_with s4_position)
            [s4_timeout; s4_stopped]
        + (1 # 100).
Proof.
  intros before after.
  destruct (close_all_ledger Config.default_settings (db_with s4_position)
              [s4_timeout; s4_stopped] ltac:(eexists; reflexivity))
    as (_ & Hhi & _ & _ & Ht & _).
  split; [exact Ht | exact Hhi].
Defined.

(** X16.  After any sequence of [close_trade] calls on a database
    whose counters are natural numbers with wins plus losses at most
    the trades (the seeded row, or no row), [get_account_status]
    reports a win rate between 0 and 100, and 0 when no trade was
    closed. *)
Theorem win_rate_in_range (settings : Config.Settings) (db : Database)
    (calls : list CloseCall) :
  counters_ok db ->
  let st := get_account_status settings (close_all settings db calls) in
  0 <= st_win_rate st /\ st_win_rate st <= 100
  /\ (0 <= st_winning_trades st <= st_total_trades st)%Z
  /\ (st_total_trades st = 0%Z -> st_win_rate st == 0).
Proof.
  intros Hok st. subst st.
  pose proof (counters_ok_close_all settings calls db Hok) as H.
  unfold counters_ok in H. unfold get_account_status.
  destruct (account (close_all settings db calls)) as [a|];
    cbn [st_win_rate st_winning_trades st_total_trades].
  - destruct H as (Hw & Hl & Hsum).
    destruct (Z.ltb_spec 0 (total_trades a)) as [Hpos|Hzero].
    + assert (Ht : 0 < inject_Z (total_trades a)).
      { replace 0 with (inject_Z 0) by reflexivity. now rewrite <- Zlt_Qlt. }
      assert (Hw' : 0 <= inject_Z (winning_trades a)).
      { replace 0 with (inject_Z 0) by reflexivity. now rewrite <- Zle_Qle. }
      assert (Hwt : inject_Z (winning_trades a) <= inject_Z (total_trades a)).
      { rewrite <- Zle_Qle. lia. }
      set (w := inject_Z (winning_trades a)) in *.
      set (t := inject_Z (total_trades a)) in *.
      assert (Hr0 : 0 <= w / t * 100).
      { apply Qmult_le_0_compat; [|discriminate].
        apply Qle_shift_div_l; [exact Ht | lra]. }
      assert (Hr1 : w / t * 100 <= 100).
      { assert (Hq : w / t <= 1) by (apply Qle_shift_div_r; [exact Ht | lra]).
        lra. }
      refine (conj _ (conj _ (conj _ _))); [| |lia|lia].
      * apply Qle_trans with (inject_Z 0 / inject_Z (10 ^ Z.of_nat 2));
          [vm_compute; discriminate|].
        apply PyFacts.round_ge_grid.
        apply Qle_trans with 0; [vm_compute; discriminate | exact Hr0].
      * apply Qle_trans with (inject_Z 10000 / inject_Z (10 ^ Z.of_nat 2));
          [|vm_compute; discriminate].
        apply PyFacts.round_le_grid.
        apply Qle_trans with 100; [exact Hr1 | vm_compute; discriminate].
    + refine (conj _ (conj _ (conj _ _)));
        [vm_compute; discriminate | vm_compute; discriminate | lia
        |intros _; reflexivity].
  - refine (conj _ (conj _ (conj _ _)));
      [vm_compute; discriminate | vm_compute; discriminate | lia
      |intros _; reflexivity].
Qed.

Lemma win_rate_in_range_witness :
  let st :=
    get_account_status Config.default_settings
      (close_all Config.default_settings (db_with s4_position)
         [s4_timeout; s4_stopped]) in
  0 <= st_win_rate st /\ st_win_rate st <= 100.
Proof.
  intros st.
  destruct (win_rate_in_range Config.default_settings (db_with s4_position)
              [s4_timeout; s4_stopped]) as (H0 & H1 & _).
  - vm_compute. repeat split; discriminate.
  - split; [exact H0 | exact H1].
Defined.

End TradeExecutorMoreFacts.

(** ** The rolling window: keys, cleanup, the view and its percentiles *)

Module RollingWindowMoreFacts.

Import SessionUtils Schema TradeExecutor RollingWindowSpec WindowSpec Scenarios.
Local Open Scope Q_scope.

Lemma conflicts_key (a b : RollingRow) :
  conflicts a b = true <-> row_key a = row_key b.
Proof.
  unfold conflicts, row_key.
  rewrite !andb_true_iff, !String.eqb_eq, bool_decide_eq_true. split.
  - intros [[[H1 H2] H3] H4]. now rewrite H1, H2, H3, H4.
  - intros [= H1 H2 H3 H4]. auto.
Qed.

Lemma conflicts_key_false (a b : RollingRow) :
  conflicts a b = false <-> row_key a <> row_key b.
Proof.
  rewrite <- conflicts_key. destruct (conflicts a b); split; congruence.
Qed.

Lemma elem_of_map_key (k : string * string * datetime * string)
    (rows : list RollingRow) :
  k ∈ map row_key rows <-> exists r, In r rows /\ row_key r = k.
Proof.
  rewrite list_elem_of_In, in_map_iff.
  split; intros (r & H1 & H2); exists r; now split.
Qed.

Lemma unique_keys_NoDup (rows : list RollingRow) :
  ImportBaseline.unique_keys rows = true <-> NoDup (map row_key rows).
Proof.
  induction rows as [|r rows IH]; cbn [ImportBaseline.unique_keys map].
  - split; [constructor | reflexivity].
  - rewrite andb_true_iff, negb_true_iff, NoDup_cons, IH.
    assert (H : existsb (conflicts r) rows = false <-> row_key r ∉ map row_key rows).
    { rewrite elem_of_map_key. split.
      - intros He (x & Hin & Hk).
        assert (Ht : existsb (conflicts r) rows = true).
        { apply existsb_exists. exists x. split; [exact Hin|].
          now apply conflicts_key. }
        congruence.
      - intros Hn. destruct (existsb (conflicts r) rows) eqn:E; [|reflexivity].
        exfalso. apply Hn. apply existsb_exists in E as (x & Hin & Hc).
        exists x. split; [exact Hin|]. symmetry. now apply conflicts_key. }
    now rewrite H.
Qed.

Lemma do_update_key (stored excluded : RollingRow) :
  row_key (do_update stored excluded) = row_key stored.
Proof. reflexivity. Qed.

Lemma upsert_keys (new : RollingRow) (rows : list RollingRow) :
  map row_key (upsert new rows)
  = if bool_decide (row_key new ∈ map row_key rows)
    then map row_key rows
    else map row_key rows ++ [row_key new].
Proof.
  induction rows as [|r rows IH]; cbn [upsert map].
  - rewrite bool_decide_eq_false_2 by apply not_elem_of_nil. reflexivity.
  - destruct (conflicts r new) eqn:E.
    + apply conflicts_key in E.
      rewrite bool_decide_eq_true_2 by (rewrite <- E; left).
      reflexivity.
    + apply conflicts_key_false in E. cbn [map]. rewrite IH.
      destruct (decide (row_key new ∈ map row_key rows)) as [Hin|Hin].
      * rewrite !bool_decide_eq_true_2; [reflexivity | now right | exact Hin].
      * rewrite !bool_decide_eq_false_2; [reflexivity | | exact Hin].
        intros [Heq|H]%elem_of_cons; [congruence | contradiction].
Qed.

Lemma upsert_fresh (new : RollingRow) (rows : list RollingRow) :
  row_key new ∉ map row_key rows -> upsert new rows = rows ++ [new].
Proof.
  induction rows as [|r rows IH]; cbn [upsert map]; intros Hn; [reflexivity|].
  apply not_elem_of_cons in Hn as [Hne Hn].
  destruct (conflicts r new) eqn:E.
  - apply conflicts_key in E. congruence.
  - cbn [app]. now rewrite IH.
Qed.

Lemma upsert_keeps_others (new r : RollingRow) (rows : list RollingRow) :
  In r rows -> row_key r <> row_key new -> In r (upsert new rows).
Proof.
  induction rows as [|r1 rows IH]; cbn [upsert]; [contradiction|].
  intros [<- | Hin] Hne.
  - apply conflicts_key_false in Hne. rewrite Hne. now left.
  - destruct (conflicts r1 new); [now right | right; now apply IH].
Qed.

Lemma upsert_hit (new r : RollingRow) (rows : list RollingRow) :
  NoDup (map row_key rows) ->
  In r (upsert new rows) -> row_key r = row_key new ->
  rw_correct r = rw_correct new /\ rw_mfe_pips r = rw_mfe_pips new
  /\ rw_mae_pips r = rw_mae_pips new
  /\ (row_key new ∉ map row_key rows -> r = new)
  /\ forall r0, In r0 rows -> row_key r0 = row_key new ->
       rw_in_window r = rw_in_window r0 /\ rw_prediction r = rw_prediction r0.
Proof.
  induction rows as [|r1 rows IH]; cbn [upsert map]; intros Hnd Hin Hk.
  - destruct Hin as [<- | []].
    refine (conj eq_refl (conj eq_refl (conj eq_refl (conj _ _))));
      [reflexivity | intros r0 []].
  - apply NoDup_cons in Hnd as [Hn1 Hnd].
    destruct (conflicts r1 new) eqn:E.
    + apply conflicts_key in E. destruct Hin as [<- | Hin].
      * refine (conj eq_refl (conj eq_refl (conj eq_refl (conj _ _)))).
        -- intros Hn. exfalso. apply Hn. rewrite <- E. left.
        -- intros r0 [<- | Hin0] Hk0; [split; reflexivity|].
           exfalso. apply Hn1. apply elem_of_map_key. exists r0.
           split; [exact Hin0 | congruence].
      * exfalso. apply Hn1. apply elem_of_map_key. exists r.
        split; [exact Hin | congruence].
    + apply conflicts_key_false in E. destruct Hin as [<- | Hin]; [congruence|].
      destruct (IH Hnd Hin Hk) as (H1 & H2 & H3 & H4 & H5).
      refine (conj H1 (conj H2 (conj H3 (conj _ _)))).
      * intros Hn. apply H4. intros Hin'. apply Hn. now right.
      * intros r0 [<- | Hin0] Hk0; [congruence | now apply H5].
Qed.

(** X17.  [add_to_rolling_window] is an upsert on the key (pair,
    session, session datetime, model).  It keeps the key unique.  When
    the key is new the row is appended, flagged as inside the window;
    when it is stored already no row is added and the stored row takes
    the new [correct], [mfe_pips] and [mae_pips] while keeping its
    [prediction] and its [in_window] flag.  Rows under other keys, the
    trades, the account and the view are left as they are. *)
Theorem add_to_rolling_window_upsert (db : Database)
    (pair session_name : string) (session_datetime : datetime)
    (prediction : string) (correct : bool) (mfe_pips mae_pips : Q)
    (model : string) (mfe_first : option bool)
    (time_to_mfe_minutes time_to_mae_minutes : option Z) :
  let db' :=
    add_to_rolling_window db pair session_name session_datetime prediction
      correct mfe_pips mae_pips model mfe_first time_to_mfe_minutes
      time_to_mae_minutes in
  let key := (pair, session_name, session_datetime, model) in
  let rows := rolling_window db in
  let rows' := rolling_window db' in
  (key ∉ map row_key rows ->
   exists new,
     rows' = rows ++ [new] /\ row_key new = key /\ rw_in_window new = true
     /\ rw_prediction new = prediction /\ rw_correct new = correct
     /\ rw_mfe_pips new = mfe_pips /\ rw_mae_pips new = mae_pips)
  /\ (key ∈ map row_key rows -> map row_key rows' = map row_key rows)
  /\ (NoDup (map row_key rows) ->
      NoDup (map row_key rows')
      /\ ImportBaseline.unique_keys rows' = true
      /\ forall r, In r rows' -> row_key r = key ->
           rw_correct r = correct /\ rw_mfe_pips r = mfe_pips
           /\ rw_mae_pips r = mae_pips
           /\ forall r0, In r0 rows -> row_key r0 = key ->
                rw_in_window r = rw_in_window r0
                /\ rw_prediction r = rw_prediction r0)
  /\ (forall r, In r rows -> row_key r <> key -> In r rows')
  /\ trades db' = trades db /\ account db' = account db
  /\ percentile_targets db' = percentile_targets db.
Proof.
  intros db' key rows rows'.
  set (new := {| rw_pair := pair; rw_session_name := session_name;
                 rw_session_datetime := session_datetime;
                 rw_prediction := prediction; rw_correct := correct;
                 rw_mfe_pips := mfe_pips; rw_mae_pips := mae_pips;
                 rw_model := model; rw_mfe_first := mfe_first;
                 rw_time_to_mfe_minutes := time_to_mfe_minutes;
                 rw_time_to_mae_minutes := time_to_mae_minutes;
                 rw_in_window := in_window_default |}).
  assert (Hrows : rows' = upsert new rows) by reflexivity.
  assert (Hkey : row_key new = key) by reflexivity.
  refine (conj _ (conj _ (conj _ (conj _ (conj eq_refl (conj eq_refl eq_refl)))))).
  - intros Hn. exists new. rewrite Hrows.
    split; [apply upsert_fresh; now rewrite Hkey|]. now repeat split.
  - intros Hin. rewrite Hrows, upsert_keys, Hkey.
    now rewrite bool_decide_eq_true_2.
  - intros Hnd.
    assert (Hnd' : NoDup (map row_key rows')).
    { rewrite Hrows, upsert_keys, Hkey.
      destruct (decide (key ∈ map row_key rows)) as [Hin|Hin].
      - now rewrite bool_decide_eq_true_2.
      - rewrite bool_decide_eq_false_2 by exact Hin.
        apply NoDup_app. split; [exact Hnd|]. split.
        + intros k Hk [->|[]%elem_of_nil]%elem_of_cons. contradiction.
        + apply NoDup_singleton. }
    split; [exact Hnd'|]. split; [now apply unique_keys_NoDup|].
    intros r Hin Hk. rewrite Hrows in Hin. rewrite <- Hkey in Hk.
    destruct (upsert_hit new r rows Hnd Hin Hk) as (H1 & H2 & H3 & _ & H5).
    refine (conj H1 (conj H2 (conj H3 _))).
    intros r0 Hin0 Hk0. apply H5; [exact Hin0 | now rewrite Hkey].
  - intros r Hin Hne. rewrite Hrows. apply upsert_keeps_others; [exact Hin|].
    now rewrite Hkey.
Qed.

Lemma add_to_rolling_window_upsert_witness :
  let db := run empty_db window_history in
  NoDup (map row_key (rolling_window db))
  /\ NoDup (map row_key
              (rolling_window
                 (add_to_rolling_window db "EURUSD" "London_Open"
                    (at_time 2025 12 1 8 0) "BULLISH" true 12 7
                    "claude_haiku_45" None None None))).
Proof.
  intros db.
  assert (Hnd : NoDup (map row_key (rolling_window db))).
  { apply unique_keys_NoDup. vm_compute. reflexivity. }
  split; [exact Hnd|].
  pose proof (add_to_rolling_window_upsert db "EURUSD" "London_Open"
                (at_time 2025 12 1 8 0) "BULLISH" true 12 7
                "claude_haiku_45" None None None) as H.
  cbv zeta in H. destruct H as (_ & _ & H & _).
  apply H. exact Hnd.
Defined.

(** The UPDATE of [cleanup_old_rolling_data] on one row. *)
Lemma mark_key (c : datetime) (r : RollingRow) :
  row_key (if cleanup_where c r then set_in_window r false else r) = row_key r.
Proof. now destruct (cleanup_where c r). Qed.

Lemma mark_settled (c c' : datetime) (r : RollingRow) :
  dt_leb c c' = true ->
  let r1 := if cleanup_where c r then set_in_window r false else r in
  cleanup_where c r1 = false
  /\ (if cleanup_where c' r1 then set_in_window r1 false else r1)
     = (if cleanup_where c' r then set_in_window r false else r).
Proof.
  intros Hle. cbv zeta.
  destruct (cleanup_where c r) eqn:E.
  - unfold cleanup_where in E. apply andb_true_iff in E as [Ew Ec].
    assert (Ec' : dt_ltb (rw_session_datetime r) c' = true).
    { unfold dt_ltb, dt_leb in *. lia. }
    assert (E' : cleanup_where c' r = true).
    { unfold cleanup_where. now rewrite Ew, Ec'. }
    rewrite E'. split; reflexivity.
  - split; [exact E | reflexivity].
Qed.

Lemma cleanup_count (c : datetime) (rows : list RollingRow) :
  (length (List.filter (cleanup_where c) rows)
   + length (List.filter rw_in_window
               (map (fun r => if cleanup_where c r
                              then set_in_window r false else r) rows))
   = length (List.filter rw_in_window rows))%nat.
Proof.
  induction rows as [|r rows IH]; [reflexivity|]. cbn [List.filter map].
  destruct (cleanup_where c r) eqn:E.
  - assert (Ew : rw_in_window r = true).
    { unfold cleanup_where in E. now apply andb_true_iff in E. }
    rewrite Ew. cbn [List.filter set_in_window rw_in_window length]. lia.
  - cbn [List.filter]. destruct (rw_in_window r); cbn [length]; lia.
Qed.

Lemma cleanup_settled (c : datetime) (rows : list RollingRow) :
  List.filter (cleanup_where c)
    (map (fun r => if cleanup_where c r then set_in_window r false else r) rows)
  = [].
Proof.
  induction rows as [|r rows IH]; [reflexivity|]. cbn [map List.filter].
  pose proof (mark_settled c c r (RollingWindowFacts.dt_leb_refl c)) as [Hs _].
  now rewrite Hs.
Qed.

Lemma cleanup_again (db : Database) (c : datetime) :
  cleanup_old_rolling_data (fst (cleanup_old_rolling_data db c)) c
  = (fst (cleanup_old_rolling_data db c), 0%Z).
Proof.
  unfold cleanup_old_rolling_data.
  cbn [fst snd rolling_window set_rolling_window].
  set (mark := fun r => if cleanup_where c r then set_in_window r false else r).
  assert (Hmap : map mark (map mark (rolling_window db))
                 = map mark (rolling_window db)).
  { rewrite map_map. apply map_ext. intros r.
    pose proof (mark_settled c c r (RollingWindowFacts.dt_leb_refl c)) as [_ Hs].
    exact Hs. }
  pose proof (cleanup_settled c (rolling_window db)) as Hnone.
  fold mark in Hnone.
  unfold set_rolling_window. cbn. fold mark. rewrite Hmap, Hnone. reflexivity.
Qed.

(** X18.  [cleanup_old_rolling_data] marks and never deletes: the
    table keeps its rows, keys and order; the number it returns is the
    number of rows whose flag went from inside to outside the window;
    afterwards no row flagged as inside is older than the
    six-months-ago instant; a second run at the same instant marks
    nothing and returns 0; and a run at a later instant gives the same
    table whether or not the earlier run happened.  Trades, account and
    view are left as they are. *)
Theorem cleanup_marks_only (db : Database) (c : datetime) :
  let out := cleanup_old_rolling_data db c in
  map row_key (rolling_window (fst out)) = map row_key (rolling_window db)
  /\ snd out = (flagged (rolling_window db) - flagged (rolling_window (fst out)))%Z
  /\ (0 <= snd out <= Z.of_nat (length (rolling_window db)))%Z
  /\ (forall r, In r (rolling_window (fst out)) ->
        rw_in_window r = true -> older_than c r = false)
  /\ cleanup_old_rolling_data (fst out) c = (fst out, 0%Z)
  /\ (forall c', dt_leb c c' = true ->
        fst (cleanup_old_rolling_data (fst out) c')
        = fst (cleanup_old_rolling_data db c'))
  /\ trades (fst out) = trades db /\ account (fst out) = account db
  /\ percentile_targets (fst out) = percentile_targets db.
Proof.
  intros out. subst out. unfold cleanup_old_rolling_data.
  cbn [fst snd rolling_window set_rolling_window trades account percentile_targets].
  set (mark := fun r => if cleanup_where c r then set_in_window r false else r).
  set (rows := rolling_window db).
  pose proof (cleanup_count c rows) as Hcount. fold mark in Hcount.
  refine (conj _ (conj _ (conj _ (conj _ (conj _
            (conj _ (conj eq_refl (conj eq_refl eq_refl)))))))).
  - rewrite map_map. apply map_ext. intros r. apply mark_key.
  - unfold flagged. lia.
  - pose proof (filter_length_le (cleanup_where c) rows). lia.
  - intros r Hin Hw. apply in_map_iff in Hin as (r0 & <- & _).
    pose proof (mark_settled c c r0 (RollingWindowFacts.dt_leb_refl c)) as [Hs _].
    fold (mark r0) in Hs. unfold cleanup_where in Hs. rewrite Hw in Hs.
    exact Hs.
  - exact (cleanup_again db c).
  - intros c' Hle. unfold set_rolling_window. cbn. f_equal.
    rewrite map_map. apply map_ext. intros r.
    pose proof (mark_settled c c' r Hle) as [_ Hs]. exact Hs.
Qed.

Lemma cleanup_marks_only_witness :
  let db := run empty_db window_history in
  let once := fst (cleanup_old_rolling_data db (at_time 2025 6 1 0 0)) in
  fst (cleanup_old_rolling_data once (at_time 2025 6 2 12 0))
  = fst (cleanup_old_rolling_data db (at_time 2025 6 2 12 0)).
Proof.
  intros db once.
  apply (cleanup_marks_only db (at_time 2025 6 1 0 0)).
  reflexivity.
Defined.

End RollingWindowMoreFacts.

(** ** The view: one row per group, ordered percentiles *)

Module ViewFacts.

Import SessionUtils Schema TradeExecutor RollingWindowSpec WindowSpec Scenarios.
Local Open Scope Q_scope.

Lemma aggregate_key (now : datetime) (k : string * string * string)
    (group : list RollingRow) :
  view_key (aggregate now k group) = k.
Proof. destruct k as [[? ?] ?]. reflexivity. Qed.

Lemma query_keys (now c : datetime) (rows : list RollingRow) :
  map view_key (percentile_targets_query now c rows)
  = remove_dups (map group_key (List.filter (view_where c) rows)).
Proof.
  unfold percentile_targets_query. rewrite map_map.
  erewrite map_ext; [apply map_id|]. intros k. apply aggregate_key.
Qed.

Lemma filter_andb {A : Type} (f g : A -> bool) (l : list A) :
  List.filter (fun x => f x && g x) l = List.filter g (List.filter f l).
Proof.
  induction l as [|a l IH]; [reflexivity|]. cbn [List.filter].
  destruct (f a); cbn [andb List.filter]; [|exact IH].
  destruct (g a); now rewrite IH.
Qed.

Lemma query_row (now c : datetime) (rows : list RollingRow) (row : PercentileRow) :
  In row (percentile_targets_query now c rows) ->
  row = aggregate now (view_key row) (members c row rows)
  /\ exists r, In r (members c row rows).
Proof.
  unfold percentile_targets_query. intros Hin.
  apply in_map_iff in Hin as (k & Hrow & Hk).
  assert (Hkey : view_key row = k) by (rewrite <- Hrow; apply aggregate_key).
  unfold members. rewrite filter_andb, Hkey. split; [now symmetry|].
  apply list_elem_of_In in Hk. rewrite elem_of_remove_dups in Hk.
  apply list_elem_of_In, in_map_iff in Hk as (r & Hg & Hr).
  exists r. apply filter_In. split; [exact Hr|].
  unfold in_group. now apply bool_decide_eq_true.
Qed.

(** X19.  A refresh builds one row per group: the keys (pair, session,
    model) of the view are pairwise distinct, so its unique index
    holds; every row of the table that is not older than six months is
    counted in the view row of its group; [sample_count] is the number
    of such rows of the group and is at least 1; [accuracy_pct] is the
    share of correct ones among them, between 0 and 100; [updated_at]
    is the time of the refresh. *)
Theorem view_one_row_per_group (now c : datetime) (rows : list RollingRow) :
  let view := percentile_targets_query now c rows in
  NoDup (map view_key view)
  /\ (forall r, In r rows -> view_where c r = true ->
        exists row, In row view /\ row_of_group row r
                    /\ In r (members c row rows))
  /\ (forall row, In row view ->
        pr_sample_count row = Z.of_nat (length (members c row rows))
        /\ (1 <= pr_sample_count row)%Z
        /\ pr_accuracy_pct row
           = inject_Z (Z.of_nat (length (List.filter rw_correct
                                           (members c row rows))))
             / inject_Z (pr_sample_count row) * 100
        /\ 0 <= pr_accuracy_pct row /\ pr_accuracy_pct row <= 100
        /\ pr_updated_at row = now).
Proof.
  intros view. subst view. refine (conj _ (conj _ _)).
  - rewrite query_keys. apply NoDup_remove_dups.
  - intros r Hin Hw.
    set (k := group_key r).
    set (row := aggregate now k
                  (List.filter (in_group k) (List.filter (view_where c) rows))).
    assert (Hkey : view_key row = k) by apply aggregate_key.
    exists row. refine (conj _ (conj _ _)).
    + unfold percentile_targets_query. apply in_map_iff. exists k.
      split; [reflexivity|].
      apply list_elem_of_In. rewrite elem_of_remove_dups.
      apply list_elem_of_In, in_map. apply filter_In. now split.
    + unfold row_of_group. fold (view_key row). now rewrite Hkey.
    + unfold members. apply filter_In. split; [exact Hin|].
      rewrite Hw, Hkey. unfold in_group. now apply bool_decide_eq_true.
  - intros row Hin. destruct (query_row now c rows row Hin) as [Hrow [r Hr]].
    set (group := members c row rows) in *.
    assert (Hlen : (1 <= length group)%nat).
    { destruct group; [contradiction | cbn; lia]. }
    assert (Hcount : pr_sample_count row = Z.of_nat (length group))
      by (rewrite Hrow; reflexivity).
    assert (Hacc : pr_accuracy_pct row
                   = inject_Z (Z.of_nat (length (List.filter rw_correct group)))
                     / inject_Z (pr_sample_count row) * 100).
    { rewrite Hcount. rewrite Hrow at 1. reflexivity. }
    refine (conj Hcount (conj _ (conj Hacc (conj _ (conj _ _))))).
    + lia.
    + rewrite Hacc, Hcount.
      assert (Hn : 0 < inject_Z (Z.of_nat (length group))).
      { replace 0 with (inject_Z 0) by reflexivity. rewrite <- Zlt_Qlt. lia. }
      assert (Hk : 0 <= inject_Z (Z.of_nat (length (List.filter rw_correct group)))).
      { replace 0 with (inject_Z 0) by reflexivity. rewrite <- Zle_Qle. lia. }
      apply Qmult_le_0_compat; [|discriminate].
      apply Qle_shift_div_l; [exact Hn | lra].
    + rewrite Hacc, Hcount.
      assert (Hn : 0 < inject_Z (Z.of_nat (length group))).
      { replace 0 with (inject_Z 0) by reflexivity. rewrite <- Zlt_Qlt. lia. }
      assert (Hk : inject_Z (Z.of_nat (length (List.filter rw_correct group)))
                   <= inject_Z (Z.of_nat (length group))).
      { rewrite <- Zle_Qle.
        pose proof (filter_length_le rw_correct group). lia. }
      set (k := inject_Z (Z.of_nat (length (List.filter rw_correct group)))) in *.
      set (n := inject_Z (Z.of_nat (length group))) in *.
      assert (Hq : k / n <= 1) by (apply Qle_shift_div_r; [exact Hn | lra]).
      lra.
    + rewrite Hrow. reflexivity.
Qed.

Lemma view_one_row_per_group_witness :
  let rows := rolling_window (run empty_db window_history) in
  let view := percentile_targets_query (at_time 2025 12 2 12 0)
                (at_time 2025 6 2 12 0) rows in
  view <> []
  /\ Forall (fun row => (1 <= pr_sample_count row)%Z) view.
Proof.
  intros rows view. split; [vm_compute; discriminate|].
  apply List.Forall_forall. intros row Hin.
  apply (view_one_row_per_group (at_time 2025 12 2 12 0)
           (at_time 2025 6 2 12 0) rows).
  exact Hin.
Defined.

(** *** Ordered percentiles *)

Lemma insert_sorted_Forall (P : Q -> Prop) (x : Q) (l : list Q) :
  Forall P (insert_sorted x l) <-> P x /\ Forall P l.
Proof.
  induction l as [|y l IH]; cbn [insert_sorted].
  - rewrite !Forall_cons. tauto.
  - destruct (Qle_bool x y).
    + rewrite !Forall_cons. tauto.
    + rewrite !Forall_cons, IH. tauto.
Qed.

Lemma insert_sorted_In (x y : Q) (l : list Q) :
  In y (insert_sorted x l) <-> y = x \/ In y l.
Proof.
  induction l as [|z l IH]; cbn [insert_sorted].
  - cbn. intuition.
  - destruct (Qle_bool x z); cbn [In]; [intuition|]. rewrite IH. intuition.
Qed.

Lemma insert_sorted_length (x : Q) (l : list Q) :
  length (insert_sorted x l) = S (length l).
Proof.
  induction l as [|y l IH]; [reflexivity|]. cbn [insert_sorted].
  destruct (Qle_bool x y); cbn [length]; [reflexivity | now rewrite IH].
Qed.

Lemma insert_sorted_ascending (x : Q) (l : list Q) :
  ascending l -> ascending (insert_sorted x l).
Proof.
  induction l as [|y l IH]; cbn [insert_sorted ascending].
  - intros _. split; [constructor | exact I].
  - intros [Hy Hl]. destruct (Qle_bool x y) eqn:E.
    + apply Qle_bool_iff in E. cbn [ascending].
      split; [|split; assumption].
      constructor; [exact E|].
      eapply Forall_impl; [exact Hy|]. intros z Hz. cbn in Hz.
      eapply Qle_trans; eassumption.
    + assert (Hyx : y <= x).
      { apply Qlt_le_weak, Qnot_le_lt. intros H.
        apply Qle_bool_iff in H. congruence. }
      cbn [ascending]. split; [|now apply IH].
      apply insert_sorted_Forall. split; assumption.
Qed.

Lemma sort_values_ascending (l : list Q) : ascending (sort_values l).
Proof.
  induction l as [|x l IH]; [exact I|]. cbn. now apply insert_sorted_ascending.
Qed.

Lemma sort_values_In (y : Q) (l : list Q) : In y (sort_values l) <-> In y l.
Proof.
  induction l as [|x l IH]; [reflexivity|].
  change (sort_values (x :: l)) with (insert_sorted x (sort_values l)).
  rewrite insert_sorted_In, IH. cbn. intuition.
Qed.

Lemma sort_values_length (l : list Q) : length (sort_values l) = length l.
Proof.
  induction l as [|x l IH]; [reflexivity|].
  change (sort_values (x :: l)) with (insert_sorted x (sort_values l)).
  now rewrite insert_sorted_length, IH.
Qed.

Lemma ascending_nth (l : list Q) (i j : nat) :
  ascending l -> (i <= j)%nat -> (j < length l)%nat -> nth i l 0 <= nth j l 0.
Proof.
  revert i j. induction l as [|x l IH]; intros i j Hasc Hij Hj.
  - cbn in Hj. lia.
  - destruct Hasc as [Hx Hl]. destruct j as [|j].
    + assert (i = 0%nat) by lia. subst i. apply Qle_refl.
    + cbn [length] in Hj. destruct i as [|i].
      * cbn [nth]. apply (proj1 (List.Forall_nth (Qle x) l) Hx). lia.
      * cbn [nth]. apply IH; [exact Hl | lia | lia].
Qed.

Lemma rank_range (x : Q) (n : nat) :
  0 <= x -> x <= inject_Z (Z.of_nat n - 1) ->
  (0 <= Qfloor x)%Z /\ (Qfloor x <= Qceiling x)%Z
  /\ (Qceiling x <= Qfloor x + 1)%Z /\ (Qceiling x <= Z.of_nat n - 1)%Z.
Proof.
  intros H0 Hn.
  pose proof (Qfloor_le x) as F1. pose proof (Qlt_floor x) as F2.
  pose proof (Qle_ceiling x) as C1. pose proof (Qceiling_lt x) as C2.
  refine (conj _ (conj _ (conj _ _))).
  - change 0%Z with (Qfloor 0). now apply Qfloor_resp_le.
  - rewrite Zle_Qle. eapply Qle_trans; eassumption.
  - assert (H : (Qceiling x - 1 < Qfloor x + 1)%Z).
    { rewrite Zlt_Qlt. eapply Qlt_trans; eassumption. }
    lia.
  - rewrite <- (Qceiling_Z (Z.of_nat n - 1)). now apply Qceiling_resp_le.
Qed.

Lemma interpolate_bounds (s : list Q) (x : Q) :
  ascending s -> 0 <= x -> x <= inject_Z (Z.of_nat (length s) - 1) ->
  nth (Z.to_nat (Qfloor x)) s 0 <= interpolate s x
  /\ interpolate s x <= nth (Z.to_nat (Qceiling x)) s 0.
Proof.
  intros Hasc H0 Hn.
  destruct (rank_range x (length s) H0 Hn) as (R1 & R2 & R3 & R4).
  pose proof (Qfloor_le x) as F1. pose proof (Qlt_floor x) as F2.
  rewrite inject_Z_plus in F2. change (inject_Z 1) with 1 in F2.
  assert (Hab : nth (Z.to_nat (Qfloor x)) s 0 <= nth (Z.to_nat (Qceiling x)) s 0).
  { apply ascending_nth; [exact Hasc | lia | lia]. }
  unfold interpolate.
  set (a := nth (Z.to_nat (Qfloor x)) s 0) in *.
  set (b := nth (Z.to_nat (Qceiling x)) s 0) in *.
  set (f := inject_Z (Qfloor x)) in *. clearbody a b f.
  split; nra.
Qed.

Lemma interpolate_mono (s : list Q) (x y : Q) :
  ascending s -> 0 <= x -> x <= y -> y <= inject_Z (Z.of_nat (length s) - 1) ->
  interpolate s x <= interpolate s y.
Proof.
  intros Hasc H0 Hxy Hn.
  assert (Hxn : x <= inject_Z (Z.of_nat (length s) - 1))
    by (eapply Qle_trans; eassumption).
  assert (H0y : 0 <= y) by (eapply Qle_trans; eassumption).
  destruct (rank_range x (length s) H0 Hxn) as (X1 & X2 & X3 & X4).
  destruct (rank_range y (length s) H0y Hn) as (Y1 & Y2 & Y3 & Y4).
  destruct (interpolate_bounds s x Hasc H0 Hxn) as [Bx1 Bx2].
  destruct (interpolate_bounds s y Hasc H0y Hn) as [By1 By2].
  pose proof (Qfloor_resp_le x y Hxy) as Hfl.
  pose proof (Qceiling_resp_le x y Hxy) as Hce.
  destruct (Z.eq_dec (Qfloor x) (Qfloor y)) as [Ef|Ef].
  - destruct (Z.eq_dec (Qceiling x) (Qceiling y)) as [Ec|Ec].
    + assert (Hab : nth (Z.to_nat (Qfloor x)) s 0
                    <= nth (Z.to_nat (Qceiling x)) s 0).
      { apply ascending_nth; [exact Hasc | lia | lia]. }
      unfold interpolate. rewrite <- Ef, <- Ec.
      set (a := nth (Z.to_nat (Qfloor x)) s 0) in *.
      set (b := nth (Z.to_nat (Qceiling x)) s 0) in *.
      set (f := inject_Z (Qfloor x)) in *. clearbody a b f.
      nra.
    + assert (Ex : Qceiling x = Qfloor x) by lia.
      assert (Hx : interpolate s x == nth (Z.to_nat (Qfloor x)) s 0).
      { unfold interpolate. rewrite Ex. ring. }
      rewrite Ef in Hx.
      set (ix := interpolate s x) in *. set (iy := interpolate s y) in *.
      set (a := nth (Z.to_nat (Qfloor y)) s 0) in *. clearbody ix iy a.
      lra.
  - assert (Hmid : nth (Z.to_nat (Qceiling x)) s 0
                   <= nth (Z.to_nat (Qfloor y)) s 0).
    { apply ascending_nth; [exact Hasc | lia | lia]. }
    eapply Qle_trans; [exact Bx2|]. eapply Qle_trans; [exact Hmid | exact By1].
Qed.

Lemma percentile_cont_interpolate (p : Q) (values : list Q) :
  percentile_cont p values
  = interpolate (sort_values values)
      (p * inject_Z (Z.of_nat (length (sort_values values)) - 1)).
Proof. reflexivity. Qed.

Lemma rank_in_range (p : Q) (n : nat) :
  (1 <= n)%nat -> 0 <= p -> p <= 1 ->
  0 <= p * inject_Z (Z.of_nat n - 1)
  /\ p * inject_Z (Z.of_nat n - 1) <= inject_Z (Z.of_nat n - 1).
Proof.
  intros Hn H0 H1.
  assert (Hk : 0 <= inject_Z (Z.of_nat n - 1)).
  { replace 0 with (inject_Z 0) by reflexivity. rewrite <- Zle_Qle. lia. }
  set (k := inject_Z (Z.of_nat n - 1)) in *. clearbody k. split; nra.
Qed.

Lemma percentile_cont_mono (p q : Q) (values : list Q) :
  values <> [] -> 0 <= p -> p <= q -> q <= 1 ->
  percentile_cont p values <= percentile_cont q values.
Proof.
  intros Hne H0 Hpq H1. rewrite !percentile_cont_interpolate.
  assert (Hlen : (1 <= length (sort_values values))%nat).
  { rewrite sort_values_length. destruct values; [congruence | cbn; lia]. }
  assert (Hk : 0 <= inject_Z (Z.of_nat (length (sort_values values)) - 1)).
  { replace 0 with (inject_Z 0) by reflexivity. rewrite <- Zle_Qle. lia. }
  apply interpolate_mono.
  - apply sort_values_ascending.
  - apply Qmult_le_0_compat; assumption.
  - apply Qmult_le_compat_r; assumption.
  - set (k := inject_Z _) in *. clearbody k. nra.
Qed.

Lemma percentile_cont_between (p : Q) (values : list Q) :
  values <> [] -> 0 <= p -> p <= 1 ->
  exists lo hi,
    In lo values /\ In hi values
    /\ lo <= percentile_cont p values /\ percentile_cont p values <= hi.
Proof.
  intros Hne H0 H1. rewrite percentile_cont_interpolate.
  assert (Hlen : (1 <= length (sort_values values))%nat).
  { rewrite sort_values_length. destruct values; [congruence | cbn; lia]. }
  destruct (rank_in_range p _ Hlen H0 H1) as [R0 R1].
  set (x := p * inject_Z (Z.of_nat (length (sort_values values)) - 1)) in *.
  destruct (interpolate_bounds _ x (sort_values_ascending values) R0 R1)
    as [B1 B2].
  destruct (rank_range x _ R0 R1) as (X1 & X2 & X3 & X4).
  exists (nth (Z.to_nat (Qfloor x)) (sort_values values) 0),
         (nth (Z.to_nat (Qceiling x)) (sort_values values) 0).
  refine (conj _ (conj _ (conj B1 B2)));
    apply sort_values_In, nth_In; lia.
Qed.

(** X20.  The percentiles of every row of the view are ordered,
    P25 <= P50 <= P75, for the favourable and for the adverse
    excursion, and each lies between two excursions recorded in the
    group of the row. *)
Theorem view_percentiles_ordered (now c : datetime) (rows : list RollingRow)
    (row : PercentileRow) :
  In row (percentile_targets_query now c rows) ->
  (pr_mfe_p25 row <= pr_mfe_p50 row /\ pr_mfe_p50 row <= pr_mfe_p75 row)
  /\ (pr_mae_p25 row <= pr_mae_p50 row /\ pr_mae_p50 row <= pr_mae_p75 row)
  /\ (exists lo hi,
        In lo (members c row rows) /\ In hi (members c row rows)
        /\ rw_mfe_pips lo <= pr_mfe_p25 row /\ pr_mfe_p75 row <= rw_mfe_pips hi)
  /\ (exists lo hi,
        In lo (members c row rows) /\ In hi (members c row rows)
        /\ rw_mae_pips lo <= pr_mae_p25 row /\ pr_mae_p75 row <= rw_mae_pips hi).
Proof.
  intros Hin. destruct (query_row now c rows row Hin) as [Hrow [r Hr]].
  set (group := members c row rows) in *.
  assert (Hmfe : map rw_mfe_pips group <> []) by (destruct group; [contradiction | discriminate]).
  assert (Hmae : map rw_mae_pips group <> []) by (destruct group; [contradiction | discriminate]).
  assert (E1 : pr_mfe_p25 row = percentile_cont 0.25 (map rw_mfe_pips group))
    by (rewrite Hrow at 1; reflexivity).
  assert (E2 : pr_mfe_p50 row = percentile_cont 0.50 (map rw_mfe_pips group))
    by (rewrite Hrow at 1; reflexivity).
  assert (E3 : pr_mfe_p75 row = percentile_cont 0.75 (map rw_mfe_pips group))
    by (rewrite Hrow at 1; reflexivity).
  assert (E4 : pr_mae_p25 row = percentile_cont 0.25 (map rw_mae_pips group))
    by (rewrite Hrow at 1; reflexivity).
  assert (E5 : pr_mae_p50 row = percentile_cont 0.50 (map rw_mae_pips group))
    by (rewrite Hrow at 1; reflexivity).
  assert (E6 : pr_mae_p75 row = percentile_cont 0.75 (map rw_mae_pips group))
    by (rewrite Hrow at 1; reflexivity).
  rewrite E1, E2, E3, E4, E5, E6.
  refine (conj (conj _ _) (conj (conj _ _) (conj _ _)));
    try (apply percentile_cont_mono; [assumption | | | ]; vm_compute; discriminate).
  - destruct (percentile_cont_between 0.25 _ Hmfe) as (lo & _ & Hlo & _ & L1 & _);
      [vm_compute; discriminate | vm_compute; discriminate|].
    destruct (percentile_cont_between 0.75 _ Hmfe) as (_ & hi & _ & Hhi & _ & L2);
      [vm_compute; discriminate | vm_compute; discriminate|].
    apply in_map_iff in Hlo as (rlo & <- & Hrlo).
    apply in_map_iff in Hhi as (rhi & <- & Hrhi).
    exists rlo, rhi. auto.
  - destruct (percentile_cont_between 0.25 _ Hmae) as (lo & _ & Hlo & _ & L1 & _);
      [vm_compute; discriminate | vm_compute; discriminate|].
    destruct (percentile_cont_between 0.75 _ Hmae) as (_ & hi & _ & Hhi & _ & L2);
      [vm_compute; discriminate | vm_compute; discriminate|].
    apply in_map_iff in Hlo as (rlo & <- & Hrlo).
    apply in_map_iff in Hhi as (rhi & <- & Hrhi).
    exists rlo, rhi. auto.
Qed.

Lemma view_percentiles_ordered_witness :
  let rows := rolling_window (run empty_db window_history) in
  let view := percentile_targets_query (at_time 2025 12 2 12 0)
                (at_time 2025 6 2 12 0) rows in
  view <> []
  /\ Forall (fun row => pr_mfe_p25 row <= pr_mfe_p50 row
                        /\ pr_mfe_p50 row <= pr_mfe_p75 row) view.
Proof.
  intros rows view. split; [vm_compute; discriminate|].
  apply List.Forall_forall. intros row Hin.
  apply (view_percentiles_ordered (at_time 2025 12 2 12 0)
           (at_time 2025 6 2 12 0) rows row Hin).
Defined.

(** *** The baseline import *)

(** X21.  [import_baseline] replaces the table: whatever it held
    before, afterwards it holds one row per record, in order, with the
    excursions rounded to the one decimal of their columns (so within
    0.05 pip of the record), flagged as inside the window under the
    default model, and the view is the one computed from these rows; the
    statistics are the number of records and of view rows.  When two
    records share a key the COPY fails after the DELETE: the table is
    left empty, the view is the old one and no statistics are returned.
    Trades and account are not touched.  Importing the same records
    again, at any time, gives the same table, and at the same time the
    same database and statistics. *)
Theorem import_baseline_replaces (db : Database)
    (records : list ImportBaseline.BaselineRecord) (now c : datetime) :
  let out := ImportBaseline.import_baseline db records now c in
  let rows := map ImportBaseline.copied_row records in
  trades (fst out) = trades db /\ account (fst out) = account db
  /\ Forall (fun rec =>
               let r := ImportBaseline.copied_row rec in
               row_key r
               = (ImportBaseline.br_pair rec, ImportBaseline.br_session_name rec,
                  ImportBaseline.br_session_datetime rec,
                  "claude_haiku_45"%string)
               /\ rw_prediction r = ImportBaseline.br_prediction rec
               /\ rw_correct r = ImportBaseline.br_correct rec
               /\ rw_mfe_pips r = DECIMAL 1 (ImportBaseline.br_mfe_pips rec)
               /\ rw_mae_pips r = DECIMAL 1 (ImportBaseline.br_mae_pips rec)
               /\ ImportBaseline.br_mfe_pips rec - (1 # 20) <= rw_mfe_pips r
               /\ rw_mfe_pips r <= ImportBaseline.br_mfe_pips rec + (1 # 20)
               /\ ImportBaseline.br_mae_pips rec - (1 # 20) <= rw_mae_pips r
               /\ rw_mae_pips r <= ImportBaseline.br_mae_pips rec + (1 # 20)
               /\ rw_in_window r = true)
            records
  /\ (NoDup (map row_key rows) ->
      rolling_window (fst out) = rows
      /\ percentile_targets (fst out) = percentile_targets_query now c rows
      /\ snd out = Some (Z.of_nat (length records),
                         Z.of_nat (length (percentile_targets_query now c rows))))
  /\ (~ NoDup (map row_key rows) ->
      rolling_window (fst out) = []
      /\ percentile_targets (fst out) = percentile_targets db
      /\ snd out = None)
  /\ (forall now' c',
        rolling_window
          (fst (ImportBaseline.import_baseline (fst out) records now' c'))
        = rolling_window (fst out))
  /\ ImportBaseline.import_baseline (fst out) records now c = out.
Proof.
  intros out rows. subst out. unfold ImportBaseline.import_baseline. fold rows.
  pose proof (RollingWindowMoreFacts.unique_keys_NoDup rows) as Hu.
  assert (Hrows : Forall (fun rec =>
               let r := ImportBaseline.copied_row rec in
               row_key r
               = (ImportBaseline.br_pair rec, ImportBaseline.br_session_name rec,
                  ImportBaseline.br_session_datetime rec,
                  "claude_haiku_45"%string)
               /\ rw_prediction r = ImportBaseline.br_prediction rec
               /\ rw_correct r = ImportBaseline.br_correct rec
               /\ rw_mfe_pips r = DECIMAL 1 (ImportBaseline.br_mfe_pips rec)
               /\ rw_mae_pips r = DECIMAL 1 (ImportBaseline.br_mae_pips rec)
               /\ ImportBaseline.br_mfe_pips rec - (1 # 20) <= rw_mfe_pips r
               /\ rw_mfe_pips r <= ImportBaseline.br_mfe_pips rec + (1 # 20)
               /\ ImportBaseline.br_mae_pips rec - (1 # 20) <= rw_mae_pips r
               /\ rw_mae_pips r <= ImportBaseline.br_mae_pips rec + (1 # 20)
               /\ rw_in_window r = true)
            records).
  { apply List.Forall_forall. intros rec _. cbv zeta.
    destruct (DecimalFacts.DECIMAL_1_near (ImportBaseline.br_mfe_pips rec))
      as [H1 H2].
    destruct (DecimalFacts.DECIMAL_1_near (ImportBaseline.br_mae_pips rec))
      as [H3 H4].
    cbn [ImportBaseline.copied_row rw_mfe_pips rw_mae_pips rw_prediction
         rw_correct rw_in_window].
    refine (conj eq_refl (conj eq_refl (conj eq_refl (conj eq_refl (conj eq_refl
              (conj H1 (conj H2 (conj H3 (conj H4 eq_refl))))))))). }
  destruct (ImportBaseline.unique_keys rows) eqn:E; cbn [fst snd].
  - refine (conj eq_refl (conj eq_refl (conj Hrows (conj _ (conj _ (conj _ _)))))).
    + intros _. refine (conj eq_refl (conj eq_refl eq_refl)).
    + intros Hn. exfalso. apply Hn. now apply Hu.
    + intros now' c'. reflexivity.
    + reflexivity.
  - refine (conj eq_refl (conj eq_refl (conj Hrows (conj _ (conj _ (conj _ _)))))).
    + intros Hnd. apply Hu in Hnd. discriminate.
    + intros _. split; [reflexivity|]. split; reflexivity.
    + intros now' c'. reflexivity.
    + reflexivity.
Qed.

(** Two records of different sessions, with excursions of two decimals:
    12.34 is stored as 12.3 and 5.25 as 5.3. *)
Lemma import_baseline_replaces_witness :
  let record (d : Z) (mfe mae : Q) :=
    {| ImportBaseline.br_pair := "EURUSD";
       ImportBaseline.br_session_name := "London_Open";
       ImportBaseline.br_session_datetime := at_time 2025 12 d 8 0;
       ImportBaseline.br_prediction := "BULLISH";
       ImportBaseline.br_correct := true;
       ImportBaseline.br_mfe_pips := mfe;
       ImportBaseline.br_mae_pips := mae;
       ImportBaseline.br_mfe_first := None;
       ImportBaseline.br_time_to_mfe_minutes := None;
       ImportBaseline.br_time_to_mae_minutes := None |} in
  let records := [record 1%Z 12.34 5.25; record 2%Z 20.0 7.5] in
  let out :=
    ImportBaseline.import_baseline (run empty_db window_history) records
      (at_time 2025 12 3 12 0) (at_time 2025 6 3 12 0) in
  rolling_window (fst out) = map ImportBaseline.copied_row records
  /\ (map rw_mfe_pips (rolling_window (fst out)) = [12.3; 20.0]
      /\ map rw_mae_pips (rolling_window (fst out)) = [5.3; 7.5])
  /\ snd out = Some (2%Z, 1%Z).
Proof.
  intros record records out. subst out.
  pose proof (import_baseline_replaces (run empty_db window_history) records
                (at_time 2025 12 3 12 0) (at_time 2025 6 3 12 0)) as H.
  cbv zeta in H. destruct H as (_ & _ & _ & H & _).
  assert (Hnd : NoDup (map row_key (map ImportBaseline.copied_row records))).
  { apply RollingWindowMoreFacts.unique_keys_NoDup. vm_compute. reflexivity. }
  destruct (H Hnd) as (H1 & _ & H3).
  split; [exact H1|]. split; [|rewrite H3; vm_compute; reflexivity].
  split; vm_compute; reflexivity.
Defined.

End ViewFacts.

(** ** The scheduler: the next session *)

Module NextSessionFacts.

Import SessionUtils Scheduler SchedulerSpec Scenarios.
Local Open Scope Z_scope.

Lemma first_day_value : first_day = 719163.
Proof. reflexivity. Qed.

Lemma last_day_value : last_day = 766644.
Proof. reflexivity. Qed.

Lemma all_from_spec (f : Z -> bool) (n : nat) (start x : Z) :
  all_from f start n = true -> start <= x < start + Z.of_nat n -> f x = true.
Proof.
  revert start. induction n as [|n IH]; intros start Hall Hx; [lia|].
  cbn [all_from] in Hall. apply andb_true_iff in Hall as [H0 Hrest].
  destruct (Z.eq_dec x start) as [->|Hne]; [exact H0|].
  apply (IH (start + 1)); [exact Hrest | lia].
Qed.

(** [fromordinal] followed by [toordinal] gives back every day number
    from 1970-01-01 to 2099-12-31, by enumeration. *)
Lemma ordinal_round_trip_check :
  all_from ordinal_round_trip 719163 (Z.to_nat 47482) = true.
Proof. vm_compute. reflexivity. Qed.

Lemma add_days_ordinal (d : datetime) (k : Z) :
  first_day <= toordinal d + k <= last_day ->
  toordinal (add_days d k) = toordinal d + k.
Proof.
  rewrite first_day_value, last_day_value. intros H.
  pose proof (all_from_spec _ _ _ (toordinal d + k) ordinal_round_trip_check)
    as C.
  unfold ordinal_round_trip in C. unfold add_days.
  destruct (fromordinal (toordinal d + k)) as [[y m] dd].
  change (toordinal (mk_date y m dd) = toordinal d + k).
  apply Z.eqb_eq, C. rewrite Z2Nat.id by lia. lia.
Qed.

Lemma add_days_time (d : datetime) (k : Z) :
  hour (add_days d k) = hour d /\ minute (add_days d k) = minute d
  /\ second (add_days d k) = second d
  /\ microsecond (add_days d k) = microsecond d.
Proof.
  unfold add_days. destruct (fromordinal _) as [[y m] dd]. now repeat split.
Qed.

Lemma weekday_range (d : datetime) : 0 <= weekday d < 7.
Proof. unfold weekday. apply Z.mod_pos_bound. lia. Qed.

Lemma at_session_ordinal (cd : datetime) (info : SessionInfo) :
  toordinal (at_session cd info) = toordinal cd
  /\ weekday (at_session cd info) = weekday cd.
Proof. split; reflexivity. Qed.

Lemma session_times_same_day (cd : datetime) (info : SessionInfo) :
  get_session_times_for_date (at_session cd info) = get_session_times_for_date cd.
Proof. reflexivity. Qed.

Lemma asian_open_entry (d : datetime) :
  get_session_times_for_date d !! "Asian_Open"%string
  = Some {| si_hour := 1; si_minute := 0; si_name := "Asian Open" |}.
Proof. reflexivity. Qed.

Lemma open_sessions_listed (d : datetime) (name : string) :
  In name open_sessions -> is_Some (get_session_times_for_date d !! name).
Proof.
  intros [<- | [<- | [<- | []]]]; eexists; reflexivity.
Qed.

(** The inner loop: it returns the first session of the list that is
    after [now], and none when there is none. *)
Lemma first_future_session_spec (now cd : datetime)
    (times : gmap string SessionInfo) (names : list string) :
  (forall name, In name names -> is_Some (times !! name)) ->
  match first_future_session now cd times names with
  | None => False
  | Some None =>
      forall name info, In name names -> times !! name = Some info ->
        dt_gtb (at_session cd info) now = false
  | Some (Some (name, dt)) =>
      In name names
      /\ exists info, times !! name = Some info /\ dt = at_session cd info
                      /\ dt_gtb dt now = true
  end.
Proof.
  induction names as [|n names IH]; intros Hall; cbn [first_future_session].
  - intros name info [].
  - destruct (Hall n (or_introl eq_refl)) as [info Hinfo]. rewrite Hinfo.
    fold (at_session cd info).
    destruct (dt_gtb (at_session cd info) now) eqn:E.
    + split; [now left|]. exists info. auto.
    + assert (Hall' : forall name, In name names -> is_Some (times !! name)).
      { intros name Hin. apply Hall. now right. }
      specialize (IH Hall').
      destruct (first_future_session now cd times names) as [[[name dt]|]|].
      * destruct IH as [Hin H]. split; [now right | exact H].
      * intros name info' [<- | Hin] Hl.
        -- rewrite Hinfo in Hl. injection Hl as <-. exact E.
        -- exact (IH name info' Hin Hl).
      * exact IH.
Qed.

Lemma later_day_is_later (now dt : datetime) :
  valid_time now -> toordinal now < toordinal dt ->
  0 <= hour dt -> 0 <= minute dt -> 0 <= second dt -> 0 <= microsecond dt ->
  dt_gtb dt now = true.
Proof.
  intros (Hh & Hm & Hs & Hu) Hd H1 H2 H3 H4.
  unfold dt_gtb, to_micros. apply Z.ltb_lt. nia.
Qed.

(** What the next session must satisfy, relative to [now]. *)
Lemma found_session (now cd : datetime) (name : string) (dt : datetime) :
  toordinal now <= toordinal cd <= toordinal now + 3 ->
  weekday cd < 5 ->
  In name open_sessions ->
  (exists info,
     get_session_times_for_date cd !! name = Some info
     /\ dt = at_session cd info /\ dt_gtb dt now = true) ->
  exists info,
    In name open_sessions
    /\ dt_gtb dt now = true
    /\ weekday dt < 5
    /\ toordinal now <= toordinal dt <= toordinal now + 3
    /\ get_session_times_for_date dt !! name = Some info
    /\ hour dt = si_hour info /\ minute dt = si_minute info
    /\ second dt = 0 /\ microsecond dt = 0.
Proof.
  intros Hord Hwd Hin (info & Hl & -> & Hgt). exists info.
  destruct (at_session_ordinal cd info) as [-> ->].
  rewrite session_times_same_day. now repeat split.
Qed.

(** The inner loop on a day from Monday to Friday that is today or
    later: what it returns is a session as wanted. *)
Lemma day_result (now cd : datetime) :
  toordinal now <= toordinal cd <= toordinal now + 3 ->
  weekday cd < 5 ->
  match first_future_session now cd (get_session_times_for_date cd)
          open_sessions with
  | None => False
  | Some None =>
      dt_gtb (at_session cd {| si_hour := 1; si_minute := 0;
                               si_name := "Asian Open" |}) now = false
  | Some (Some (name, dt)) =>
      exists info,
        In name open_sessions
        /\ dt_gtb dt now = true
        /\ weekday dt < 5
        /\ toordinal now <= toordinal dt <= toordinal now + 3
        /\ get_session_times_for_date dt !! name = Some info
        /\ hour dt = si_hour info /\ minute dt = si_minute info
        /\ second dt = 0 /\ microsecond dt = 0
  end.
Proof.
  intros Hord Hwd.
  pose proof (first_future_session_spec now cd (get_session_times_for_date cd)
                open_sessions (open_sessions_listed cd)) as Hspec.
  destruct (first_future_session now cd (get_session_times_for_date cd)
              open_sessions) as [[[name dt]|]|].
  - destruct Hspec as [Hin H]. now apply (found_session now cd).
  - apply (Hspec "Asian_Open"%string); [now left | apply asian_open_entry].
  - exact Hspec.
Qed.

(** On the day after today the Asian open is still to come. *)
Lemma tomorrow_result (now cd : datetime) :
  valid_time now ->
  toordinal cd = toordinal now + 1 ->
  weekday cd < 5 ->
  match first_future_session now cd (get_session_times_for_date cd)
          open_sessions with
  | Some (Some (name, dt)) =>
      exists info,
        In name open_sessions
        /\ dt_gtb dt now = true
        /\ weekday dt < 5
        /\ toordinal now <= toordinal dt <= toordinal now + 3
        /\ get_session_times_for_date dt !! name = Some info
        /\ hour dt = si_hour info /\ minute dt = si_minute info
        /\ second dt = 0 /\ microsecond dt = 0
  | _ => False
  end.
Proof.
  intros Hvalid Hord Hwd.
  pose proof (day_result now cd ltac:(lia) Hwd) as H.
  destruct (first_future_session now cd (get_session_times_for_date cd)
              open_sessions) as [[[name dt]|]|]; [exact H | | exact H].
  assert (Hlater : dt_gtb (at_session cd {| si_hour := 1; si_minute := 0;
                                            si_name := "Asian Open" |}) now
                   = true).
  { apply later_day_is_later; [exact Hvalid | | cbn; lia ..].
    destruct (at_session_ordinal cd {| si_hour := 1; si_minute := 0;
                                       si_name := "Asian Open" |}) as [-> _].
    lia. }
  congruence.
Qed.

(** The fallback: the Asian open of a Monday that follows today. *)
Lemma monday_open (now nm : datetime) :
  valid_time now ->
  toordinal now < toordinal nm <= toordinal now + 3 ->
  weekday nm = 0 -> second nm = 0 -> microsecond nm = 0 ->
  exists name dt info,
    match get_session_times_for_date nm !! "Asian_Open"%string with
    | Some asian =>
        Some ("Asian_Open"%string,
              replace_hm nm (si_hour asian) (si_minute asian))
    | None => None
    end = Some (name, dt)
    /\ In name open_sessions
    /\ dt_gtb dt now = true
    /\ weekday dt < 5
    /\ toordinal now <= toordinal dt <= toordinal now + 3
    /\ get_session_times_for_date dt !! name = Some info
    /\ hour dt = si_hour info /\ minute dt = si_minute info
    /\ second dt = 0 /\ microsecond dt = 0.
Proof.
  intros Hvalid Hord Hwd Hs Hu. rewrite asian_open_entry.
  exists "Asian_Open"%string, (replace_hm nm 1 0),
         {| si_hour := 1; si_minute := 0; si_name := "Asian Open" |}.
  assert (Ho : toordinal (replace_hm nm 1 0) = toordinal nm) by reflexivity.
  assert (Hw : weekday (replace_hm nm 1 0) = weekday nm) by reflexivity.
  refine (conj eq_refl (conj _ (conj _ (conj _ (conj _ (conj _ _)))))).
  - now left.
  - apply later_day_is_later;
      [exact Hvalid | rewrite Ho; lia | cbn; lia | cbn; lia | |].
    + cbn [second replace_hm]. rewrite Hs. lia.
    + cbn [microsecond replace_hm]. rewrite Hu. lia.
  - rewrite Hw, Hwd. lia.
  - rewrite Ho. lia.
  - reflexivity.
  - cbn [hour minute second microsecond replace_hm si_hour si_minute].
    rewrite Hs, Hu. now repeat split.
Qed.

(** The two loops and the fallback, on the results of their parts. *)
Lemma scan_two_days_core (Q : string -> datetime -> SessionInfo -> Prop)
    (we0 we1 : bool) (r0 r1 : option (option (string * datetime)))
    (fb : option (string * datetime)) :
  (we0 = false ->
   match r0 with
   | None => False
   | Some None => True
   | Some (Some (name, dt)) => exists info, Q name dt info
   end) ->
  (we1 = false ->
   match r1 with
   | Some (Some (name, dt)) => exists info, Q name dt info
   | _ => False
   end) ->
  (we1 = true ->
   exists name dt info, fb = Some (name, dt) /\ Q name dt info) ->
  exists name dt info,
    match
      (if we0 then
         (if we1 then Some None
          else match r1 with
               | None => None
               | Some (Some r) => Some (Some r)
               | Some None => Some None
               end)
       else
         match r0 with
         | None => None
         | Some (Some r) => Some (Some r)
         | Some None =>
             if we1 then Some None
             else match r1 with
                  | None => None
                  | Some (Some r) => Some (Some r)
                  | Some None => Some None
                  end
         end)
    with
    | None => None
    | Some (Some r) => Some r
    | Some None => fb
    end = Some (name, dt) /\ Q name dt info.
Proof.
  intros H0 H1 Hfb.
  assert (Hrest :
    exists name dt info,
      match
        (if we1 then Some None
         else match r1 with
              | None => None
              | Some (Some r) => Some (Some r)
              | Some None => Some None
              end)
      with
      | None => None
      | Some (Some r) => Some r
      | Some None => fb
      end = Some (name, dt) /\ Q name dt info).
  { destruct we1.
    - exact (Hfb eq_refl).
    - specialize (H1 eq_refl).
      destruct r1 as [[[name dt]|]|]; try contradiction.
      destruct H1 as [info HQ]. exists name, dt, info. now split. }
  destruct we0; [exact Hrest|].
  specialize (H0 eq_refl).
  destruct r0 as [[[name dt]|]|]; [| exact Hrest | contradiction].
  destruct H0 as [info HQ]. exists name, dt, info. now split.
Qed.

Lemma weekend_false (d : datetime) :
  (weekday d =? 5) || (weekday d =? 6) = false -> weekday d < 5.
Proof.
  intros H. apply orb_false_iff in H as [E5 E6]. apply Z.eqb_neq in E5, E6.
  pose proof (weekday_range d). lia.
Qed.

Lemma weekend_true (d : datetime) :
  (weekday d =? 5) || (weekday d =? 6) = true -> weekday d = 5 \/ weekday d = 6.
Proof.
  intros H. apply orb_true_iff in H as [E|E]; apply Z.eqb_eq in E; auto.
Qed.

(** X22.  [_get_next_session] always finds a session.  At any instant
    between 1970 and 2099 whose time of day is in range it returns one
    of the three opens, at an instant strictly after now, on a day from
    Monday to Friday that is today or at most three days ahead, at the
    hour and minute the session table of that day gives for it, with
    seconds and microseconds zero. *)
Theorem next_session_is_future (now : datetime) :
  valid_time now -> in_calendar now ->
  exists name dt info,
    _get_next_session now = Some (name, dt)
    /\ In name open_sessions
    /\ dt_gtb dt now = true
    /\ weekday dt < 5
    /\ toordinal now <= toordinal dt <= toordinal now + 3
    /\ get_session_times_for_date dt !! name = Some info
    /\ hour dt = si_hour info /\ minute dt = si_minute info
    /\ second dt = 0 /\ microsecond dt = 0.
Proof.
  intros Hvalid [Hlo Hhi].
  assert (Htoday : toordinal (midnight now) = toordinal now) by reflexivity.
  assert (Hadd : forall k, 0 <= k <= 7 ->
                   toordinal (add_days (midnight now) k) = toordinal now + k).
  { intros k Hk. rewrite add_days_ordinal; [now rewrite Htoday|].
    rewrite Htoday. lia. }
  pose proof (weekday_range (midnight now)) as Hw0.
  assert (Hwk : forall k, 0 <= k <= 7 ->
                  weekday (add_days (midnight now) k)
                  = (weekday (midnight now) + k) mod 7).
  { intros k Hk. unfold weekday at 1. rewrite (Hadd k Hk).
    unfold weekday. rewrite Htoday, Zplus_mod_idemp_l. f_equal. lia. }
  pose proof (Hadd 0 ltac:(lia)) as Ho0. rewrite Z.add_0_r in Ho0.
  pose proof (Hadd 1 ltac:(lia)) as Ho1.
  pose proof (Hwk 1 ltac:(lia)) as Hw1.
  apply (scan_two_days_core
           (fun name dt info =>
              In name open_sessions
              /\ dt_gtb dt now = true
              /\ weekday dt < 5
              /\ toordinal now <= toordinal dt <= toordinal now + 3
              /\ get_session_times_for_date dt !! name = Some info
              /\ hour dt = si_hour info /\ minute dt = si_minute info
              /\ second dt = 0 /\ microsecond dt = 0)
           ((weekday (add_days (midnight now) 0) =? 5)
            || (weekday (add_days (midnight now) 0) =? 6))
           ((weekday (add_days (midnight now) 1) =? 5)
            || (weekday (add_days (midnight now) 1) =? 6))
           (first_future_session now (add_days (midnight now) 0)
              (get_session_times_for_date (add_days (midnight now) 0))
              open_sessions)
           (first_future_session now (add_days (midnight now) 1)
              (get_session_times_for_date (add_days (midnight now) 1))
              open_sessions)).
  - intros Hwe. apply weekend_false in Hwe.
    pose proof (day_result now (add_days (midnight now) 0) ltac:(lia) Hwe) as H.
    destruct (first_future_session now (add_days (midnight now) 0) _ _)
      as [[[name dt]|]|]; [exact H | exact I | exact H].
  - intros Hwe. apply weekend_false in Hwe.
    exact (tomorrow_result now (add_days (midnight now) 1) Hvalid Ho1 Hwe).
  - intros Hwe. apply weekend_true in Hwe. rewrite Hw1 in Hwe.
    assert (Hw : weekday (midnight now) = 4 \/ weekday (midnight now) = 5).
    { assert (Hc : weekday (midnight now) = 0 \/ weekday (midnight now) = 1
                   \/ weekday (midnight now) = 2 \/ weekday (midnight now) = 3
                   \/ weekday (midnight now) = 4 \/ weekday (midnight now) = 5
                   \/ weekday (midnight now) = 6) by lia.
      destruct Hc as [H|[H|[H|[H|[H|[H|H]]]]]]; rewrite H in Hwe;
        destruct Hwe as [E|E]; try discriminate E; auto. }
    assert (HK : (if (7 - weekday (midnight now)) mod 7 =? 0 then 7
                  else (7 - weekday (midnight now)) mod 7)
                 = 7 - weekday (midnight now)).
    { destruct Hw as [H|H]; rewrite H; reflexivity. }
    cbv zeta. rewrite HK.
    assert (Hk : 2 <= 7 - weekday (midnight now) <= 3) by lia.
    apply monday_open.
    + exact Hvalid.
    + rewrite Hadd by lia. lia.
    + rewrite Hwk by lia.
      replace (weekday (midnight now) + (7 - weekday (midnight now))) with 7
        by lia.
      reflexivity.
    + now destruct (add_days_time (midnight now) (7 - weekday (midnight now)))
        as (_ & _ & -> & _).
    + now destruct (add_days_time (midnight now) (7 - weekday (midnight now)))
        as (_ & _ & _ & ->).
Qed.

Lemma next_session_is_future_witness :
  exists name dt,
    _get_next_session (at_time 2025 12 26 20 0) = Some (name, dt)
    /\ dt_gtb dt (at_time 2025 12 26 20 0) = true
    /\ weekday dt < 5.
Proof.
  destruct (next_session_is_future (at_time 2025 12 26 20 0))
    as (name & dt & info & H1 & _ & H3 & H4 & _).
  - vm_compute. repeat split; congruence.
  - vm_compute. split; congruence.
  - exists name, dt. auto.
Defined.

End NextSessionFacts.

(** ** The scheduler: alerts, one pair of a session, the daily cleanup *)

Module SchedulerMoreFacts.

Import SessionUtils Schema RiskEngine TradeExecutor Scheduler WindowSpec
       Scenarios.
Local Open Scope Q_scope.

Section WithSettings.

Variable settings : Config.Settings.


End WithSettings.

(** X23.  [_on_price_alert] handles an alert at most once.  An alert
    for a trade that is not among the active trades, that carries no
    trigger price, or whose trade is not in the database changes
    nothing.  Otherwise the trade is closed at the trigger price, as a
    WIN without stop slippage when the trigger is TP and as a LOSS
    otherwise (with stop slippage when it is SL); it leaves the active
    trades, its alert leaves the stream, and the outcome is kept for the
    verification at session end.  Delivering the same alert again then
    changes nothing. *)
Theorem on_price_alert_once (settings : Config.Settings) (db : Database)
    (sch : TradingScheduler) (alert : PriceStream.PriceAlert)
    (now now' : datetime) :
  let out := _on_price_alert settings db sch alert now in
  let tid := PriceStream.trade_id alert in
  (_active_trades sch !! tid = None -> out = (db, sch))
  /\ (PriceStream.trigger_price alert = None -> out = (db, sch))
  /\ (trades db !! tid = None -> out = (db, sch))
  /\ _on_price_alert settings (fst out) (snd out) alert now' = out
  /\ (forall info px trade,
        _active_trades sch !! tid = Some info ->
        PriceStream.trigger_price alert = Some px ->
        trades db !! tid = Some trade ->
        let outcome :=
          match PriceStream.trigger_type alert with
          | Some PriceStream.TP => WIN
          | _ => LOSS
          end in
        let is_stop :=
          match PriceStream.trigger_type alert with
          | Some PriceStream.SL => true
          | _ => false
          end in
        fst out = fst (close_trade settings db tid px outcome is_stop now)
        /\ _active_trades (snd out) = delete tid (_active_trades sch)
        /\ _pending_verifications (snd out) !! tid
           = Some {| pi_pair := ti_pair info;
                     pi_session_name := ti_session_name info;
                     pi_session_datetime := ti_session_datetime info;
                     pi_prediction := ti_prediction info;
                     pi_model := ti_model info;
                     pi_outcome := outcome;
                     pi_trigger_price := Some px;
                     pi_trigger_time := PriceStream.trigger_time alert |}
        /\ (forall other, other <> tid ->
              _pending_verifications (snd out) !! other
              = _pending_verifications sch !! other)
        /\ _price_stream (snd out)
           = match _price_stream sch with
             | Some ps => Some (PriceStream.remove_alert ps tid)
             | None => None
             end).
Proof.
  intros out tid. subst out tid. unfold _on_price_alert.
  destruct (_active_trades sch !! PriceStream.trade_id alert) as [info|] eqn:Ea.
  2:{ refine (conj (fun _ => eq_refl) (conj (fun _ => eq_refl)
                (conj (fun _ => eq_refl) (conj _ _)))).
      - cbn [fst snd]. rewrite ?Ea, ?Ep. reflexivity.
      - intros ? ? ? [=]. }
  destruct (PriceStream.trigger_price alert) as [px|] eqn:Ep.
  2:{ refine (conj (fun _ => eq_refl) (conj (fun _ => eq_refl)
                (conj (fun _ => eq_refl) (conj _ _)))).
      - cbn [fst snd]. rewrite ?Ea, ?Ep. reflexivity.
      - intros ? ? ? _ [=]. }
  unfold close_trade.
  destruct (trades db !! PriceStream.trade_id alert) as [trade|] eqn:Et.
  2:{ refine (conj _ (conj _ (conj (fun _ => eq_refl) (conj _ _)))).
      - intros [=].
      - intros [=].
      - cbn [fst snd]. rewrite ?Ea, ?Ep, ?Et. reflexivity.
      - intros ? ? ? _ _ [=]. }
  refine (conj _ (conj _ (conj _ (conj _ _)))).
  - intros [=].
  - intros [=].
  - intros [=].
  - cbn [fst snd _active_trades]. now rewrite lookup_delete_eq.
  - intros info' px' trade' [= <-] [= <-] [= <-]. cbn [fst snd].
    refine (conj eq_refl (conj eq_refl (conj _ (conj _ eq_refl)))).
    + cbn [_pending_verifications]. apply lookup_insert_eq.
    + intros other Hne. cbn [_pending_verifications].
      now apply lookup_insert_ne.
Qed.

(** The alert of the open S6 position, hit at its take-profit: the
    trade is closed as a WIN at 1.1050, leaves the active trades and
    waits for its verification. *)
Lemma on_price_alert_once_witness :
  let out := _on_price_alert Config.default_settings (db_with s6_position)
               s6_scheduler s6_alert_hit (at_time 2025 12 29 9 30) in
  fst out
  = fst (close_trade Config.default_settings (db_with s6_position) "s6"
           1.1050 WIN false (at_time 2025 12 29 9 30))
  /\ _active_trades (snd out) = delete "s6"%string (_active_trades s6_scheduler)
  /\ (pi_outcome <$> _pending_verifications (snd out) !! "s6"%string) = Some WIN.
Proof.
  intros out. subst out.
  pose proof (on_price_alert_once Config.default_settings
                (db_with s6_position) s6_scheduler s6_alert_hit
                (at_time 2025 12 29 9 30) (at_time 2025 12 29 9 30)) as H.
  cbv zeta in H. destruct H as (_ & _ & _ & _ & H).
  destruct (H _ 1.1050 s6_position eq_refl eq_refl eq_refl)
    as (H1 & H2 & H3 & _).
  refine (conj H1 (conj H2 _)). exact (f_equal (fmap pi_outcome) H3).
Defined.



Lemma cleanup_nothing_marked (db : Database) (c : datetime) :
  snd (cleanup_old_rolling_data db c) = 0%Z ->
  fst (cleanup_old_rolling_data db c) = db.
Proof.
  unfold cleanup_old_rolling_data. cbn [fst snd]. intros Hz.
  assert (Hnone : List.filter (cleanup_where c) (rolling_window db) = []).
  { destruct (List.filter _ _); [reflexivity | cbn in Hz; lia]. }
  assert (Hmap : map (fun r => if cleanup_where c r
                               then set_in_window r false else r)
                     (rolling_window db) = rolling_window db).
  { clear Hz. induction (rolling_window db) as [|r rows IH]; [reflexivity|].
    cbn [List.filter] in Hnone. cbn [map].
    destruct (cleanup_where c r); [discriminate|].
    now rewrite (IH Hnone). }
  rewrite Hmap. now destruct db.
Qed.

(** X25.  [_run_daily_cleanup] refreshes the view only when the
    cleanup marked a row.  When there is nothing to mark the database is
    left exactly as it is; otherwise the table is the one the cleanup
    leaves and the view is computed from it at the time of the refresh.
    Trades and account are never touched, and a second run at the same
    six-months-ago instant changes nothing, whenever its refresh would
    run. *)
Theorem daily_cleanup_effect (db : Database) (c now' c' : datetime) :
  let marked := snd (cleanup_old_rolling_data db c) in
  let db' := _run_daily_cleanup db c now' c' in
  (marked = 0%Z -> db' = db)
  /\ ((0 < marked)%Z ->
      percentile_targets db'
      = percentile_targets_query now' c' (rolling_window db'))
  /\ rolling_window db' = rolling_window (fst (cleanup_old_rolling_data db c))
  /\ trades db' = trades db /\ account db' = account db
  /\ (forall now2 c2, _run_daily_cleanup db' c now2 c2 = db').
Proof.
  intros marked db'. subst marked db'. unfold _run_daily_cleanup.
  pose proof (RollingWindowMoreFacts.cleanup_again db c) as Hagain.
  pose proof (cleanup_nothing_marked db c) as Hnone.
  destruct (cleanup_old_rolling_data db c) as [db1 n] eqn:E.
  cbn [fst snd] in *.
  assert (Hsecond : forall d, rolling_window d = rolling_window db1 ->
            forall now2 c2,
              (let '(d', deleted) := cleanup_old_rolling_data d c in
               if (0 <? deleted)%Z
               then refresh_percentiles d' now2 c2 else d') = d).
  { intros d Hd now2 c2.
    assert (Hz : snd (cleanup_old_rolling_data d c) = 0%Z).
    { unfold cleanup_old_rolling_data. cbn [snd]. rewrite Hd.
      change (snd (cleanup_old_rolling_data db1 c) = 0%Z).
      now rewrite Hagain. }
    pose proof (cleanup_nothing_marked d c Hz) as Hd'.
    destruct (cleanup_old_rolling_data d c) as [d' k]. cbn [fst snd] in *.
    subst k d'. reflexivity. }
  destruct (Z.ltb_spec 0 n) as [Hpos|Hzero].
  - refine (conj _ (conj _ (conj eq_refl (conj _ (conj _ _))))).
    + intros ->. lia.
    + intros _. reflexivity.
    + unfold cleanup_old_rolling_data in E. now injection E as <- _.
    + unfold cleanup_old_rolling_data in E. now injection E as <- _.
    + apply Hsecond. reflexivity.
  - refine (conj _ (conj _ (conj eq_refl (conj _ (conj _ _))))).
    + intros Hn. now apply Hnone.
    + intros Hn. lia.
    + unfold cleanup_old_rolling_data in E. now injection E as <- _.
    + unfold cleanup_old_rolling_data in E. now injection E as <- _.
    + apply Hsecond. reflexivity.
Qed.

(** Two excursions ten months apart: the cleanup of 2 December marks
    the older one, so the view is refreshed, from the younger one. *)
Lemma daily_cleanup_effect_witness :
  let db :=
    RollingWindowSpec.run empty_db
      [ excursion (at_time 2025 2 3 8 0) 21.5 7.0;
        excursion (at_time 2025 12 1 8 0) 12.0 9.5 ] in
  let db' := _run_daily_cleanup db (at_time 2025 6 2 0 0)
               (at_time 2025 12 2 0 0) (at_time 2025 6 2 0 0) in
  percentile_targets db'
  = percentile_targets_query (at_time 2025 12 2 0 0) (at_time 2025 6 2 0 0)
      (rolling_window db')
  /\ map pr_sample_count (percentile_targets db') = [1%Z]
  /\ map rw_in_window (rolling_window db') = [false; true].
Proof.
  intros db db'. subst db db'.
  pose proof (daily_cleanup_effect
                (RollingWindowSpec.run empty_db
                   [ excursion (at_time 2025 2 3 8 0) 21.5 7.0;
                     excursion (at_time 2025 12 1 8 0) 12.0 9.5 ])
                (at_time 2025 6 2 0 0) (at_time 2025 12 2 0 0)
                (at_time 2025 6 2 0 0)) as H.
  cbv zeta in H. destruct H as (_ & H & _).
  split; [apply H; vm_compute; reflexivity|].
  split; vm_compute; reflexivity.
Defined.

End SchedulerMoreFacts.

(** ** The risk engine: position size against stop and balance *)

Module RiskEngineMoreFacts.

Import Schema RiskEngine Scenarios.
Local Open Scope Q_scope.

Lemma quotient_antitone (r a b : Q) :
  0 <= r -> 0 < a -> a <= b -> r / b <= r / a.
Proof.
  intros Hr Ha Hab.
  assert (Hb : 0 < b) by (eapply Qlt_le_trans; eassumption).
  apply Qle_shift_div_r; [exact Hb|].
  assert (E : r / a * b == r + r * (b - a) / a) by (field; lra).
  rewrite E.
  assert (H : 0 <= r * (b - a) / a).
  { apply Qle_shift_div_l; [exact Ha|].
    assert (0 <= r * (b - a)) by (apply Qmult_le_0_compat; lra). lra. }
  lra.
Qed.

Lemma quotient_monotone (r s a : Q) : r <= s -> 0 < a -> r / a <= s / a.
Proof.
  intros Hrs Ha. apply Qmult_le_compat_r; [exact Hrs|].
  apply Qlt_le_weak, Qinv_lt_0_compat, Ha.
Qed.

(** X26.  Position sizing is monotone: with a risk that is not
    negative, a wider stop never gives a larger lot size, and with a
    risk percentage that is not negative a larger balance never gives a
    smaller one; the risk in dollars is the balance times the risk
    percentage and does not depend on the stop; and a stop of zero pips
    or less is sized as a stop of 10 pips. *)
Theorem position_size_monotone (settings : Config.Settings)
    (balance sl1 sl2 : Q) (pair : string) (risk_percent : option Q) :
  let size sl := calculate_position_size settings balance sl pair risk_percent in
  let pct := match risk_percent with
             | None => Config.risk_percent settings
             | Some r => r
             end in
  snd (size sl1) = balance * (pct / 100)
  /\ snd (size sl2) = snd (size sl1)
  /\ (0 <= snd (size sl1) -> 0 < sl1 -> sl1 <= sl2 ->
      fst (size sl2) <= fst (size sl1))
  /\ (sl1 <= 0 -> size sl1 = size 10.0)
  /\ (forall balance',
        0 <= pct -> balance <= balance' ->
        fst (size sl1)
        <= fst (calculate_position_size settings balance' sl1 pair risk_percent)).
Proof.
  intros size pct. subst size. unfold calculate_position_size. fold pct.
  cbn [fst snd].
  set (pv := if Py.contains "JPY" pair then 9.0
             else if Py.contains "XAU" pair || Py.contains "XAG" pair
                  then 10.0 else 10.0).
  assert (Hpv : 0 < pv).
  { unfold pv. destruct (Py.contains "JPY" pair); [reflexivity|].
    destruct (Py.contains "XAU" pair || Py.contains "XAG" pair); reflexivity. }
  refine (conj eq_refl (conj eq_refl (conj _ (conj _ _)))).
  - intros Hr H1 H12.
    assert (H2 : 0 < sl2) by (eapply Qlt_le_trans; eassumption).
    assert (E1 : Qle_bool sl1 0 = false).
    { destruct (Qle_bool sl1 0) eqn:E; [|reflexivity].
      apply Qle_bool_iff in E. lra. }
    assert (E2 : Qle_bool sl2 0 = false).
    { destruct (Qle_bool sl2 0) eqn:E; [|reflexivity].
      apply Qle_bool_iff in E. lra. }
    rewrite E1, E2. cbv iota.
    apply PyFacts.round_mono, PyFacts.Qmin_mono, PyFacts.Qmax_mono, quotient_antitone.
    + exact Hr.
    + now apply Qmult_lt_0_compat.
    + apply Qmult_le_compat_r; [exact H12 | now apply Qlt_le_weak].
  - intros H1. apply Qle_bool_iff in H1. rewrite H1. reflexivity.
  - intros balance' Hpct Hb.
    apply PyFacts.round_mono, PyFacts.Qmin_mono, PyFacts.Qmax_mono, quotient_monotone.
    + apply Qmult_le_compat_r; [exact Hb|].
      apply Qle_shift_div_l; [reflexivity|]. clearbody pct. lra.
    + destruct (Qle_bool sl1 0) eqn:E; cbv iota.
      * apply Qmult_lt_0_compat; [reflexivity | exact Hpv].
      * apply Qmult_lt_0_compat; [|exact Hpv].
        apply Qnot_le_lt. intros H. apply Qle_bool_iff in H. congruence.
Qed.

Lemma position_size_monotone_witness :
  fst (calculate_position_size Config.default_settings 10000 20 "EURUSD" None)
  <= fst (calculate_position_size Config.default_settings 10000 10 "EURUSD" None).
Proof.
  pose proof (position_size_monotone Config.default_settings 10000 10 20
                "EURUSD" None) as H.
  cbv zeta in H. destruct H as (_ & _ & H & _).
  apply H; vm_compute; first [reflexivity | discriminate].
Defined.

End RiskEngineMoreFacts.

(** ** The scheduler: a whole session *)

Module SessionFacts.

Import SessionUtils Schema RiskEngine TradeExecutor Scheduler SessionSpec
       Scenarios.
Local Open Scope Q_scope.

Lemma same_link_refl (o : option PriceStream.Stream) : same_link o o.
Proof. destruct o; cbn; auto. Qed.

Lemma same_link_trans (a b c : option PriceStream.Stream) :
  same_link a b -> same_link b c -> same_link a c.
Proof.
  destruct a, b, c; cbn; try tauto.
  intros (H1 & H2 & H3) (H4 & H5 & H6). repeat split; congruence.
Qed.

Section WithSettings.

Variable settings : Config.Settings.
Variable session_name : string.
Variable session_dt : datetime.
Variable balance : Q.

(** What one pair leaves alone. *)
Lemma execute_pair_frame (inputs : PairInputs) (db : Database)
    (sch : TradingScheduler) (pair : string) :
  let out :=
    execute_pair settings session_name session_dt balance inputs db sch pair in
  account (fst out) = account db
  /\ rolling_window (fst out) = rolling_window db
  /\ percentile_targets (fst out) = percentile_targets db
  /\ _pending_verifications (snd out) = _pending_verifications sch
  /\ _ohlc_cache (snd out) = _ohlc_cache sch
  /\ _chart_cache (snd out) = _chart_cache sch
  /\ _current_session (snd out) = _current_session sch
  /\ (forall tid, tid <> fresh_uuid inputs ->
        trades (fst out) !! tid = trades db !! tid
        /\ _active_trades (snd out) !! tid = _active_trades sch !! tid)
  /\ (forall tid, is_Some (trades db !! tid) ->
        is_Some (trades (fst out) !! tid))
  /\ (_chart_cache sch !! pair = None -> out = (db, sch))
  /\ same_link (_price_stream (snd out)) (_price_stream sch).
Proof.
  intros out. subst out.
  assert (Hsame :
    account db = account db
    /\ rolling_window db = rolling_window db
    /\ percentile_targets db = percentile_targets db
    /\ _pending_verifications sch = _pending_verifications sch
    /\ _ohlc_cache sch = _ohlc_cache sch
    /\ _chart_cache sch = _chart_cache sch
    /\ _current_session sch = _current_session sch
    /\ (forall tid, tid <> fresh_uuid inputs ->
          trades db !! tid = trades db !! tid
          /\ _active_trades sch !! tid = _active_trades sch !! tid)
    /\ (forall tid, is_Some (trades db !! tid) -> is_Some (trades db !! tid))
    /\ (_chart_cache sch !! pair = None -> (db, sch) = (db, sch))
    /\ same_link (_price_stream sch) (_price_stream sch)).
  { repeat split; auto. apply same_link_refl. }
  unfold execute_pair.
  destruct (_chart_cache sch !! pair) as [chart|] eqn:Ec; [|exact Hsame].
  destruct (predicted inputs) as [result|]; [|exact Hsame].
  destruct (String.eqb (default "NEUTRAL"%string (res_prediction result))
              "NEUTRAL"); [exact Hsame|].
  match goal with
  | |- context [match ?e with Some _ => _ | None => (db, sch) end] =>
      destruct e as [entry|]; [|exact Hsame]
  end.
  destruct (calculate_risk_parameters settings db pair session_name
              (default "NEUTRAL"%string (res_prediction result)) entry balance)
    as [rp|]; [|exact Hsame].
  clear Hsame. unfold open_trade.
  cbn [fst snd te_trade_id account rolling_window percentile_targets trades
       set_trades _pending_verifications _ohlc_cache _chart_cache
       _current_session _active_trades _price_stream].
  refine (conj eq_refl (conj eq_refl (conj eq_refl (conj eq_refl
            (conj eq_refl (conj eq_refl (conj eq_refl (conj _ (conj _
            (conj _ _)))))))))).
  - intros tid Hne. split; apply lookup_insert_ne; congruence.
  - intros tid Hsome.
    destruct (decide (tid = fresh_uuid inputs)) as [->|Hne].
    + rewrite lookup_insert_eq. eauto.
    + rewrite lookup_insert_ne by congruence. exact Hsome.
  - intros [=].
  - destruct (_price_stream sch) as [ps|]; [|exact I].
    destruct (PriceStream.is_connected ps) eqn:Econn; cbn.
    + unfold PriceStream.is_connected in *. cbn. now rewrite Econn.
    + auto.
Qed.

(** The loop over a list of pairs. *)
Lemma execute_pairs_frame (inputs : string -> PairInputs) (pairs : list string)
    (db : Database) (sch : TradingScheduler) :
  let out :=
    fold_left
      (fun w pair =>
         execute_pair settings session_name session_dt balance (inputs pair)
                      (fst w) (snd w) pair)
      pairs (db, sch) in
  account (fst out) = account db
  /\ rolling_window (fst out) = rolling_window db
  /\ percentile_targets (fst out) = percentile_targets db
  /\ _pending_verifications (snd out) = _pending_verifications sch
  /\ _ohlc_cache (snd out) = _ohlc_cache sch
  /\ _chart_cache (snd out) = _chart_cache sch
  /\ _current_session (snd out) = _current_session sch
  /\ (forall tid,
        (forall pair, In pair pairs -> fresh_uuid (inputs pair) <> tid) ->
        trades (fst out) !! tid = trades db !! tid
        /\ _active_trades (snd out) !! tid = _active_trades sch !! tid)
  /\ (forall tid, is_Some (trades db !! tid) ->
        is_Some (trades (fst out) !! tid))
  /\ ((forall pair, In pair pairs -> _chart_cache sch !! pair = None) ->
      out = (db, sch))
  /\ same_link (_price_stream (snd out)) (_price_stream sch).
Proof.
  revert db sch. induction pairs as [|p pairs IH]; intros db sch; cbv zeta.
  - cbn [fold_left fst snd]. repeat split; auto. apply same_link_refl.
  - cbn [fold_left fst snd].
    pose proof (execute_pair_frame (inputs p) db sch p) as Hstep.
    cbv zeta in Hstep.
    destruct (execute_pair settings session_name session_dt balance (inputs p)
                db sch p) as [db1 sch1] eqn:E1.
    cbn [fst snd] in Hstep.
    destruct Hstep as (A1 & A2 & A3 & A4 & A5 & A6 & A7 & A8 & A9 & A10 & A11).
    specialize (IH db1 sch1). cbv zeta in IH.
    destruct IH as (B1 & B2 & B3 & B4 & B5 & B6 & B7 & B8 & B9 & B10 & B11).
    refine (conj _ (conj _ (conj _ (conj _ (conj _ (conj _ (conj _ (conj _
              (conj _ (conj _ _)))))))))); try congruence.
    + intros tid Hfresh.
      destruct (B8 tid) as [T1 T2];
        [intros pair Hin; apply Hfresh; now right|].
      destruct (A8 tid) as [T3 T4];
        [intros Heq; apply (Hfresh p); [now left | now symmetry]|].
      split; congruence.
    + intros tid Hsome. apply B9, A9, Hsome.
    + intros Hnone.
      assert (Hp : (db1, sch1) = (db, sch)) by (apply A10, Hnone; now left).
      injection Hp as -> ->. apply B10. intros pair Hin. apply Hnone. now right.
    + eapply same_link_trans; eassumption.
Qed.

End WithSettings.

(** X27.  A session, over all trading pairs.  [_execute_session]
    records the session as current and ends with both caches empty.
    It only opens trades: no row of [trades] disappears, and a row or
    an active trade whose id is not one of the fresh ids of the session
    is as before; the account, the rolling window, the view and the
    pending verifications are not touched, and the stream keeps its
    connection, quotes and subscriptions.  Without charts in the cache
    no trade is opened at all. *)
Theorem execute_session_effect (settings : Config.Settings)
    (session_name : string) (session_dt : datetime)
    (inputs : string -> PairInputs) (db : Database) (sch : TradingScheduler) :
  let out := _execute_session settings session_name session_dt inputs db sch in
  _current_session (snd out) = Some session_name
  /\ _ohlc_cache (snd out) = ∅ /\ _chart_cache (snd out) = ∅
  /\ account (fst out) = account db
  /\ rolling_window (fst out) = rolling_window db
  /\ percentile_targets (fst out) = percentile_targets db
  /\ _pending_verifications (snd out) = _pending_verifications sch
  /\ (forall tid,
        (forall pair, In pair Config.TRADING_PAIRS ->
                      fresh_uuid (inputs pair) <> tid) ->
        trades (fst out) !! tid = trades db !! tid
        /\ _active_trades (snd out) !! tid = _active_trades sch !! tid)
  /\ (forall tid, is_Some (trades db !! tid) ->
        is_Some (trades (fst out) !! tid))
  /\ (_chart_cache sch = ∅ ->
      fst out = db /\ _active_trades (snd out) = _active_trades sch)
  /\ same_link (_price_stream (snd out)) (_price_stream sch).
Proof.
  intros out. subst out. unfold _execute_session.
  set (sch0 := {| _ohlc_cache := _ohlc_cache sch;
                  _chart_cache := _chart_cache sch;
                  _current_session := Some session_name;
                  _active_trades := _active_trades sch;
                  _price_stream := _price_stream sch;
                  _pending_verifications := _pending_verifications sch |}).
  pose proof (execute_pairs_frame settings session_name session_dt
                (account_balance settings db) inputs Config.TRADING_PAIRS
                db sch0) as H.
  cbv zeta in H.
  destruct (fold_left _ Config.TRADING_PAIRS (db, sch0)) as [db' sch'].
  cbn [fst snd] in *.
  destruct H as (B1 & B2 & B3 & B4 & B5 & B6 & B7 & B8 & B9 & B10 & B11).
  refine (conj B7 (conj eq_refl (conj eq_refl (conj B1 (conj B2 (conj B3
            (conj B4 (conj B8 (conj B9 (conj _ B11)))))))))).
  intros Hempty.
  assert (Hp : (db', sch') = (db, sch0)).
  { apply B10. intros pair _. cbn [_chart_cache sch0]. rewrite Hempty.
    apply lookup_empty. }
  injection Hp as -> ->. split; reflexivity.
Qed.

(** The London open with a chart for EURUSD only and 30 samples in the
    view: the session opens its trade under the fresh id, leaves every
    other id alone and ends with empty caches. *)
Lemma execute_session_effect_witness :
  let out := _execute_session Config.default_settings "London_Open"
               (at_time 2025 12 29 8 0) (fun _ => bullish_conviction_9)
               (sample_stats 30) sample_scheduler in
  trades (fst out) !! "s6"%string = trades (sample_stats 30) !! "s6"%string
  /\ _active_trades (snd out) !! "s6"%string
     = _active_trades sample_scheduler !! "s6"%string
  /\ _chart_cache (snd out) = ∅
  /\ is_Some (trades (fst out) !! fresh_uuid bullish_conviction_9).
Proof.
  intros out. subst out.
  pose proof (execute_session_effect Config.default_settings "London_Open"
                (at_time 2025 12 29 8 0) (fun _ => bullish_conviction_9)
                (sample_stats 30) sample_scheduler) as H.
  cbv zeta in H.
  destruct H as (_ & _ & Hc & _ & _ & _ & _ & H & _).
  destruct (H "s6"%string) as [H1 H2]; [intros pair _; discriminate|].
  refine (conj H1 (conj H2 (conj Hc _))). vm_compute. eauto.
Defined.

End SessionFacts.
